(** * equery: the shared-operation engine and the client-scoped dedup registry

    A shallow embedding of [src/core/Query.ts] (classes [ActiveQuery] and
    [QueryObserver], standalone [useFetch]), of [src/core/Client.ts]
    (class [EqueryClient]) and of the key derivation of
    [src/adapters/trpc.ts] ([stableStringify], [serializeInput] and the
    call of a procedure through the proxy).

    JavaScript objects live in explicit stores: every [ActiveQuery], every
    [QueryObserver], every [AbortController] and every execution of the
    async body of [ActiveQuery.execute] is a cell of a list, addressed by its
    index; an object reference is that index, and the [id] symbol of an
    [ActiveQuery] is its index as well.  Closures are defunctionalised: a
    callback is a constructor that names what the arrow function of the
    source captures.  The microtask queue ([Promise.resolve().then(...)]) is
    an explicit list of pending tasks, and everything observable (a unit of
    work invoked, a user callback called) is appended to a trace.  The call
    of a unit of work either returns something to await, and the run is
    suspended until the environment settles it, or throws, and the [catch]
    block of the async body runs inside [execute]; which of the two a call
    does is a field of the state ([throwing]) the environment can change. *)

From stdpp Require Import base option list strings gmap pretty sorting.
From Stdlib Require Import ZArith Lia Ascii.

Local Open Scope string_scope.
Local Open Scope list_scope.
Local Open Scope Z_scope.

(** ** JavaScript values *)

(** The values the code inspects: the value a unit of work produces or
    raises, and a request body.  Numbers are integers here. *)
#[warnings="-register-all"]
Inductive JVal : Type :=
  | JUndefined
  | JNull
  | JBool (b : bool)
  | JNum (n : Z)
  | JStr (s : string)
  | JObj (props : list (string * JVal)).

(** Property read [o.k] on an object literal: the first binding wins. *)
Fixpoint getProp (k : string) (props : list (string * JVal)) : JVal :=
  match props with
  | [] => JUndefined
  | (k', v) :: rest => if String.eqb k k' then v else getProp k rest
  end.

(** [!!v] *)
Definition truthy (v : JVal) : bool :=
  match v with
  | JUndefined | JNull => false
  | JBool b => b
  | JNum n => negb (n =? 0)
  | JStr s => negb (String.eqb s "")
  | JObj _ => true
  end.

(** [new Error(message)] *)
Definition mkError (message : string) : JVal :=
  JObj [("name", JStr "Error"); ("message", JStr message)].

(** [err.message] when it is a string, the empty string otherwise. *)
Definition messageOf (v : JVal) : string :=
  match v with
  | JObj props => match getProp "message" props with JStr m => m | _ => "" end
  | _ => ""
  end.

(** [isAbortError]: [!!(err && typeof err === "object" && err.name === "AbortError")] *)
Definition isAbortError (err : JVal) : bool :=
  match err with
  | JObj props =>
      match getProp "name" props with
      | JStr n => String.eqb n "AbortError"
      | _ => false
      end
  | _ => false
  end.

(** [needle] occurs in [hay] ([toContain] on strings). *)
Definition contains (needle hay : string) : Prop :=
  ∃ pre post : string, hay = pre +:+ needle +:+ post.

(** ** Optional properties and object spread *)

(** An optional property of a config object: not an own property, an own
    property holding [undefined], or an own property holding a value.  The
    distinction matters for spread: [{...a, ...b}] lets every own property
    of [b] win, also one that holds [undefined]. *)
Inductive Field (A : Type) : Type :=
  | Absent
  | Undefined
  | Given (a : A).
Arguments Absent {A}.
Arguments Undefined {A}.
Arguments Given {A} a.

(** One property of [{...a, ...b}]. *)
Definition spread {A} (a b : Field A) : Field A :=
  match b with
  | Absent => a
  | _ => b
  end.

(** [f || dflt] for a string property. *)
Definition strOr (f : Field string) (dflt : string) : string :=
  match f with
  | Given s => if String.eqb s "" then dflt else s
  | _ => dflt
  end.

(** Truthiness of a string property. *)
Definition strTruthy (f : Field string) : bool :=
  match f with
  | Given s => negb (String.eqb s "")
  | _ => false
  end.

(** Truthiness of the [body] property. *)
Definition bodyTruthy (f : Field JVal) : bool :=
  match f with
  | Given v => truthy v
  | _ => false
  end.

(** [QueryConfig] of [types.ts]. *)
Record QueryConfig : Type := {
  enabled : Field bool;
  baseUrl : Field string;
  queryKey : Field string;
  method : Field string;
  headers : Field (gmap string string);
  body : Field JVal;
  timeout : Field Z;
}.

(** [{}] *)
Definition emptyConfig : QueryConfig :=
  {| enabled := Absent; baseUrl := Absent; queryKey := Absent;
     method := Absent; headers := Absent; body := Absent; timeout := Absent |}.

(** [{...h}] for a headers property that may be missing. *)
Definition headersOf (f : Field (gmap string string)) : gmap string string :=
  match f with
  | Given h => h
  | _ => ∅
  end.

(** [{...a, ...b}] on header maps: the entries of [b] win. *)
Definition mergeHeaders (a b : Field (gmap string string)) : gmap string string :=
  headersOf b ∪ headersOf a.

(** [mergedConfig] of [EqueryClient.useFetch]:
    [{...this.config, ...config, headers: mergedHeaders}]. *)
Definition mergeConfig (client call : QueryConfig) : QueryConfig :=
  {| enabled := spread (enabled client) (enabled call);
     baseUrl := spread (baseUrl client) (baseUrl call);
     queryKey := spread (queryKey client) (queryKey call);
     method := spread (method client) (method call);
     headers := Given (mergeHeaders (headers client) (headers call));
     body := spread (body client) (body call);
     timeout := spread (timeout client) (timeout call) |}.

(** [config.enabled !== false] *)
Definition enabledNotFalse (c : QueryConfig) : bool :=
  match enabled c with
  | Given false => false
  | _ => true
  end.

(** [typeof timeoutMs === "number" && timeoutMs > 0], with the value. *)
Definition hasTimeout (c : QueryConfig) : option Z :=
  match timeout c with
  | Given ms => if 0 <? ms then Some ms else None
  | _ => None
  end.

(** [new Error(`timeout of ${timeoutMs}ms exceeded`)] *)
Definition mkTimeoutError (ms : Z) : JVal :=
  mkError ("timeout of " +:+ pretty ms +:+ "ms exceeded").

(** ** Endpoints *)

(** A unit of work after unwrapping: a URL for the network primitive, or a
    callable, named by a number. *)
Inductive Endpoint : Type :=
  | Url (u : string)
  | Fn (f : nat).

#[global] Instance Endpoint_eq_dec : EqDecision Endpoint.
Proof. solve_decision. Defined.

(** What a caller passes to [useFetch]: a string, a [Fetcher], or a
    [FetcherDefinition] [{key, fn}]. *)
Inductive EndpointArg : Type :=
  | Plain (e : Endpoint)
  | Keyed (key : string) (fn : nat).

(** [if (typeof endpoint === "object" && endpoint !== null && "fn" in endpoint)] *)
Definition actualEndpoint (e : EndpointArg) : Endpoint :=
  match e with
  | Plain e => e
  | Keyed _ fn => Fn fn
  end.

Definition definitionKey (e : EndpointArg) : Field string :=
  match e with
  | Plain _ => Absent
  | Keyed key _ => Given key
  end.

(** [s.replace(/\/$/, "")]: drop one trailing slash. *)
Fixpoint dropTrailingSlash (s : string) : string :=
  match s with
  | EmptyString => EmptyString
  | String c EmptyString => if Ascii.eqb c "/"%char then EmptyString else s
  | String c rest => String c (dropTrailingSlash rest)
  end.

(** [s.replace(/^\//, "")]: drop one leading slash. *)
Definition dropLeadingSlash (s : string) : string :=
  match s with
  | String c rest => if Ascii.eqb c "/"%char then rest else s
  | EmptyString => EmptyString
  end.

(** [finalEndpoint]: a string endpoint gets a truthy [baseUrl] in front. *)
Definition finalEndpoint (merged : QueryConfig) (e : Endpoint) : Endpoint :=
  match e with
  | Url path =>
      if strTruthy (baseUrl merged)
      then Url (dropTrailingSlash (strOr (baseUrl merged) "") +:+ "/" +:+ dropLeadingSlash path)
      else Url path
  | Fn f => Fn f
  end.

(** ** The result snapshot *)

(** [QueryResult] of [types.ts]. *)
Record QueryResult : Type := {
  data : JVal;
  error : JVal;
  isSuccess : bool;
  isError : bool;
  isCanceled : bool;
  isLoading : bool;
}.

(** The literal of the [ActiveQuery] constructor. *)
Definition initialResult : QueryResult :=
  {| data := JNull; error := JNull; isSuccess := false; isError := false;
     isCanceled := false; isLoading := false |}.

(** The literal [canceledState] of [QueryObserver.cancel] and of the two
    arrows of [QueryObserver.then]. *)
Definition canceledState : QueryResult :=
  {| data := JNull; error := JNull; isSuccess := false; isError := false;
     isCanceled := true; isLoading := false |}.

(** [state.isSuccess || state.isError || state.isCanceled] *)
Definition anyTerminalFlag (r : QueryResult) : bool :=
  isSuccess r || isError r || isCanceled r.

(** The guard of [ActiveQuery.onComplete]. *)
Definition isSettled (r : QueryResult) : bool :=
  negb (isLoading r) && anyTerminalFlag r.

(** The guard of [ActiveQuery.onError] and [QueryObserver.onError]:
    [isError && error] once [isLoading] is false. *)
Definition hasDeliverableError (r : QueryResult) : bool :=
  negb (isLoading r) && isError r && truthy (error r).

(** ** Callbacks, tasks and events *)

(** A callback on the completion list of an [ActiveQuery]. *)
Inductive CompleteCb : Type :=
  | UserComplete (tag : nat)
      (** a caller's function; calling it is recorded in the trace *)
  | RelayComplete (obs : nat)
      (** [(res) => { if (!this.isObserverCanceled) this.wrappedCompleteCallbacks.forEach(cb => cb(res)) }]
          of the [QueryObserver] constructor *)
  | EvictKey (key : string).
      (** [() => { this.activeQueries.delete(cacheKey) }] of [EqueryClient.useFetch] *)

(** A callback on the error list of an [ActiveQuery]. *)
Inductive ErrorCb : Type :=
  | UserError (tag : nat)
  | RelayError (obs : nat).

(** What [then], [catch] and [finally] chain onto the wrapped promise. *)
Inductive Continuation : Type :=
  | OnThen (k : nat)
  | OnCatch (k : nat)
  | OnFinally (k : nat).

(** A pending microtask. *)
Inductive Task : Type :=
  | DeliverCurrent (cb : CompleteCb) (aq : nat)
      (** [() => callback(this.resultState)] of [ActiveQuery.onComplete] *)
  | DeliverError (cb : ErrorCb) (err : JVal)
      (** [() => callback(err)] of [ActiveQuery.onError] *)
  | DeliverState (tag : nat) (state : QueryResult)
      (** [() => callback(state)] of [QueryObserver.onComplete] *)
  | DeliverStateError (tag : nat) (err : JVal)
      (** [() => callback(state.error!)] of [QueryObserver.onError] *)
  | DeliverCanceled (tags : list nat)
      (** [() => { callbacks.forEach(cb => cb(canceledState)) }] of [QueryObserver.cancel] *)
  | React (obs : nat) (c : Continuation) (res : QueryResult).
      (** the reaction [p.then(...)] registered, once [p] is fulfilled with [res] *)

(** What can be observed from outside. *)
Inductive Event : Type :=
  | Invoked (aq : nat)
      (** the unit of work of that operation was called *)
  | CalledComplete (tag : nat) (r : QueryResult)
  | CalledError (tag : nat) (err : JVal)
  | Surfaced (k : nat) (r : QueryResult)
      (** the wrapped promise of [then]/[catch] was fulfilled with [r] *)
  | Finalized (k : nat) (d : JVal).
      (** [onfinally] ran and the promise of [finally] was fulfilled with [d] *)

(** ** The stores *)

(** One run of the async body of [ActiveQuery.execute]: the variables its
    closure holds, the promise it returns and the reactions waiting on it. *)
Record Execution : Type := {
  owner : nat;                    (** [this] *)
  signal : nat;                   (** the controller of [const signal] *)
  timeoutError : option JVal;     (** [null] unless [hasTimeout] *)
  didTimeout : bool;
  timerPending : bool;            (** the [setTimeout] has neither fired nor been cleared *)
  outcome : option QueryResult;   (** the value the promise is fulfilled with *)
  reactions : list (nat * Continuation);
}.

Record ActiveQuery : Type := {
  endpoint : Endpoint;
  config : QueryConfig;
  resultState : QueryResult;
  completeCallbacks : list CompleteCb;
  errorCallbacks : list ErrorCb;
  abortController : option nat;
  promise : option nat;           (** the current [Execution] *)
  refCount : Z;
  lazyKey : option string;
      (** [Some key] once [EqueryClient.useFetch] has replaced [execute] by
          its lazily registering wrapper for [key] *)
}.

Record QueryObserver : Type := {
  activeQuery : nat;
  isObserverCanceled : bool;
  wrappedCompleteCallbacks : list nat;
  wrappedErrorCallbacks : list nat;
}.

(** One [EqueryClient], everything it created, and the event loop. *)
Record World : Type := {
  queries : list ActiveQuery;
  observers : list QueryObserver;
  controllers : list bool;        (** [signal.aborted] of each controller *)
  executions : list Execution;
  clientConfig : QueryConfig;     (** [EqueryClient.config] *)
  activeQueries : gmap string nat;  (** [EqueryClient.activeQueries] *)
  microtasks : list Task;
  trace : list Event;
  throwing : Endpoint → option JVal;
      (** what calling a unit of work does as things stand, [this.endpoint({ signal })]
          for a callable and [fetchImpl(this.endpoint, init)] for a string:
          [Some v] when the call itself throws [v], [None] when it returns
          something to await *)
}.

(** [new EqueryClient(config)] in an empty program. *)
Definition newWorld (c : QueryConfig) : World :=
  {| queries := []; observers := []; controllers := []; executions := [];
     clientConfig := c; activeQueries := ∅; microtasks := []; trace := [];
     throwing := λ _, None |}.

(** *** Field updates *)

Definition withResultState (r : QueryResult) (q : ActiveQuery) : ActiveQuery :=
  {| endpoint := endpoint q; config := config q; resultState := r;
     completeCallbacks := completeCallbacks q; errorCallbacks := errorCallbacks q;
     abortController := abortController q; promise := promise q;
     refCount := refCount q; lazyKey := lazyKey q |}.

Definition withCallbacks (cs : list CompleteCb) (es : list ErrorCb) (q : ActiveQuery) : ActiveQuery :=
  {| endpoint := endpoint q; config := config q; resultState := resultState q;
     completeCallbacks := cs; errorCallbacks := es;
     abortController := abortController q; promise := promise q;
     refCount := refCount q; lazyKey := lazyKey q |}.

Definition withRun (ctrl run : nat) (q : ActiveQuery) : ActiveQuery :=
  {| endpoint := endpoint q; config := config q; resultState := resultState q;
     completeCallbacks := completeCallbacks q; errorCallbacks := errorCallbacks q;
     abortController := Some ctrl; promise := Some run;
     refCount := refCount q; lazyKey := lazyKey q |}.

Definition withRefCount (n : Z) (q : ActiveQuery) : ActiveQuery :=
  {| endpoint := endpoint q; config := config q; resultState := resultState q;
     completeCallbacks := completeCallbacks q; errorCallbacks := errorCallbacks q;
     abortController := abortController q; promise := promise q;
     refCount := n; lazyKey := lazyKey q |}.

Definition withLazyKey (k : option string) (q : ActiveQuery) : ActiveQuery :=
  {| endpoint := endpoint q; config := config q; resultState := resultState q;
     completeCallbacks := completeCallbacks q; errorCallbacks := errorCallbacks q;
     abortController := abortController q; promise := promise q;
     refCount := refCount q; lazyKey := k |}.

Definition withLoading (l : bool) (r : QueryResult) : QueryResult :=
  {| data := data r; error := error r; isSuccess := isSuccess r;
     isError := isError r; isCanceled := isCanceled r; isLoading := l |}.

Definition withCanceled (c : bool) (r : QueryResult) : QueryResult :=
  {| data := data r; error := error r; isSuccess := isSuccess r;
     isError := isError r; isCanceled := c; isLoading := isLoading r |}.

Definition withError (e : JVal) (r : QueryResult) : QueryResult :=
  {| data := data r; error := e; isSuccess := isSuccess r;
     isError := true; isCanceled := isCanceled r; isLoading := isLoading r |}.

Definition withData (d : JVal) (r : QueryResult) : QueryResult :=
  {| data := d; error := error r; isSuccess := true;
     isError := isError r; isCanceled := isCanceled r; isLoading := isLoading r |}.

Definition setQueries (qs : list ActiveQuery) (w : World) : World :=
  {| queries := qs; observers := observers w; controllers := controllers w;
     executions := executions w; clientConfig := clientConfig w;
     activeQueries := activeQueries w; microtasks := microtasks w; trace := trace w;
     throwing := throwing w |}.

Definition setObservers (os : list QueryObserver) (w : World) : World :=
  {| queries := queries w; observers := os; controllers := controllers w;
     executions := executions w; clientConfig := clientConfig w;
     activeQueries := activeQueries w; microtasks := microtasks w; trace := trace w;
     throwing := throwing w |}.

Definition setControllers (cs : list bool) (w : World) : World :=
  {| queries := queries w; observers := observers w; controllers := cs;
     executions := executions w; clientConfig := clientConfig w;
     activeQueries := activeQueries w; microtasks := microtasks w; trace := trace w;
     throwing := throwing w |}.

Definition setExecutions (xs : list Execution) (w : World) : World :=
  {| queries := queries w; observers := observers w; controllers := controllers w;
     executions := xs; clientConfig := clientConfig w;
     activeQueries := activeQueries w; microtasks := microtasks w; trace := trace w;
     throwing := throwing w |}.

Definition setClientConfig (c : QueryConfig) (w : World) : World :=
  {| queries := queries w; observers := observers w; controllers := controllers w;
     executions := executions w; clientConfig := c;
     activeQueries := activeQueries w; microtasks := microtasks w; trace := trace w;
     throwing := throwing w |}.

Definition setActiveQueries (m : gmap string nat) (w : World) : World :=
  {| queries := queries w; observers := observers w; controllers := controllers w;
     executions := executions w; clientConfig := clientConfig w;
     activeQueries := m; microtasks := microtasks w; trace := trace w;
     throwing := throwing w |}.

Definition setMicrotasks (ts : list Task) (w : World) : World :=
  {| queries := queries w; observers := observers w; controllers := controllers w;
     executions := executions w; clientConfig := clientConfig w;
     activeQueries := activeQueries w; microtasks := ts; trace := trace w;
     throwing := throwing w |}.

Definition setThrowing (t : Endpoint → option JVal) (w : World) : World :=
  {| queries := queries w; observers := observers w; controllers := controllers w;
     executions := executions w; clientConfig := clientConfig w;
     activeQueries := activeQueries w; microtasks := microtasks w; trace := trace w;
     throwing := t |}.

Definition setTrace (es : list Event) (w : World) : World :=
  {| queries := queries w; observers := observers w; controllers := controllers w;
     executions := executions w; clientConfig := clientConfig w;
     activeQueries := activeQueries w; microtasks := microtasks w; trace := es;
     throwing := throwing w |}.

(** Mutation of the object behind a reference. *)
Definition updQuery (a : nat) (f : ActiveQuery → ActiveQuery) (w : World) : World :=
  setQueries (alter f a (queries w)) w.

Definition updObserver (o : nat) (f : QueryObserver → QueryObserver) (w : World) : World :=
  setObservers (alter f o (observers w)) w.

Definition updExecution (x : nat) (f : Execution → Execution) (w : World) : World :=
  setExecutions (alter f x (executions w)) w.

(** [controller.abort()] *)
Definition abort (c : nat) (w : World) : World :=
  setControllers (<[c := true]> (controllers w)) w.

(** [signal.aborted] *)
Definition aborted (c : nat) (w : World) : bool :=
  default false (controllers w !! c).

(** [Promise.resolve().then(task)] *)
Definition defer (t : Task) (w : World) : World :=
  setMicrotasks (microtasks w ++ [t]) w.

Definition emit (es : list Event) (w : World) : World :=
  setTrace (trace w ++ es) w.

Definition isSomeb {A} (o : option A) : bool :=
  match o with
  | Some _ => true
  | None => false
  end.

(** ** Calling a callback *)

(** [cb(res)] for a callback of a completion list. *)
Definition callComplete (cb : CompleteCb) (res : QueryResult) (w : World) : World :=
  match cb with
  | UserComplete tag => emit [CalledComplete tag res] w
  | RelayComplete o =>
      match observers w !! o with
      | Some ob =>
          if isObserverCanceled ob then w
          else emit (map (λ tag, CalledComplete tag res) (wrappedCompleteCallbacks ob)) w
      | None => w
      end
  | EvictKey key => setActiveQueries (delete key (activeQueries w)) w
  end.

(** [cb(err)] for a callback of an error list. *)
Definition callError (cb : ErrorCb) (err : JVal) (w : World) : World :=
  match cb with
  | UserError tag => emit [CalledError tag err] w
  | RelayError o =>
      match observers w !! o with
      | Some ob =>
          if isObserverCanceled ob then w
          else emit (map (λ tag, CalledError tag err) (wrappedErrorCallbacks ob)) w
      | None => w
      end
  end.

(** What the awaited work of the [try] block did. *)
Inductive Outcome : Type :=
  | Fulfils (d : JVal)
  | Raises (err : JVal).

(** The string-endpoint path after [await fetchImpl(...)] returned a
    response: [if (!response.ok) throw new Error(...)], then
    [await response.json()]. *)
Definition responseOutcome (ok : bool) (status : Z) (json : Outcome) : Outcome :=
  if ok then json
  else Raises (mkError ("request failed with status " +:+ pretty status)).

(** ** class ActiveQuery *)

Module ActiveQuery.

Definition addRef (a : nat) (w : World) : World :=
  updQuery a (λ q, withRefCount (refCount q + 1) q) w.

Definition hardCancel (a : nat) (w : World) : World :=
  match queries w !! a with
  | Some q =>
      match abortController q with
      | Some c => if isLoading (resultState q) then abort c w else w
      | None => w
      end
  | None => w
  end.

Definition removeRef (a : nat) (w : World) : World :=
  let w := updQuery a (λ q, withRefCount (refCount q - 1) q) w in
  match queries w !! a with
  | Some q => if refCount q <=? 0 then hardCancel a w else w
  | None => w
  end.

Definition notifyError (a : nat) (err : JVal) (w : World) : World :=
  match queries w !! a with
  | Some q => foldl (λ w cb, callError cb err w) w (errorCallbacks q)
  | None => w
  end.

Definition notifyComplete (a : nat) (w : World) : World :=
  match queries w !! a with
  | Some q =>
      let w := foldl (λ w cb, callComplete cb (resultState q) w) w (completeCallbacks q) in
      updQuery a (withCallbacks [] []) w
  | None => w
  end.

(** [if (timeoutId) clearTimeout(timeoutId)] *)
Definition clearTimer (ex : Execution) : Execution :=
  {| owner := owner ex; signal := signal ex; timeoutError := timeoutError ex;
     didTimeout := didTimeout ex; timerPending := false;
     outcome := outcome ex; reactions := reactions ex |}.

(** The arrow given to [setTimeout], as far as its own variables go. *)
Definition markTimedOut (ex : Execution) : Execution :=
  {| owner := owner ex; signal := signal ex; timeoutError := timeoutError ex;
     didTimeout := true; timerPending := false;
     outcome := outcome ex; reactions := reactions ex |}.

Definition fulfilWith (r : QueryResult) (ex : Execution) : Execution :=
  {| owner := owner ex; signal := signal ex; timeoutError := timeoutError ex;
     didTimeout := didTimeout ex; timerPending := timerPending ex;
     outcome := Some r; reactions := [] |}.

Definition addReaction (r : nat * Continuation) (ex : Execution) : Execution :=
  {| owner := owner ex; signal := signal ex; timeoutError := timeoutError ex;
     didTimeout := didTimeout ex; timerPending := timerPending ex;
     outcome := outcome ex; reactions := reactions ex ++ [r] |}.

(** [return this.resultState]: the promise of the run is fulfilled and
    its reactions are queued. *)
Definition fulfil (x : nat) (w : World) : World :=
  match executions w !! x with
  | Some ex =>
      match queries w !! owner ex with
      | Some q =>
          let r := resultState q in
          let w := updExecution x (fulfilWith r) w in
          setMicrotasks (microtasks w ++ map (λ oc, React oc.1 oc.2 r) (reactions ex)) w
      | None => w
      end
  | None => w
  end.

(** [didTimeout && timeoutError] *)
Definition timedOut (ex : Execution) : option JVal :=
  if didTimeout ex then timeoutError ex else None.

(** The [catch (err)] block of the async body. *)
Definition onCatch (x : nat) (err : JVal) (w : World) : World :=
  match executions w !! x with
  | Some ex =>
      let a := owner ex in
      let w := updExecution x clearTimer w in
      let w := updQuery a (λ q, withResultState (withLoading false (resultState q)) q) w in
      let w :=
        match timedOut ex with
        | Some te =>
            notifyError a te
              (updQuery a (λ q, withResultState (withError te (resultState q)) q) w)
        | None =>
            if isAbortError err || aborted (signal ex) w
            then updQuery a (λ q, withResultState (withCanceled true (resultState q)) q) w
            else
              notifyError a err
                (updQuery a (λ q, withResultState (withError err (resultState q)) q) w)
        end in
      fulfil x (notifyComplete a w)
  | None => w
  end.

(** [execute].  The async body runs inside the call as far as its first
    [await]: the unit of work is called there.  If that call returns, the
    body is suspended on what it returned and the run is in flight; if the
    call itself throws, the [catch] block runs at once, still inside
    [execute], and the promise assigned to [this.promise] is already
    fulfilled. *)
Definition execute (a : nat) (w : World) : World :=
  match queries w !! a with
  | Some q =>
      if isLoading (resultState q) && isSomeb (promise q) then w
      else
        let c := length (controllers w) in
        let x := length (executions w) in
        let t := hasTimeout (config q) in
        let run :=
          {| owner := a; signal := c; timeoutError := mkTimeoutError <$> t;
             didTimeout := false; timerPending := isSomeb t;
             outcome := None; reactions := [] |} in
        let w := setControllers (controllers w ++ [false]) w in
        let w := setExecutions (executions w ++ [run]) w in
        let w :=
          updQuery a (λ q, withRun c x
            (withResultState (withCanceled false (withLoading true (resultState q))) q)) w in
        let w := emit [Invoked a] w in
        match throwing w (endpoint q) with
        | Some err => onCatch x err w
        | None => w
        end
  | None => w
  end.

(** The async body from its [await] on: the awaited work settled with
    [o].  A run whose promise is already fulfilled has nothing left. *)
Definition resume (x : nat) (o : Outcome) (w : World) : World :=
  match executions w !! x with
  | Some ex =>
      match outcome ex with
      | Some _ => w
      | None =>
          match o with
          | Raises err => onCatch x err w
          | Fulfils d =>
              let w := updExecution x clearTimer w in
              if aborted (signal ex) w
              then onCatch x (default (mkError "Aborted") (timedOut ex)) w
              else
                let a := owner ex in
                let w :=
                  updQuery a (λ q, withResultState
                    (withLoading false (withData d (resultState q))) q) w in
                fulfil x (notifyComplete a w)
          end
      end
  | None => w
  end.

(** The timer of [execute] expires:
    [() => { didTimeout = true; this.abortController?.abort(); }] *)
Definition timerFires (x : nat) (w : World) : World :=
  match executions w !! x with
  | Some ex =>
      if timerPending ex then
        let w := updExecution x markTimedOut w in
        match queries w !! owner ex with
        | Some q =>
            match abortController q with
            | Some c => abort c w
            | None => w
            end
        | None => w
        end
      else w
  | None => w
  end.

Definition onComplete (a : nat) (callback : CompleteCb) (w : World) : World :=
  let w := updQuery a (λ q, withCallbacks (completeCallbacks q ++ [callback]) (errorCallbacks q) q) w in
  match queries w !! a with
  | Some q => if isSettled (resultState q) then defer (DeliverCurrent callback a) w else w
  | None => w
  end.

Definition onError (a : nat) (callback : ErrorCb) (w : World) : World :=
  let w := updQuery a (λ q, withCallbacks (completeCallbacks q) (errorCallbacks q ++ [callback]) q) w in
  match queries w !! a with
  | Some q =>
      if hasDeliverableError (resultState q)
      then defer (DeliverError callback (error (resultState q))) w
      else w
  | None => w
  end.

Definition getPromise (a : nat) (w : World) : option nat :=
  queries w !! a ≫= promise.

Definition getCallbackCount (a : nat) (w : World) : nat :=
  match queries w !! a with
  | Some q => (length (completeCallbacks q) + length (errorCallbacks q))%nat
  | None => 0%nat
  end.

(** The constructor; the new object's reference is returned. *)
Definition new (e : Endpoint) (c : QueryConfig) (w : World) : World * nat :=
  let a := length (queries w) in
  let q :=
    {| endpoint := e; config := c; resultState := initialResult;
       completeCallbacks := []; errorCallbacks := [];
       abortController := None; promise := None; refCount := 0;
       lazyKey := None |} in
  let w := setQueries (queries w ++ [q]) w in
  (if enabledNotFalse c then execute a w else w, a).

(** [activeQuery.execute()] as a method call: the prototype's [execute],
    or the wrapper [EqueryClient.useFetch] installed on a manual query
    ([Client.ts], the arrow assigned to [activeQuery.execute]). *)
Definition callExecute (a : nat) (w : World) : World :=
  match queries w !! a with
  | Some q =>
      match lazyKey q with
      | None => execute a w
      | Some key =>
          if isSomeb (activeQueries w !! key) then execute a w
          else
            let w := setActiveQueries (<[key := a]> (activeQueries w)) w in
            let w := onComplete a (EvictKey key) w in
            execute a w
      end
  | None => w
  end.

End ActiveQuery.

(** ** class QueryObserver *)

Module QueryObserver.

Definition cancelFlag (b : bool) (ob : QueryObserver) : QueryObserver :=
  {| activeQuery := activeQuery ob; isObserverCanceled := b;
     wrappedCompleteCallbacks := wrappedCompleteCallbacks ob;
     wrappedErrorCallbacks := wrappedErrorCallbacks ob |}.

Definition withWrapped (cs es : list nat) (ob : QueryObserver) : QueryObserver :=
  {| activeQuery := activeQuery ob; isObserverCanceled := isObserverCanceled ob;
     wrappedCompleteCallbacks := cs; wrappedErrorCallbacks := es |}.

(** The constructor; the new observer's reference is returned. *)
Definition new (a : nat) (w : World) : World * nat :=
  let o := length (observers w) in
  let ob :=
    {| activeQuery := a; isObserverCanceled := false;
       wrappedCompleteCallbacks := []; wrappedErrorCallbacks := [] |} in
  let w := setObservers (observers w ++ [ob]) w in
  let w := ActiveQuery.addRef a w in
  let w := ActiveQuery.onComplete a (RelayComplete o) w in
  let w := ActiveQuery.onError a (RelayError o) w in
  (w, o).

Definition execute (o : nat) (w : World) : World :=
  match observers w !! o with
  | Some ob => ActiveQuery.callExecute (activeQuery ob) w
  | None => w
  end.

(** [this.activeQuery.resultState] *)
Definition stateOf (ob : QueryObserver) (w : World) : QueryResult :=
  default initialResult (resultState <$> queries w !! activeQuery ob).

Definition onComplete (o tag : nat) (w : World) : World :=
  match observers w !! o with
  | Some ob =>
      let w :=
        updObserver o (λ ob, withWrapped (wrappedCompleteCallbacks ob ++ [tag])
                                         (wrappedErrorCallbacks ob) ob) w in
      let state := stateOf ob w in
      if negb (isLoading state) && negb (isObserverCanceled ob) && anyTerminalFlag state
      then defer (DeliverState tag state) w
      else w
  | None => w
  end.

Definition onError (o tag : nat) (w : World) : World :=
  match observers w !! o with
  | Some ob =>
      let w :=
        updObserver o (λ ob, withWrapped (wrappedCompleteCallbacks ob)
                                         (wrappedErrorCallbacks ob ++ [tag]) ob) w in
      let state := stateOf ob w in
      if negb (isLoading state) && negb (isObserverCanceled ob)
         && isError state && truthy (error state)
      then defer (DeliverStateError tag (error state)) w
      else w
  | None => w
  end.

Definition cancel (o : nat) (w : World) : World :=
  match observers w !! o with
  | Some ob =>
      if isObserverCanceled ob then w
      else
        let w := updObserver o (cancelFlag true) w in
        let w := ActiveQuery.removeRef (activeQuery ob) w in
        let callbacks := wrappedCompleteCallbacks ob in
        let w := updObserver o (withWrapped [] []) w in
        defer (DeliverCanceled callbacks) w
  | None => w
  end.

(** The two arrows [then] chains onto the promise of the operation, as a
    function of the observer's flag when they run: a fulfilment [inl res]
    or a rejection [inr err] of the promise goes in, what the wrapped
    promise settles with comes out. *)
Definition intercept (canceled : bool) (settled : QueryResult + JVal) : QueryResult + JVal :=
  match settled with
  | inl res => inl (if canceled then canceledState else res)
  | inr err => if canceled then inl canceledState else inr err
  end.

(** [then], [catch] and [finally] share one shape: without a promise the
    call returns a promise rejected at once, whose reason is the second
    component; otherwise the reaction is chained onto the promise. *)
Definition chain (o : nat) (c : Continuation) (w : World) : World * option JVal :=
  match observers w !! o with
  | Some ob =>
      match ActiveQuery.getPromise (activeQuery ob) w with
      | None => (w, Some (mkError "Query has not been executed"))
      | Some x =>
          match executions w !! x with
          | Some ex =>
              match outcome ex with
              | Some res => (defer (React o c res) w, None)
              | None => (updExecution x (ActiveQuery.addReaction (o, c)) w, None)
              end
          | None => (w, None)
          end
      end
  | None => (w, None)
  end.

Definition then_ (o k : nat) (w : World) : World * option JVal := chain o (OnThen k) w.

(** [return this.then(null, onrejected)] behind the same guard *)
Definition catch (o k : nat) (w : World) : World * option JVal := chain o (OnCatch k) w.

(** [return this.then(res => res.data, err => { throw err }).finally(onfinally)]
    behind the same guard *)
Definition finally (o k : nat) (w : World) : World * option JVal := chain o (OnFinally k) w.

Definition getQueryId (o : nat) (w : World) : option nat :=
  activeQuery <$> observers w !! o.

Definition getObserverCallbackCount (o : nat) (w : World) : nat :=
  match observers w !! o with
  | Some ob => (length (wrappedCompleteCallbacks ob) + length (wrappedErrorCallbacks ob))%nat
  | None => 0%nat
  end.

Definition getActiveQueryCallbackCount (o : nat) (w : World) : nat :=
  match observers w !! o with
  | Some ob => ActiveQuery.getCallbackCount (activeQuery ob) w
  | None => 0%nat
  end.

End QueryObserver.

(** Standalone [useFetch] of [Query.ts]: never deduplicated. *)
Definition useFetch (e : EndpointArg) (c : QueryConfig) (w : World) : World * nat :=
  let r := ActiveQuery.new (actualEndpoint e) c w in
  QueryObserver.new r.2 r.1.

(** ** The event loop *)

(** What a reaction registered by [chain] does once the promise of the
    operation is fulfilled with [res]. *)
Definition react (o : nat) (c : Continuation) (res : QueryResult) (w : World) : World :=
  match observers w !! o with
  | Some ob =>
      match QueryObserver.intercept (isObserverCanceled ob) (inl res), c with
      | inl v, OnThen k => emit [Surfaced k v] w
      | inl v, OnCatch k => emit [Surfaced k v] w
      | inl v, OnFinally k => emit [Finalized k (data v)] w
      | inr _, _ => w
      end
  | None => w
  end.

Definition runTask (t : Task) (w : World) : World :=
  match t with
  | DeliverCurrent cb a =>
      match queries w !! a with
      | Some q => callComplete cb (resultState q) w
      | None => w
      end
  | DeliverError cb err => callError cb err w
  | DeliverState tag state => emit [CalledComplete tag state] w
  | DeliverStateError tag err => emit [CalledError tag err] w
  | DeliverCanceled tags => emit (map (λ tag, CalledComplete tag canceledState) tags) w
  | React o c res => react o c res w
  end.

(** The oldest microtask runs. *)
Definition tick (w : World) : World :=
  match microtasks w with
  | t :: rest => runTask t (setMicrotasks rest w)
  | [] => w
  end.

(** The microtask queue runs until it is empty. *)
Definition drain (w : World) : World :=
  Nat.iter (length (microtasks w)) tick w.

(** ** class EqueryClient *)

Module EqueryClient.

Definition setConfig (c : QueryConfig) (w : World) : World :=
  setClientConfig c w.

Definition updateConfig (partial : QueryConfig) (w : World) : World :=
  let old := clientConfig w in
  setClientConfig
    {| enabled := spread (enabled old) (enabled partial);
       baseUrl := spread (baseUrl old) (baseUrl partial);
       queryKey := spread (queryKey old) (queryKey partial);
       method := spread (method old) (method partial);
       headers := Given (mergeHeaders (headers old) (headers partial));
       body := spread (body old) (body partial);
       timeout := spread (timeout old) (timeout partial) |} w.

Section Serializer.

(** The platform's [JSON.stringify], with [undefined] results read as
    the empty string (both are falsy). *)
Variable JSON_stringify : JVal → string.

(** [mergedConfig.body ? JSON.stringify(mergedConfig.body) : ""] *)
Definition bodyStr (merged : QueryConfig) : string :=
  match body merged with
  | Given v => if truthy v then JSON_stringify v else ""
  | _ => ""
  end.

(** The key of the third rule:
    [`${method}:${finalEndpoint}${bodyStr ? `:${bodyStr}` : ""}`] *)
Definition requestKey (merged : QueryConfig) (url : string) : string :=
  strOr (method merged) "GET" +:+ ":" +:+ url
    +:+ (if String.eqb (bodyStr merged) "" then "" else ":" +:+ bodyStr merged).

(** The deduplication logic: [cacheKey], [None] for [null]. *)
Definition cacheKey (merged : QueryConfig) (defKey : Field string) (final : Endpoint)
  : option string :=
  if strTruthy (queryKey merged) then Some (strOr (queryKey merged) "")
  else if strTruthy defKey then Some (strOr defKey "")
  else
    match final with
    | Url url => Some (requestKey merged url)
    | Fn _ => None
    end.

(** The key [useFetch] derives for a call. *)
Definition keyOf (e : EndpointArg) (c : QueryConfig) (w : World) : option string :=
  let merged := mergeConfig (clientConfig w) c in
  cacheKey merged (definitionKey e) (finalEndpoint merged (actualEndpoint e)).

Definition useFetch (e : EndpointArg) (c : QueryConfig) (w : World) : World * nat :=
  let merged := mergeConfig (clientConfig w) c in
  let final := finalEndpoint merged (actualEndpoint e) in
  let key := cacheKey merged (definitionKey e) final in
  match key ≫= (λ k, activeQueries w !! k) with
  | Some existingQuery => QueryObserver.new existingQuery w
  | None =>
      let r := ActiveQuery.new final merged w in
      let a := r.2 in
      let w :=
        match key with
        | Some k =>
            if enabledNotFalse merged
            then
              ActiveQuery.onComplete a (EvictKey k)
                (setActiveQueries (<[k := a]> (activeQueries r.1)) r.1)
            else updQuery a (withLazyKey (Some k)) r.1
        | None => r.1
        end in
      QueryObserver.new a w
  end.

End Serializer.

End EqueryClient.

(** ** Programs *)

(** One step of a run of the system: a call a consumer makes, or something
    the environment does (the awaited work settles, a timer expires, the
    event loop runs a microtask). *)
Inductive Action : Type :=
  | CallUseFetch (e : EndpointArg) (c : QueryConfig)
  | CallStandaloneUseFetch (e : EndpointArg) (c : QueryConfig)
  | CallSetConfig (c : QueryConfig)
  | CallUpdateConfig (c : QueryConfig)
  | CallExecute (o : nat)
  | CallOnComplete (o tag : nat)
  | CallOnError (o tag : nat)
  | CallCancel (o : nat)
  | CallThen (o k : nat)
  | CallCatch (o k : nat)
  | CallFinally (o k : nat)
  | Settles (x : nat) (out : Outcome)
  | Responds (x : nat) (ok : bool) (status : Z) (json : Outcome)
  | TimerFires (x : nat)
  | Microtask
  | Turns (e : Endpoint) (thrown : option JVal).
      (** from now on a call of the unit of work [e] throws [thrown], or
          returns when there is nothing to throw *)

Definition step (JSON_stringify : JVal → string) (w : World) (act : Action) : World :=
  match act with
  | CallUseFetch e c => (EqueryClient.useFetch JSON_stringify e c w).1
  | CallStandaloneUseFetch e c => (useFetch e c w).1
  | CallSetConfig c => EqueryClient.setConfig c w
  | CallUpdateConfig c => EqueryClient.updateConfig c w
  | CallExecute o => QueryObserver.execute o w
  | CallOnComplete o tag => QueryObserver.onComplete o tag w
  | CallOnError o tag => QueryObserver.onError o tag w
  | CallCancel o => QueryObserver.cancel o w
  | CallThen o k => (QueryObserver.then_ o k w).1
  | CallCatch o k => (QueryObserver.catch o k w).1
  | CallFinally o k => (QueryObserver.finally o k w).1
  | Settles x out => ActiveQuery.resume x out w
  | Responds x ok status json => ActiveQuery.resume x (responseOutcome ok status json) w
  | TimerFires x => ActiveQuery.timerFires x w
  | Microtask => tick w
  | Turns e thrown =>
      setThrowing (λ e', if decide (e' = e) then thrown else throwing w e') w
  end.

Definition run (JSON_stringify : JVal → string) (w : World) (acts : list Action) : World :=
  foldl (step JSON_stringify) w acts.

(** The states a program can reach from a fresh client. *)
Definition reachable (JSON_stringify : JVal → string) (w : World) : Prop :=
  ∃ (c : QueryConfig) (acts : list Action), w = run JSON_stringify (newWorld c) acts.

(** ** Reading a trace *)

Definition isInvoked (a : nat) (e : Event) : bool :=
  match e with
  | Invoked a' => Nat.eqb a a'
  | _ => false
  end.

(** How often the unit of work of operation [a] was called. *)
Definition invocations (a : nat) (t : list Event) : nat :=
  length (filter (λ e, isInvoked a e = true) t).

Definition isAnyInvoked (e : Event) : bool :=
  match e with
  | Invoked _ => true
  | _ => false
  end.

(** How often any unit of work was called. *)
Definition allInvocations (t : list Event) : nat :=
  length (filter (λ e, isAnyInvoked e = true) t).

(** The results the completion callback [tag] was called with, in order. *)
Fixpoint deliveries (tag : nat) (t : list Event) : list QueryResult :=
  match t with
  | [] => []
  | CalledComplete tag' r :: rest =>
      if Nat.eqb tag tag' then r :: deliveries tag rest else deliveries tag rest
  | _ :: rest => deliveries tag rest
  end.

(** The errors the error callback [tag] was called with, in order. *)
Fixpoint errorDeliveries (tag : nat) (t : list Event) : list JVal :=
  match t with
  | [] => []
  | CalledError tag' err :: rest =>
      if Nat.eqb tag tag' then err :: errorDeliveries tag rest else errorDeliveries tag rest
  | _ :: rest => errorDeliveries tag rest
  end.

(** A plain serializer for running examples: the model never looks inside
    [JSON.stringify], so any injective enough choice will do. *)
Definition demoStringify (v : JVal) : string :=
  match v with
  | JStr s => String (ascii_of_nat 34) s +:+ String (ascii_of_nat 34) EmptyString
  | JNum n => pretty n
  | JBool true => "true"
  | JBool false => "false"
  | JNull => "null"
  | JUndefined => ""
  | JObj [] => "{}"
  | JObj _ => "{...}"
  end.

(** ** What a fan-out shows *)

(** The calls of user callbacks a completion callback makes, given the
    observers as they stand. *)
Definition completeEvents (obs : list QueryObserver) (res : QueryResult) (cb : CompleteCb)
  : list Event :=
  match cb with
  | UserComplete tag => [CalledComplete tag res]
  | RelayComplete o =>
      match obs !! o with
      | Some ob =>
          if isObserverCanceled ob then []
          else map (λ tag, CalledComplete tag res) (wrappedCompleteCallbacks ob)
      | None => []
      end
  | EvictKey _ => []
  end.

(** The calls of user callbacks an error callback makes. *)
Definition errorEvents (obs : list QueryObserver) (err : JVal) (cb : ErrorCb) : list Event :=
  match cb with
  | UserError tag => [CalledError tag err]
  | RelayError o =>
      match obs !! o with
      | Some ob =>
          if isObserverCanceled ob then []
          else map (λ tag, CalledError tag err) (wrappedErrorCallbacks ob)
      | None => []
      end
  end.

(** What a completion callback does to the registry. *)
Definition evict (m : gmap string nat) (cb : CompleteCb) : gmap string nat :=
  match cb with
  | EvictKey key => delete key m
  | _ => m
  end.

Definition isCompleteEvent (e : Event) : bool :=
  match e with
  | CalledComplete _ _ => true
  | _ => false
  end.

Definition isErrorEvent (e : Event) : bool :=
  match e with
  | CalledError _ _ => true
  | _ => false
  end.

(** ** The failure classes, in the words of the specification *)

Inductive FailureClass : Type :=
  | TimedOut (timeoutErr : JVal)
  | CancellationShaped
  | PlainFailure (raised : JVal).

(** Priority order: the timed-out flag first, then a cancellation-shaped
    failure (an abort-kind error, or the token triggered), then the rest. *)
Definition classifyFailure (timedOutFlag : option JVal) (abortKind tokenTriggered : bool)
    (raised : JVal) : FailureClass :=
  match timedOutFlag with
  | Some te => TimedOut te
  | None =>
      if abortKind || tokenTriggered then CancellationShaped else PlainFailure raised
  end.

(** The snapshot each class asks for, from the snapshot [r] the failing
    execution started with. *)
Definition failureResult (c : FailureClass) (r : QueryResult) : QueryResult :=
  match c with
  | TimedOut te =>
      {| data := data r; error := te; isSuccess := isSuccess r; isError := true;
         isCanceled := isCanceled r; isLoading := false |}
  | CancellationShaped =>
      {| data := data r; error := error r; isSuccess := isSuccess r; isError := isError r;
         isCanceled := true; isLoading := false |}
  | PlainFailure raised =>
      {| data := data r; error := raised; isSuccess := isSuccess r; isError := true;
         isCanceled := isCanceled r; isLoading := false |}
  end.

(** The value error listeners are called with, if they are called. *)
Definition failureError (c : FailureClass) : option JVal :=
  match c with
  | TimedOut te => Some te
  | CancellationShaped => None
  | PlainFailure raised => Some raised
  end.

(** ** Objects as their constructors leave them *)

(** An enabled operation once its constructor has run: the first execution
    is in flight. *)
Definition freshQuery (e : Endpoint) (c : QueryConfig) (ctrl run : nat) : ActiveQuery :=
  {| endpoint := e; config := c;
     resultState := withCanceled false (withLoading true initialResult);
     completeCallbacks := []; errorCallbacks := [];
     abortController := Some ctrl; promise := Some run; refCount := 0; lazyKey := None |}.

(** A manual operation once its constructor has run: nothing has started. *)
Definition idleQuery (e : Endpoint) (c : QueryConfig) : ActiveQuery :=
  {| endpoint := e; config := c; resultState := initialResult;
     completeCallbacks := []; errorCallbacks := [];
     abortController := None; promise := None; refCount := 0; lazyKey := None |}.

(** The execution [execute] starts for operation [a] under config [c]. *)
Definition freshRun (a ctrl : nat) (c : QueryConfig) : Execution :=
  {| owner := a; signal := ctrl; timeoutError := mkTimeoutError <$> hasTimeout c;
     didTimeout := false; timerPending := isSomeb (hasTimeout c);
     outcome := None; reactions := [] |}.

(** The stores when [execute] has called the unit of work of operation [a],
    found as [q], and the call has returned: a new controller, a new run in
    flight, the snapshot loading. *)
Definition launched (a : nat) (q : ActiveQuery) (w : World) : World :=
  {| queries :=
       <[a := withRun (length (controllers w)) (length (executions w))
                (withResultState (withCanceled false (withLoading true (resultState q))) q)]>
         (queries w);
     observers := observers w;
     controllers := controllers w ++ [false];
     executions := executions w ++ [freshRun a (length (controllers w)) (config q)];
     clientConfig := clientConfig w;
     activeQueries := activeQueries w;
     microtasks := microtasks w;
     trace := trace w ++ [Invoked a];
     throwing := throwing w |}.

(** The snapshot the [catch] block leaves when the call of the unit of work
    threw [err] inside [execute], from the snapshot [r0] [execute] found: no
    timer has fired and the controller is new. *)
Definition thrownResult (err : JVal) (r0 : QueryResult) : QueryResult :=
  failureResult (classifyFailure None (isAbortError err) false err)
    (withCanceled false (withLoading true r0)).

(** An enabled operation once its constructor has run, when the call of its
    unit of work threw [err]: it is settled already. *)
Definition thrownQuery (e : Endpoint) (c : QueryConfig) (ctrl run : nat) (err : JVal)
  : ActiveQuery :=
  {| endpoint := e; config := c; resultState := thrownResult err initialResult;
     completeCallbacks := []; errorCallbacks := [];
     abortController := Some ctrl; promise := Some run; refCount := 0; lazyKey := None |}.

(** The run of such an operation: its promise is fulfilled. *)
Definition thrownRun (a ctrl : nat) (c : QueryConfig) (r : QueryResult) : Execution :=
  {| owner := a; signal := ctrl; timeoutError := mkTimeoutError <$> hasTimeout c;
     didTimeout := false; timerPending := false;
     outcome := Some r; reactions := [] |}.

(** A fresh enabled operation with its first observer attached. *)
Definition observedQuery (e : Endpoint) (c : QueryConfig) (ctrl run o : nat) : ActiveQuery :=
  withCallbacks [RelayComplete o] [RelayError o] (withRefCount 1 (freshQuery e c ctrl run)).

Definition freshObserver (a : nat) : QueryObserver :=
  {| activeQuery := a; isObserverCanceled := false;
     wrappedCompleteCallbacks := []; wrappedErrorCallbacks := [] |}.

(** ** Keys *)

Definition mergedOf (c : QueryConfig) (w : World) : QueryConfig :=
  mergeConfig (clientConfig w) c.

Definition finalOf (e : EndpointArg) (c : QueryConfig) (w : World) : Endpoint :=
  finalEndpoint (mergedOf c w) (actualEndpoint e).

(** No [":"] in a method name. *)
Fixpoint noColon (s : string) : bool :=
  match s with
  | EmptyString => true
  | String c rest => negb (Ascii.eqb c ":"%char) && noColon rest
  end.

(** [`:${bodyStr}`] when [bodyStr] is truthy *)
Definition bodySuffix (b : string) : string :=
  if String.eqb b "" then "" else ":" +:+ b.

(** [{ method: m, body: b }] *)
Definition requestWith (m : string) (b : Field JVal) : QueryConfig :=
  {| enabled := Absent; baseUrl := Absent; queryKey := Absent;
     method := Given m; headers := Absent; body := b; timeout := Absent |}.

Definition resourceUrl : string := "https://api.example.com/resource".

(** ** Scenarios *)

(** [calls.map(([e, c]) => client.useFetch(e, c))] *)
Definition obtain (stringify : JVal → string) (calls : list (EndpointArg * QueryConfig))
    (w : World) : World :=
  foldl (λ w ec, (EqueryClient.useFetch stringify ec.1 ec.2 w).1) w calls.

(** Each observer of the list registers its completion callback. *)
Definition subscribe (subs : list (nat * nat)) (w : World) : World :=
  foldl (λ w ot, QueryObserver.onComplete ot.1 ot.2 w) w subs.

(** An observer of [a] with one completion callback. *)
Definition subscribed (a tag : nat) : QueryObserver :=
  {| activeQuery := a; isObserverCanceled := false;
     wrappedCompleteCallbacks := [tag]; wrappedErrorCallbacks := [] |}.

(** ** What the reference counts are about *)

(** What the reference counts are about: per operation its count and
    whether a run is in flight under which controller; per observer the
    operation it wraps and its canceled flag. *)
Definition refs (w : World) : list Z := refCount <$> queries w.

Definition flightOf (q : ActiveQuery) : bool * option nat :=
  (isLoading (resultState q), abortController q).

Definition flights (w : World) : list (bool * option nat) := flightOf <$> queries w.

Definition handleOf (ob : QueryObserver) : nat * bool :=
  (activeQuery ob, isObserverCanceled ob).

Definition handles (w : World) : list (nat * bool) := handleOf <$> observers w.

Definition owners (w : World) : list nat := owner <$> executions w.

(** The observers of [a] that are not canceled. *)
Definition live (a : nat) (hs : list (nat * bool)) : nat :=
  length (filter (λ h, h = (a, false)) hs).

Definition liveObservers (a : nat) (w : World) : nat := live a (handles w).

Definition consistent (rs : list Z) (fs : list (bool * option nat)) (hs : list (nat * bool))
    (nc : nat) (ows : list nat) (reg : gmap string nat) : Prop :=
  length fs = length rs
  ∧ Forall (λ h, (h.1 < length rs)%nat) hs
  ∧ (∀ a rc, rs !! a = Some rc → rc = Z.of_nat (live a hs))
  ∧ (∀ a oc, fs !! a = Some (true, oc) → ∃ c, oc = Some c ∧ (c < nc)%nat)
  ∧ map_Forall (λ _ a, (a < length rs)%nat) reg
  ∧ Forall (λ a, (a < length rs)%nat) ows.

(** The invariant of the reference counts. *)
Definition Inv (w : World) : Prop :=
  consistent (refs w) (flights w) (handles w) (length (controllers w)) (owners w)
    (activeQueries w).

(** [w'] differs from [w] in nothing the invariant reads, except that
    registry entries may have gone. *)
Definition neutral (w w' : World) : Prop :=
  refs w' = refs w ∧ flights w' = flights w ∧ handles w' = handles w
  ∧ length (controllers w') = length (controllers w)
  ∧ owners w' = owners w
  ∧ activeQueries w' ⊆ activeQueries w.

(** ** What the runs are about *)

(** The keys the completion callbacks of an operation will evict. *)
Definition evictions (cbs : list CompleteCb) : list string :=
  omap (λ cb, match cb with EvictKey k => Some k | _ => None end) cbs.

(** Per operation: its snapshot, its current run and the keys it will
    evict.  Per run: its operation, whether its promise is fulfilled and
    whether its timer is pending. *)
Definition runView (q : ActiveQuery) : QueryResult * option nat * list string :=
  (resultState q, promise q, evictions (completeCallbacks q)).

Definition execView (ex : Execution) : nat * bool * bool :=
  (owner ex, isSomeb (outcome ex), timerPending ex).

(** The keys whose eviction waits in the microtask queue: the deliveries
    [ActiveQuery.onComplete] queued for the arrow of [EqueryClient.useFetch]
    on one of the [n] operations there are. *)
Definition pendingEvictions (n : nat) (ts : list Task) : list string :=
  omap (λ t, match t with
             | DeliverCurrent (EvictKey k) a => if decide (a < n)%nat then Some k else None
             | _ => None
             end) ts.

Definition sound (qv : list (QueryResult * option nat * list string))
    (xv : list (nat * bool * bool)) (reg : gmap string nat) (pend : list string) : Prop :=
  (∀ a r p ks, qv !! a = Some (r, p, ks) → isLoading r = true →
     ∃ x t, p = Some x ∧ xv !! x = Some (a, false, t))
  ∧ (∀ x a t, xv !! x = Some (a, false, t) →
       ∃ r ks, qv !! a = Some (r, Some x, ks) ∧ isLoading r = true)
  ∧ (∀ x a f, xv !! x = Some (a, f, true) → f = false)
  ∧ (∀ k a, reg !! k = Some a →
       ∃ r p ks, qv !! a = Some (r, p, ks) ∧ k ∈ ks
                 ∧ (isLoading r = true ∨ k ∈ pend)).

(** The invariant of the runs: an operation is loading exactly while its
    current run is unfulfilled, no other run of it is unfulfilled, a
    pending timer belongs to an unfulfilled run, and a registered operation
    has the eviction of its key on its completion list and is loading, or
    that eviction is queued as a microtask. *)
Definition Runs (w : World) : Prop :=
  sound (runView <$> queries w) (execView <$> executions w) (activeQueries w)
    (pendingEvictions (length (queries w)) (microtasks w)).

(** [w'] differs from [w] in nothing the invariant reads, except that
    registry entries may have gone and microtasks may have been queued. *)
Definition still (w w' : World) : Prop :=
  runView <$> queries w' = runView <$> queries w
  ∧ execView <$> executions w' = execView <$> executions w
  ∧ activeQueries w' ⊆ activeQueries w
  ∧ ∃ ts, microtasks w' = microtasks w ++ ts.

(** ** The async body as a function *)

(** What the [catch] block of the async body receives, if anything, when
    the awaited work settled with [out] and [signal.aborted] is
    [tokenTriggered]: the raised value, or what the check after the await
    throws. *)
Definition caught (ex : Execution) (tokenTriggered : bool) (out : Outcome) : option JVal :=
  match out with
  | Raises err => Some err
  | Fulfils _ =>
      if tokenTriggered then Some (default (mkError "Aborted") (ActiveQuery.timedOut ex))
      else None
  end.

(** The snapshot the body leaves, from the snapshot [r0] it found. *)
Definition bodyResult (ex : Execution) (tokenTriggered : bool) (out : Outcome)
    (r0 : QueryResult) : QueryResult :=
  match caught ex tokenTriggered out, out with
  | Some err, _ =>
      failureResult
        (classifyFailure (ActiveQuery.timedOut ex) (isAbortError err) tokenTriggered err) r0
  | None, Fulfils d => withLoading false (withData d r0)
  | None, Raises _ => r0
  end.

(** The value [notifyError] is called with, if it is called. *)
Definition bodyError (ex : Execution) (tokenTriggered : bool) (out : Outcome) : option JVal :=
  match caught ex tokenTriggered out with
  | Some err =>
      failureError
        (classifyFailure (ActiveQuery.timedOut ex) (isAbortError err) tokenTriggered err)
  | None => None
  end.

(** What a continuation shows when its reaction runs with [r]: the value
    the promise of [then] or [catch] is fulfilled with, or the run of
    [onfinally] and the data the promise of [finally] is fulfilled with. *)
Definition surfaced (c : Continuation) (r : QueryResult) : Event :=
  match c with
  | OnThen k | OnCatch k => Surfaced k r
  | OnFinally k => Finalized k (data r)
  end.

(** The calls of user callbacks and continuations a microtask makes when it
    runs, given the operations and the observers as they stand. *)
Definition taskEvents (qs : list ActiveQuery) (obs : list QueryObserver) (t : Task)
  : list Event :=
  match t with
  | DeliverCurrent cb a =>
      match qs !! a with
      | Some q => completeEvents obs (resultState q) cb
      | None => []
      end
  | DeliverError cb err => errorEvents obs err cb
  | DeliverState tag state => [CalledComplete tag state]
  | DeliverStateError tag err => [CalledError tag err]
  | DeliverCanceled tags => map (λ tag, CalledComplete tag canceledState) tags
  | React o c res =>
      match obs !! o with
      | Some ob => [surfaced c (if isObserverCanceled ob then canceledState else res)]
      | None => []
      end
  end.

(** ** The request of a string endpoint *)

Fixpoint endsWithSlash (s : string) : bool :=
  match s with
  | EmptyString => false
  | String c EmptyString => Ascii.eqb c "/"%char
  | String _ rest => endsWithSlash rest
  end.

Definition startsWithSlash (s : string) : bool :=
  match s with
  | String c _ => Ascii.eqb c "/"%char
  | EmptyString => false
  end.

(** Truthiness of [headers[name]]. *)
Definition headerTruthy (v : option string) : bool :=
  match v with
  | Some s => negb (String.eqb s "")
  | None => false
  end.

(** The second argument of [fetchImpl(this.endpoint, {...})], without the
    signal. *)
Record FetchInit : Type := {
  initMethod : string;
  initHeaders : gmap string string;
  initBody : option string;       (** [None] for [undefined] *)
}.

(** The string-endpoint path of the async body, up to the call of
    [fetchImpl]: the headers of the config are copied, a JSON content type
    is added when there is a truthy body and no truthy ["Content-Type"], the
    method defaults to GET and a truthy body is serialized. *)
Definition fetchInit (JSON_stringify : JVal → string) (c : QueryConfig) : FetchInit :=
  let hs := headersOf (headers c) in
  {| initMethod := strOr (method c) "GET";
     initHeaders :=
       if bodyTruthy (body c) && negb (headerTruthy (hs !! "Content-Type"))
       then <["Content-Type" := "application/json"]> hs
       else hs;
     initBody :=
       match body c with
       | Given v => if truthy v then Some (JSON_stringify v) else None
       | _ => None
       end |}.

(** What the unit of work of an operation is called with: nothing the
    model looks at for a callable, the URL and the init object for a string
    endpoint. *)
Definition requestOf (JSON_stringify : JVal → string) (q : ActiveQuery)
  : option (string * FetchInit) :=
  match endpoint q with
  | Url u => Some (u, fetchInit JSON_stringify (config q))
  | Fn _ => None
  end.

(** * The tRPC adapter ([src/adapters/trpc.ts]) *)

(** The inputs of a procedure the adapter serializes: [undefined], [null],
    strings, numbers (integers here), booleans, bigints, dates (held as
    their [toISOString()]), sets, arrays and plain objects (the list of
    their own enumerable properties, in insertion order, keys distinct).
    [Map] inputs, which the source orders with [localeCompare], are not
    covered. *)
#[warnings="-register-all"]
Inductive Input : Type :=
  | IUndefined
  | INull
  | IStr (s : string)
  | INum (n : Z)
  | IBool (b : bool)
  | IBigInt (n : Z)
  | IDate (iso : string)
  | ISet (members : list Input)
  | IArr (items : list Input)
  | IObj (props : list (string * Input)).

(** [x <= y] in the order of [Array.prototype.sort()] without a comparator
    on strings: by code units, a proper prefix first. *)
Definition strLe (a b : string) : Prop := String.leb a b = true.

#[global] Instance strLe_dec (a b : string) : Decision (strLe a b) :=
  decide (String.leb a b = true).

(** [strings.sort()] *)
Definition sortStrings (l : list string) : list string := merge_sort strLe l.

(** [strings.join(sep)] *)
Fixpoint join (sep : string) (l : list string) : string :=
  match l with
  | [] => ""
  | [x] => x
  | x :: rest => x +:+ sep +:+ join sep rest
  end.

(** [value[k]] on rendered properties: the serialization under key [k],
    [""] (what [stableStringify(undefined)] gives) when there is none. *)
Fixpoint rendered (k : string) (props : list (string * string)) : string :=
  match props with
  | [] => ""
  | (k', s) :: rest => if String.eqb k k' then s else rendered k rest
  end.

(** Property read on an object. *)
Fixpoint field (k : string) (props : list (string * Input)) : option Input :=
  match props with
  | [] => None
  | (k', v) :: rest => if String.eqb k k' then Some v else field k rest
  end.

Section StableStringify.

(** [JSON.stringify] on a string and [String] on a number. *)
Variable JSON_stringify_string : string → string.
Variable String_of_number : Z → string.

(** [JSON.stringify] on an array of strings. *)
Definition jsonStrings (l : list string) : string :=
  "[" +:+ join "," (map JSON_stringify_string l) +:+ "]".

(** [stableStringify]; in the object case the values are serialized
    before the keys are sorted, which gives the same pairs as the lookup
    [value[k]] of the source under each sorted key. *)
Fixpoint stableStringify (v : Input) : string :=
  match v with
  | IUndefined => ""
  | INull => "null"
  | IStr s => JSON_stringify_string s
  | INum n => String_of_number n
  | IBool b => if b then "true" else "false"
  | IBigInt n => pretty n +:+ "n"
  | IDate iso => "Date(" +:+ iso +:+ ")"
  | ISet members =>
      "Set(" +:+ jsonStrings (sortStrings (map stableStringify members)) +:+ ")"
  | IArr items => "[" +:+ join "," (map stableStringify items) +:+ "]"
  | IObj props =>
      let values := map (λ kv, match kv with (k, x) => (k, stableStringify x) end) props in
      let keys := sortStrings (map fst props) in
      "{" +:+ join ","
                (map (λ k, JSON_stringify_string k +:+ ":" +:+ rendered k values) keys)
          +:+ "}"
  end.

(** [serializeInput] *)
Definition serializeInput (input : Input) : string :=
  match input with
  | IUndefined => ""
  | _ => stableStringify input
  end.

(** [[...currentPath, serializeInput(input)].filter(Boolean).join(".")] *)
Definition adapterKey (path : list string) (input : Input) : string :=
  join "." (filter (λ s, s ≠ "") (path ++ [serializeInput input])).

(** What a call [adapter.a.b.proc(input)] returns: [{ key, fn }], where
    [fn] calls the procedure [target] with the arguments of the call. *)
Definition adapterCall (path : list string) (input : Input) (target : nat) : EndpointArg :=
  Keyed (adapterKey path input) target.

End StableStringify.

(** Plain choices for running examples. *)
Definition demoQuote (s : string) : string :=
  String (ascii_of_nat 34) s +:+ String (ascii_of_nat 34) EmptyString.

(** ** Example programs *)

Definition withTimeout (ms : Z) : QueryConfig :=
  {| enabled := Absent; baseUrl := Absent; queryKey := Absent;
     method := Absent; headers := Absent; body := Absent; timeout := Given ms |}.

(** [{ enabled: false }] *)
Definition manual : QueryConfig :=
  {| enabled := Given false; baseUrl := Absent; queryKey := Absent;
     method := Absent; headers := Absent; body := Absent; timeout := Absent |}.

(** What an aborted [fetch] rejects with. *)
Definition abortError : JVal :=
  JObj [("name", JStr "AbortError"); ("message", JStr "Aborted")].

(** [useFetch(url, { timeout: 10 })] with one completion and one error
    callback, at the moment the 10 ms timer has fired. *)
Definition slowWorld : World :=
  run demoStringify (newWorld emptyConfig)
    [CallStandaloneUseFetch (Plain (Url "https://api.example.com/slow")) (withTimeout 10);
     CallOnComplete 0 7; CallOnError 0 8; TimerFires 0].

Definition slowRun : Execution :=
  Eval vm_compute in default (freshRun 0 0 emptyConfig) (executions slowWorld !! 0%nat).

Definition slowQuery : ActiveQuery :=
  Eval vm_compute in default (idleQuery (Fn 0) emptyConfig) (queries slowWorld !! 0%nat).

(** The controllers after [removeRef] on an operation that was [q]: the
    token is triggered when the count reaches zero or less while loading. *)
Definition afterRemoveRef (q : ActiveQuery) (cs : list bool) : list bool :=
  if (refCount q - 1 <=? 0) && isLoading (resultState q)
  then match abortController q with
       | Some c => <[c := true]> cs
       | None => cs
       end
  else cs.

(** Dereferencing in an example world. *)
Definition queryAt (w : World) (a : nat) : ActiveQuery :=
  default (idleQuery (Fn 0) emptyConfig) (queries w !! a).

Definition runAt (w : World) (x : nat) : Execution :=
  default (freshRun 0 0 emptyConfig) (executions w !! x).

Definition observerAt (w : World) (o : nat) : QueryObserver :=
  default (freshObserver 0) (observers w !! o).

(** [useFetch(fetcher)] with one completion and one error callback. *)
Definition listeningWorld : World :=
  run demoStringify (newWorld emptyConfig)
    [CallStandaloneUseFetch (Plain (Fn 0)) emptyConfig;
     CallOnComplete 0 7; CallOnError 0 8].


(** [useFetch(fetcher)], settled with a value. *)
Definition settledWorld : World :=
  run demoStringify (newWorld emptyConfig)
    [CallStandaloneUseFetch (Plain (Fn 0)) emptyConfig; Settles 0 (Fulfils (JStr "data"))].

(** [const q = useFetch(fetcher); await q; q.execute(); q.then(k)]: the
    operation is executed a second time after it has succeeded. *)
Definition reexecutedWorld : World :=
  run demoStringify (newWorld emptyConfig)
    [CallStandaloneUseFetch (Plain (Fn 0)) emptyConfig; Settles 0 (Fulfils (JStr "first"));
     CallExecute 0; CallThen 0 3].

(** Two manual observers of one URL, created before either is executed,
    then both executed. *)
Definition manualUrl : string := "https://api.example.com/double-manual-dedup".

Definition twoManualWorld : World :=
  run demoStringify (newWorld emptyConfig)
    [CallUseFetch (Plain (Url manualUrl)) manual; CallUseFetch (Plain (Url manualUrl)) manual;
     CallExecute 0; CallExecute 1].


(** Three calls of one keyed definition, as in the tests. *)
Definition sharedCall : EndpointArg * QueryConfig := (Keyed "mem-leak-test" 0, emptyConfig).

(** Three observers of one request in flight. *)
Definition sharedWorld : World :=
  run demoStringify (newWorld emptyConfig)
    [CallUseFetch (Plain (Url "/users")) emptyConfig;
     CallUseFetch (Plain (Url "/users")) emptyConfig;
     CallUseFetch (Plain (Url "/users")) emptyConfig].

(** One observer of a request with a timeout, in flight. *)
Definition waitingWorld : World :=
  run demoStringify (newWorld emptyConfig)
    [CallStandaloneUseFetch (Plain (Url "https://api.example.com/slow")) (withTimeout 10)].

(** The request of [waitingWorld], answered before its 10 ms have passed. *)
Definition answeredWorld : World :=
  run demoStringify (newWorld emptyConfig)
    [CallStandaloneUseFetch (Plain (Url "https://api.example.com/slow")) (withTimeout 10);
     Responds 0 true 200 (Fulfils (JStr "in time"))].

(** [client.useFetch({ key: "users", fn })] where the call of [fn] throws:
    the procedure rejects its input before it returns a promise. *)
Definition thrownWorld : World :=
  run demoStringify (newWorld emptyConfig)
    [Turns (Fn 0) (Some (mkError "bad input")); CallUseFetch (Keyed "users" 0) emptyConfig].

(** A fresh client, and a procedure that rejects its input before it
    returns a promise: from now on the call of [fn] throws. *)
Definition rejectingWorld : World :=
  run demoStringify (newWorld emptyConfig) [Turns (Fn 0) (Some (mkError "bad input"))].

(** * Properties *)

(** ** Records and stores *)

Lemma emit_nil w : emit [] w = w.
Proof. destruct w; unfold emit, setTrace; simpl. by rewrite app_nil_r. Qed.

Lemma emit_emit es1 es2 w : emit es2 (emit es1 w) = emit (es1 ++ es2) w.
Proof. unfold emit, setTrace; simpl. by rewrite app_assoc. Qed.

Lemma setActiveQueries_id w : setActiveQueries (activeQueries w) w = w.
Proof. by destruct w. Qed.

Lemma lookup_snoc_length {A} (l : list A) (x : A) : (l ++ [x]) !! length l = Some x.
Proof. by apply list_lookup_middle. Qed.

Lemma alter_snoc_length {A} (f : A → A) (l : list A) (x : A) :
  alter f (length l) (l ++ [x]) = l ++ [f x].
Proof.
  replace (length l) with (length l + 0)%nat by lia.
  by rewrite alter_app_r.
Qed.

Lemma alter_lookup_Some {A} (f : A → A) (l : list A) (i : nat) (x : A) :
  l !! i = Some x → alter f i l = <[i := f x]> l.
Proof.
  revert i; induction l as [|y l IH]; intros [|i] H; simplify_eq/=; try done.
  f_equal. by apply IH.
Qed.

(** ** Fan-out *)

Lemma callError_emit cb err w :
  callError cb err w = emit (errorEvents (observers w) err cb) w.
Proof.
  destruct cb as [tag|o]; simpl; [done|].
  destruct (observers w !! o) as [ob|]; [|by rewrite emit_nil].
  destruct (isObserverCanceled ob); [by rewrite emit_nil|done].
Qed.

Lemma foldl_callError err cbs w :
  foldl (λ w cb, callError cb err w) w cbs
  = emit (cbs ≫= errorEvents (observers w) err) w.
Proof.
  revert w; induction cbs as [|cb cbs IH]; intros w; simpl.
  - by rewrite emit_nil.
  - rewrite IH, callError_emit, emit_emit. done.
Qed.

Lemma callComplete_emit cb res w :
  callComplete cb res w
  = setActiveQueries (evict (activeQueries w) cb)
      (emit (completeEvents (observers w) res cb) w).
Proof.
  destruct cb as [tag|o|key]; simpl.
  - by destruct w.
  - destruct (observers w !! o) as [ob|].
    + destruct (isObserverCanceled ob); [|by destruct w].
      destruct w; unfold emit, setTrace, setActiveQueries; simpl. by rewrite app_nil_r.
    + destruct w; unfold emit, setTrace, setActiveQueries; simpl. by rewrite app_nil_r.
  - destruct w; unfold emit, setTrace, setActiveQueries; simpl. by rewrite app_nil_r.
Qed.

Lemma foldl_callComplete res cbs w :
  foldl (λ w cb, callComplete cb res w) w cbs
  = setActiveQueries (foldl evict (activeQueries w) cbs)
      (emit (cbs ≫= completeEvents (observers w) res) w).
Proof.
  revert w; induction cbs as [|cb cbs IH]; intros w; simpl.
  - by rewrite emit_nil, setActiveQueries_id.
  - rewrite IH, callComplete_emit. simpl.
    destruct w; unfold emit, setTrace, setActiveQueries; simpl. by rewrite app_assoc.
Qed.

(** ** Normal forms of store updates *)

Lemma updQuery_lookup a f w q :
  queries w !! a = Some q → updQuery a f w = setQueries (<[a := f q]> (queries w)) w.
Proof. intros H. unfold updQuery. by rewrite (alter_lookup_Some _ _ _ _ H). Qed.

Lemma updExecution_lookup x f w ex :
  executions w !! x = Some ex →
  updExecution x f w = setExecutions (<[x := f ex]> (executions w)) w.
Proof. intros H. unfold updExecution. by rewrite (alter_lookup_Some _ _ _ _ H). Qed.

Lemma updObserver_lookup o f w ob :
  observers w !! o = Some ob →
  updObserver o f w = setObservers (<[o := f ob]> (observers w)) w.
Proof. intros H. unfold updObserver. by rewrite (alter_lookup_Some _ _ _ _ H). Qed.

Lemma insert_snoc_length {A} (l : list A) (x y : A) :
  <[length l := y]> (l ++ [x]) = l ++ [y].
Proof.
  replace (length l) with (length l + 0)%nat by lia.
  by rewrite insert_app_r.
Qed.

Lemma lookup_snoc_old {A} (l : list A) (x y : A) (i : nat) :
  l !! i = Some y → (l ++ [x]) !! i = Some y.
Proof. apply lookup_app_l_Some. Qed.

Lemma insert_snoc_old {A} (l : list A) (x y z : A) (i : nat) :
  l !! i = Some z → <[i := y]> (l ++ [x]) = <[i := y]> l ++ [x].
Proof. intros H. apply insert_app_l. by eapply lookup_lt_Some. Qed.

(** Projections of the stores, and nothing else, are computed. *)
Ltac wsimpl :=
  cbn [queries observers controllers executions clientConfig activeQueries microtasks trace
       throwing setQueries setObservers setControllers setExecutions setClientConfig
       setActiveQueries setMicrotasks setTrace setThrowing emit defer abort
       endpoint config resultState completeCallbacks errorCallbacks abortController
       promise refCount lazyKey withResultState withCallbacks withRun withRefCount withLazyKey
       data error isSuccess isError isCanceled isLoading
       withLoading withCanceled withError withData
       owner signal timeoutError didTimeout timerPending outcome reactions
       ActiveQuery.clearTimer ActiveQuery.markTimedOut ActiveQuery.fulfilWith
       ActiveQuery.addReaction
       activeQuery isObserverCanceled wrappedCompleteCallbacks wrappedErrorCallbacks
       QueryObserver.cancelFlag QueryObserver.withWrapped
       fst snd failureResult failureError classifyFailure isSomeb orb andb negb
       freshQuery idleQuery freshRun observedQuery freshObserver thrownQuery thrownRun].

Ltac lookup_same :=
  match goal with
  | |- context [(?l ++ [?x]) !! ?i] =>
      match i with
      | length ?l' => constr_eq l l'; rewrite (lookup_snoc_length l x)
      end
  | |- context [<[?i := ?y]> (?l ++ [?x])] =>
      match i with
      | length ?l' => constr_eq l l'; rewrite (insert_snoc_length l x y)
      end
  | |- context [<[?i := ?v]> ?l !! ?j] =>
      constr_eq i j;
      rewrite (list_lookup_insert_eq l i v)
        by (rewrite ?length_insert; eapply lookup_lt_Some; eassumption)
  end.

Ltac store_simpl :=
  wsimpl;
  repeat (progress (repeat rewrite list_insert_insert_eq; repeat lookup_same; wsimpl)).

Lemma world_ext (w1 w2 : World) :
  queries w1 = queries w2 → observers w1 = observers w2 →
  controllers w1 = controllers w2 → executions w1 = executions w2 →
  clientConfig w1 = clientConfig w2 → activeQueries w1 = activeQueries w2 →
  microtasks w1 = microtasks w2 → trace w1 = trace w2 →
  throwing w1 = throwing w2 → w1 = w2.
Proof. destruct w1, w2; simpl; intros; by subst. Qed.

(** Two worlds are compared store by store. *)
Ltac world_eq :=
  apply world_ext; unfold updQuery, updObserver, updExecution; wsimpl;
  repeat rewrite list_insert_insert_eq; rewrite <- ?app_assoc; try done.

Ltac by_lookup := store_simpl; first [reflexivity | eassumption].

(** ** Closed forms of the operations of [ActiveQuery] *)

Lemma notifyError_closed a err w q :
  queries w !! a = Some q →
  ActiveQuery.notifyError a err w = emit (errorCallbacks q ≫= errorEvents (observers w) err) w.
Proof. intros H. unfold ActiveQuery.notifyError. rewrite H. apply foldl_callError. Qed.

Lemma notifyComplete_closed a w q :
  queries w !! a = Some q →
  ActiveQuery.notifyComplete a w =
  setQueries (<[a := withCallbacks [] [] q]> (queries w))
    (setActiveQueries (foldl evict (activeQueries w) (completeCallbacks q))
      (emit (completeCallbacks q ≫= completeEvents (observers w) (resultState q)) w)).
Proof.
  intros H. unfold ActiveQuery.notifyComplete. rewrite H.
  rewrite foldl_callComplete. by rewrite (updQuery_lookup _ _ _ q).
Qed.

(** The [catch] block, all at once: the class of the failure decides the
    snapshot, error listeners come before completion listeners, both lists
    are emptied, the promise is fulfilled. *)
Lemma onCatch_closed x err w ex q :
  executions w !! x = Some ex → queries w !! owner ex = Some q →
  let a := owner ex in
  let cls :=
    classifyFailure (ActiveQuery.timedOut ex) (isAbortError err) (aborted (signal ex) w) err in
  let r := failureResult cls (resultState q) in
  let errEvs :=
    match failureError cls with
    | Some e => errorCallbacks q ≫= errorEvents (observers w) e
    | None => []
    end in
  ActiveQuery.onCatch x err w =
    {| queries := <[a := withCallbacks [] [] (withResultState r q)]> (queries w);
       observers := observers w; controllers := controllers w;
       executions := <[x := ActiveQuery.fulfilWith r (ActiveQuery.clearTimer ex)]> (executions w);
       clientConfig := clientConfig w;
       activeQueries := foldl evict (activeQueries w) (completeCallbacks q);
       microtasks := microtasks w ++ map (λ oc, React oc.1 oc.2 r) (reactions ex);
       trace := trace w ++ errEvs ++ (completeCallbacks q ≫= completeEvents (observers w) r);
       throwing := throwing w |}.
Proof.
  intros Hx Hq. cbv zeta. unfold ActiveQuery.onCatch. rewrite Hx.
  rewrite (updExecution_lookup _ _ _ _ Hx).
  rewrite (updQuery_lookup _ _ _ q) by done.
  change (aborted (signal ex) (setQueries ?l (setExecutions ?e w))) with (aborted (signal ex) w).
  destruct (ActiveQuery.timedOut ex) as [te|] eqn:Hto; wsimpl.
  - erewrite updQuery_lookup by by_lookup.
    erewrite notifyError_closed by by_lookup.
    erewrite notifyComplete_closed by by_lookup.
    unfold ActiveQuery.fulfil. store_simpl.
    erewrite updExecution_lookup by by_lookup.
    store_simpl. world_eq.
  - destruct (isAbortError err || aborted (signal ex) w); wsimpl.
    + erewrite updQuery_lookup by by_lookup.
      erewrite notifyComplete_closed by by_lookup.
      unfold ActiveQuery.fulfil. store_simpl.
      erewrite updExecution_lookup by by_lookup.
      store_simpl. world_eq.
    + erewrite updQuery_lookup by by_lookup.
      erewrite notifyError_closed by by_lookup.
      erewrite notifyComplete_closed by by_lookup.
      unfold ActiveQuery.fulfil. store_simpl.
      erewrite updExecution_lookup by by_lookup.
      store_simpl. world_eq.
Qed.

(** The success path of the async body. *)
Lemma resume_success_closed x d w ex q :
  executions w !! x = Some ex → outcome ex = None →
  queries w !! owner ex = Some q → aborted (signal ex) w = false →
  let r := withLoading false (withData d (resultState q)) in
  ActiveQuery.resume x (Fulfils d) w =
    {| queries := <[owner ex := withCallbacks [] [] (withResultState r q)]> (queries w);
       observers := observers w; controllers := controllers w;
       executions := <[x := ActiveQuery.fulfilWith r (ActiveQuery.clearTimer ex)]> (executions w);
       clientConfig := clientConfig w;
       activeQueries := foldl evict (activeQueries w) (completeCallbacks q);
       microtasks := microtasks w ++ map (λ oc, React oc.1 oc.2 r) (reactions ex);
       trace := trace w ++ (completeCallbacks q ≫= completeEvents (observers w) r);
       throwing := throwing w |}.
Proof.
  intros Hx Hout Hq Hab. cbv zeta. unfold ActiveQuery.resume. rewrite Hx, Hout.
  rewrite (updExecution_lookup _ _ _ _ Hx).
  change (aborted (signal ex) (setExecutions ?e w)) with (aborted (signal ex) w).
  rewrite Hab.
  erewrite updQuery_lookup by by_lookup.
  erewrite notifyComplete_closed by by_lookup.
  unfold ActiveQuery.fulfil. store_simpl.
  erewrite updExecution_lookup by by_lookup.
  store_simpl. world_eq.
Qed.

(** A fulfilment that arrives after the token was triggered is a failure. *)
Lemma resume_aborted x d w ex :
  executions w !! x = Some ex → outcome ex = None → aborted (signal ex) w = true →
  ActiveQuery.resume x (Fulfils d) w
  = ActiveQuery.onCatch x (default (mkError "Aborted") (ActiveQuery.timedOut ex))
      (updExecution x ActiveQuery.clearTimer w).
Proof.
  intros Hx Hout Hab. unfold ActiveQuery.resume. rewrite Hx, Hout.
  change (aborted (signal ex) (updExecution x ActiveQuery.clearTimer w))
    with (aborted (signal ex) w).
  by rewrite Hab.
Qed.

Lemma resume_raises x err w ex :
  executions w !! x = Some ex → outcome ex = None →
  ActiveQuery.resume x (Raises err) w = ActiveQuery.onCatch x err w.
Proof. intros Hx Hout. unfold ActiveQuery.resume. by rewrite Hx, Hout. Qed.

Lemma execute_closed a w q :
  queries w !! a = Some q →
  isLoading (resultState q) && isSomeb (promise q) = false →
  throwing w (endpoint q) = None →
  let c := length (controllers w) in
  let x := length (executions w) in
  let t := hasTimeout (config q) in
  ActiveQuery.execute a w =
    {| queries :=
         <[a := withRun c x
                  (withResultState (withCanceled false (withLoading true (resultState q))) q)]>
           (queries w);
       observers := observers w;
       controllers := controllers w ++ [false];
       executions := executions w ++
         [{| owner := a; signal := c; timeoutError := mkTimeoutError <$> t;
             didTimeout := false; timerPending := isSomeb t;
             outcome := None; reactions := [] |}];
       clientConfig := clientConfig w;
       activeQueries := activeQueries w;
       microtasks := microtasks w;
       trace := trace w ++ [Invoked a];
       throwing := throwing w |}.
Proof.
  intros Hq Hidle Hret. cbv zeta. unfold ActiveQuery.execute. rewrite Hq, Hidle.
  change (throwing (emit ?es ?w0) (endpoint q)) with (throwing w (endpoint q)).
  rewrite Hret.
  erewrite updQuery_lookup by by_lookup. world_eq.
Qed.

(** The call of the unit of work throws: the [catch] block runs inside
    [execute], on the run just started. *)
Lemma execute_thrown a w q err :
  queries w !! a = Some q →
  isLoading (resultState q) && isSomeb (promise q) = false →
  throwing w (endpoint q) = Some err →
  ActiveQuery.execute a w
  = ActiveQuery.onCatch (length (executions w)) err (launched a q w).
Proof.
  intros Hq Hidle Hthr. unfold ActiveQuery.execute. rewrite Hq, Hidle.
  change (throwing (emit ?es ?w0) (endpoint q)) with (throwing w (endpoint q)).
  rewrite Hthr.
  erewrite updQuery_lookup by by_lookup. done.
Qed.

Lemma execute_launched a w q :
  queries w !! a = Some q →
  isLoading (resultState q) && isSomeb (promise q) = false →
  throwing w (endpoint q) = None →
  ActiveQuery.execute a w = launched a q w.
Proof. intros Hq Hidle Hret. by rewrite (execute_closed a w q Hq Hidle Hret). Qed.

Lemma launched_run a q w :
  executions (launched a q w) !! length (executions w)
  = Some (freshRun a (length (controllers w)) (config q)).
Proof. unfold launched. wsimpl. apply lookup_snoc_length. Qed.

Lemma launched_query a q w :
  queries w !! a = Some q →
  queries (launched a q w) !! a
  = Some (withRun (length (controllers w)) (length (executions w))
            (withResultState (withCanceled false (withLoading true (resultState q))) q)).
Proof.
  intros Hq. unfold launched. wsimpl. apply list_lookup_insert_eq. by eapply lookup_lt_Some.
Qed.

(** [execute] on an operation that is not busy: the unit of work is called,
    and either the run is left in flight, or the call threw and the run is
    settled as by a rejection of what it would have awaited. *)
Lemma execute_split a w q :
  queries w !! a = Some q →
  isLoading (resultState q) && isSomeb (promise q) = false →
  (throwing w (endpoint q) = None ∧ ActiveQuery.execute a w = launched a q w)
  ∨ ∃ err, throwing w (endpoint q) = Some err
           ∧ ActiveQuery.execute a w
             = ActiveQuery.resume (length (executions w)) (Raises err) (launched a q w).
Proof.
  intros Hq Hidle. destruct (throwing w (endpoint q)) as [err|] eqn:Hthr.
  - right. exists err. split; [done|].
    rewrite (execute_thrown a w q err Hq Hidle Hthr).
    symmetry. eapply resume_raises; [apply launched_run|done].
  - left. split; [done|]. by apply execute_launched.
Qed.

Lemma execute_in_flight a w q :
  queries w !! a = Some q →
  isLoading (resultState q) && isSomeb (promise q) = true →
  ActiveQuery.execute a w = w.
Proof. intros Hq Hbusy. unfold ActiveQuery.execute. by rewrite Hq, Hbusy. Qed.

Lemma onComplete_closed a cb w q :
  queries w !! a = Some q →
  ActiveQuery.onComplete a cb w =
    setMicrotasks
      (microtasks w ++ (if isSettled (resultState q) then [DeliverCurrent cb a] else []))
      (setQueries
         (<[a := withCallbacks (completeCallbacks q ++ [cb]) (errorCallbacks q) q]> (queries w))
         w).
Proof.
  intros Hq. unfold ActiveQuery.onComplete.
  erewrite updQuery_lookup by by_lookup. store_simpl.
  destruct (isSettled (resultState q)); world_eq.
  by rewrite app_nil_r.
Qed.

Lemma onError_closed a cb w q :
  queries w !! a = Some q →
  ActiveQuery.onError a cb w =
    setMicrotasks
      (microtasks w ++
         (if hasDeliverableError (resultState q)
          then [DeliverError cb (error (resultState q))] else []))
      (setQueries
         (<[a := withCallbacks (completeCallbacks q) (errorCallbacks q ++ [cb]) q]> (queries w))
         w).
Proof.
  intros Hq. unfold ActiveQuery.onError.
  erewrite updQuery_lookup by by_lookup. store_simpl.
  destruct (hasDeliverableError (resultState q)); world_eq.
  by rewrite app_nil_r.
Qed.

(** ** Constructors and the timer *)

Lemma observer_new_closed a w q :
  queries w !! a = Some q →
  let o := length (observers w) in
  let r := resultState q in
  QueryObserver.new a w =
    ({| queries :=
          <[a := withCallbacks (completeCallbacks q ++ [RelayComplete o])
                   (errorCallbacks q ++ [RelayError o])
                   (withRefCount (refCount q + 1) q)]> (queries w);
        observers := observers w ++
          [{| activeQuery := a; isObserverCanceled := false;
              wrappedCompleteCallbacks := []; wrappedErrorCallbacks := [] |}];
        controllers := controllers w;
        executions := executions w;
        clientConfig := clientConfig w;
        activeQueries := activeQueries w;
        microtasks := microtasks w
          ++ (if isSettled r then [DeliverCurrent (RelayComplete o) a] else [])
          ++ (if hasDeliverableError r then [DeliverError (RelayError o) (error r)] else []);
        trace := trace w;
        throwing := throwing w |}, o).
Proof.
  intros Hq. cbv zeta. unfold QueryObserver.new, ActiveQuery.addRef.
  erewrite updQuery_lookup by by_lookup.
  erewrite onComplete_closed by by_lookup.
  erewrite onError_closed by by_lookup.
  store_simpl. f_equal. world_eq.
Qed.

Lemma new_enabled_closed e c w :
  enabledNotFalse c = true → throwing w e = None →
  ActiveQuery.new e c w =
    ({| queries := queries w ++ [freshQuery e c (length (controllers w)) (length (executions w))];
        observers := observers w;
        controllers := controllers w ++ [false];
        executions := executions w ++ [freshRun (length (queries w)) (length (controllers w)) c];
        clientConfig := clientConfig w;
        activeQueries := activeQueries w;
        microtasks := microtasks w;
        trace := trace w ++ [Invoked (length (queries w))];
        throwing := throwing w |}, length (queries w)).
Proof.
  intros He Hret. unfold ActiveQuery.new. rewrite He.
  erewrite execute_closed; [|by_lookup|done|done].
  store_simpl. done.
Qed.

Lemma new_thrown_closed e c w err :
  enabledNotFalse c = true → throwing w e = Some err →
  let r := thrownResult err initialResult in
  ActiveQuery.new e c w =
    ({| queries := queries w ++ [thrownQuery e c (length (controllers w)) (length (executions w)) err];
        observers := observers w;
        controllers := controllers w ++ [false];
        executions := executions w ++ [thrownRun (length (queries w)) (length (controllers w)) c r];
        clientConfig := clientConfig w;
        activeQueries := activeQueries w;
        microtasks := microtasks w;
        trace := trace w ++ [Invoked (length (queries w))];
        throwing := throwing w |}, length (queries w)).
Proof.
  intros He Hthr. cbv zeta. unfold ActiveQuery.new. rewrite He.
  erewrite execute_thrown; [|by_lookup|done|done].
  erewrite onCatch_closed; [ | unfold launched; by_lookup | unfold launched; by_lookup ].
  unfold launched. store_simpl. f_equal.
  unfold aborted. store_simpl. unfold ActiveQuery.timedOut. wsimpl.
  apply world_ext; wsimpl; try done.
  - simpl. by rewrite app_nil_r.
  - destruct (isAbortError err); simpl; by rewrite app_nil_r.
Qed.

Lemma thrownResult_settled err r0 : isSettled (thrownResult err r0) = true.
Proof.
  unfold thrownResult, isSettled, anyTerminalFlag, classifyFailure.
  destruct (isAbortError err || false); wsimpl; by rewrite ?orb_true_r.
Qed.

Lemma new_disabled_closed e c w :
  enabledNotFalse c = false →
  ActiveQuery.new e c w =
    (setQueries (queries w ++ [idleQuery e c]) w, length (queries w)).
Proof. intros He. unfold ActiveQuery.new. by rewrite He. Qed.

Lemma timerFires_closed x w ex q c :
  executions w !! x = Some ex → timerPending ex = true →
  queries w !! owner ex = Some q → abortController q = Some c →
  ActiveQuery.timerFires x w =
    setControllers (<[c := true]> (controllers w))
      (setExecutions (<[x := ActiveQuery.markTimedOut ex]> (executions w)) w).
Proof.
  intros Hx Hp Hq Hc. unfold ActiveQuery.timerFires. rewrite Hx, Hp.
  erewrite updExecution_lookup by by_lookup. store_simpl. rewrite Hq, Hc. done.
Qed.

Lemma useFetch_enabled_closed e c w :
  enabledNotFalse c = true → throwing w (actualEndpoint e) = None →
  useFetch e c w =
    ({| queries := queries w ++
          [observedQuery (actualEndpoint e) c (length (controllers w))
             (length (executions w)) (length (observers w))];
        observers := observers w ++ [freshObserver (length (queries w))];
        controllers := controllers w ++ [false];
        executions := executions w ++ [freshRun (length (queries w)) (length (controllers w)) c];
        clientConfig := clientConfig w;
        activeQueries := activeQueries w;
        microtasks := microtasks w;
        trace := trace w ++ [Invoked (length (queries w))];
        throwing := throwing w |}, length (observers w)).
Proof.
  intros He Hret. unfold useFetch. rewrite (new_enabled_closed _ _ _ He Hret). wsimpl.
  erewrite observer_new_closed by by_lookup. store_simpl.
  f_equal. world_eq. by rewrite !app_nil_r.
Qed.

(** Standalone [useFetch] when the call of the unit of work throws: the
    observer is attached to an operation that has settled, so its relays are
    queued as deliveries, and stay on the lists. *)
Lemma useFetch_thrown_closed e c w err :
  enabledNotFalse c = true → throwing w (actualEndpoint e) = Some err →
  let a := length (queries w) in
  let o := length (observers w) in
  let r := thrownResult err initialResult in
  useFetch e c w =
    ({| queries := queries w ++
          [withCallbacks [RelayComplete o] [RelayError o]
             (withRefCount 1
                (thrownQuery (actualEndpoint e) c (length (controllers w))
                   (length (executions w)) err))];
        observers := observers w ++ [freshObserver a];
        controllers := controllers w ++ [false];
        executions := executions w ++ [thrownRun a (length (controllers w)) c r];
        clientConfig := clientConfig w;
        activeQueries := activeQueries w;
        microtasks := microtasks w
          ++ [DeliverCurrent (RelayComplete o) a]
          ++ (if hasDeliverableError r then [DeliverError (RelayError o) (error r)] else []);
        trace := trace w ++ [Invoked a];
        throwing := throwing w |}, o).
Proof.
  intros He Hthr. cbv zeta. unfold useFetch.
  rewrite (new_thrown_closed _ _ _ err He Hthr). wsimpl.
  erewrite observer_new_closed by by_lookup. store_simpl.
  rewrite !thrownResult_settled.
  f_equal.
Qed.


Lemma append_empty_r (s : string) : s +:+ "" = s.
Proof.
  induction s as [|c s IH]; [done|].
  change (String c (s +:+ "") = String c s). by rewrite IH.
Qed.

Lemma contains_refl (s : string) : contains s s.
Proof. exists "", "". change ("" +:+ s +:+ "") with (s +:+ ""). by rewrite append_empty_r. Qed.

Lemma contains_timeout_message (ms : Z) :
  contains ("timeout of " +:+ pretty ms +:+ "ms exceeded") (messageOf (mkTimeoutError ms)).
Proof. apply contains_refl. Qed.

Lemma timeout_scenario w e c ms out :
  hasTimeout c = Some ms → enabledNotFalse c = true →
  throwing w (actualEndpoint e) = None →
  let a := length (queries w) in
  let x := length (executions w) in
  let w1 := (useFetch e c w).1 in
  let w3 := ActiveQuery.resume x out (ActiveQuery.timerFires x w1) in
  resultState <$> queries w3 !! a =
    Some {| data := JNull; error := mkTimeoutError ms; isSuccess := false;
            isError := true; isCanceled := false; isLoading := false |}.
Proof.
  intros Ht He Hret. cbv zeta. rewrite (useFetch_enabled_closed _ _ _ He Hret). wsimpl.
  erewrite timerFires_closed; [ | by_lookup | | by_lookup | ].
  2:{ wsimpl. by rewrite Ht. }
  2:{ reflexivity. }
  store_simpl.
  destruct out as [d|err].
  - erewrite resume_aborted; [ | by_lookup | done | ].
    2:{ unfold aborted. store_simpl. done. }
    erewrite updExecution_lookup by by_lookup. store_simpl.
    erewrite onCatch_closed; [ | by_lookup | by_lookup ].
    store_simpl. unfold ActiveQuery.timedOut. wsimpl. rewrite Ht. done.
  - erewrite resume_raises; [ | by_lookup | done ].
    erewrite onCatch_closed; [ | by_lookup | by_lookup ].
    store_simpl. unfold ActiveQuery.timedOut. wsimpl. rewrite Ht. done.
Qed.

Lemma errorEvents_kind obs err cb :
  Forall (λ ev, isErrorEvent ev = true) (errorEvents obs err cb).
Proof.
  destruct cb as [tag|o]; simpl; [by repeat constructor|].
  destruct (obs !! o) as [ob|]; [|constructor].
  destruct (isObserverCanceled ob); [constructor|].
  apply Forall_forall. intros ev [tag [-> _]]%list_elem_of_fmap. done.
Qed.

Lemma completeEvents_kind obs res cb :
  Forall (λ ev, isCompleteEvent ev = true) (completeEvents obs res cb).
Proof.
  destruct cb as [tag|o|key]; simpl; [by repeat constructor| |constructor].
  destruct (obs !! o) as [ob|]; [|constructor].
  destruct (isObserverCanceled ob); [constructor|].
  apply Forall_forall. intros ev [tag [-> _]]%list_elem_of_fmap. done.
Qed.

Lemma Forall_bind_list {A B} (P : B → Prop) (f : A → list B) (l : list A) :
  (∀ x, Forall P (f x)) → Forall P (l ≫= f).
Proof.
  intros H. induction l as [|x l IH]; [constructor|].
  rewrite bind_cons. apply Forall_app. by split.
Qed.

(** ** Failure classification *)

(** C3.  When an execution fails, the [catch] block classifies the failure in
    priority order: the timed-out flag first (isError with the timeout error),
    then a cancellation-shaped failure, an abort-kind error or a triggered
    token (isCanceled only, nothing written to error, error listeners not
    called), then anything else (isError with the raised value).  Error
    listeners are called before completion listeners.  And with a timeout of
    [ms] milliseconds, when the call of the unit of work has returned and
    the timer fires before the work settles, whatever the work then does,
    the result has isError, not isCanceled, and the message
    "timeout of <ms>ms exceeded". *)
Theorem C3_failure_classification
    (w : World) (x : nat) (err : JVal) (ex : Execution) (q : ActiveQuery)
    (w0 : World) (e : EndpointArg) (c : QueryConfig) (ms : Z) (out : Outcome) :
  (executions w !! x = Some ex → queries w !! owner ex = Some q →
   let cls :=
     classifyFailure (ActiveQuery.timedOut ex) (isAbortError err)
       (aborted (signal ex) w) err in
   let r := failureResult cls (resultState q) in
   let errEvs :=
     match failureError cls with
     | Some e' => errorCallbacks q ≫= errorEvents (observers w) e'
     | None => []
     end in
   let compEvs := completeCallbacks q ≫= completeEvents (observers w) r in
   let w' := ActiveQuery.onCatch x err w in
   resultState <$> queries w' !! owner ex = Some r
   ∧ trace w' = trace w ++ errEvs ++ compEvs
   ∧ Forall (λ ev, isErrorEvent ev = true) errEvs
   ∧ Forall (λ ev, isCompleteEvent ev = true) compEvs)
  ∧
  (hasTimeout c = Some ms → enabledNotFalse c = true →
   throwing w0 (actualEndpoint e) = None →
   let a := length (queries w0) in
   let x0 := length (executions w0) in
   let w1 := (useFetch e c w0).1 in
   let w3 := ActiveQuery.resume x0 out (ActiveQuery.timerFires x0 w1) in
   ∃ r, resultState <$> queries w3 !! a = Some r
        ∧ isError r = true ∧ isCanceled r = false ∧ isSuccess r = false
        ∧ isLoading r = false
        ∧ contains ("timeout of " +:+ pretty ms +:+ "ms exceeded") (messageOf (error r))).
Proof.
  split.
  - intros Hx Hq. cbv zeta.
    rewrite (onCatch_closed _ err _ _ _ Hx Hq). wsimpl.
    split; [| split; [done | split]].
    + erewrite list_lookup_insert_eq by (eapply lookup_lt_Some; eassumption). done.
    + destruct (classifyFailure _ _ _ _); wsimpl; try constructor;
        apply Forall_bind_list; intros; apply errorEvents_kind.
    + apply Forall_bind_list; intros; apply completeEvents_kind.
  - intros Ht He Hret. cbv zeta.
    rewrite (timeout_scenario w0 e c ms out Ht He Hret).
    eexists; split; [reflexivity|]. wsimpl.
    repeat split. apply contains_timeout_message.
Qed.

Lemma C3_failure_classification_witness :
  (resultState <$> queries (ActiveQuery.onCatch 0 abortError slowWorld) !! 0%nat
   = Some {| data := JNull; error := mkError "timeout of 10ms exceeded";
             isSuccess := false; isError := true; isCanceled := false;
             isLoading := false |})
  ∧ (∃ r,
       resultState <$>
         queries (ActiveQuery.resume 0 (Fulfils (JStr "late"))
                    (ActiveQuery.timerFires 0
                       (useFetch (Plain (Url "https://api.example.com/slow"))
                          (withTimeout 10) (newWorld emptyConfig)).1)) !! 0%nat
       = Some r
       ∧ isError r = true ∧ isCanceled r = false ∧ isSuccess r = false
       ∧ isLoading r = false
       ∧ contains "timeout of 10ms exceeded" (messageOf (error r))).
Proof.
  destruct (C3_failure_classification slowWorld 0 abortError slowRun slowQuery
              (newWorld emptyConfig) (Plain (Url "https://api.example.com/slow"))
              (withTimeout 10) 10 (Fulfils (JStr "late"))) as [HA HB].
  split.
  - exact (proj1 (HA eq_refl eq_refl)).
  - exact (HB eq_refl eq_refl eq_refl).
Defined.

(** ** Reference counting and cancellation *)

Lemma removeRef_closed a w q :
  queries w !! a = Some q →
  ActiveQuery.removeRef a w =
    setControllers (afterRemoveRef q (controllers w))
      (setQueries (<[a := withRefCount (refCount q - 1) q]> (queries w)) w).
Proof.
  intros Hq. unfold ActiveQuery.removeRef, afterRemoveRef.
  erewrite updQuery_lookup by by_lookup. store_simpl.
  destruct (refCount q - 1 <=? 0); simpl.
  - unfold ActiveQuery.hardCancel. store_simpl.
    destruct (abortController q) as [c|], (isLoading (resultState q)); world_eq.
  - world_eq.
Qed.

Lemma cancel_closed o w ob q :
  observers w !! o = Some ob → isObserverCanceled ob = false →
  queries w !! activeQuery ob = Some q →
  QueryObserver.cancel o w =
    {| queries := <[activeQuery ob := withRefCount (refCount q - 1) q]> (queries w);
       observers :=
         <[o := {| activeQuery := activeQuery ob; isObserverCanceled := true;
                   wrappedCompleteCallbacks := []; wrappedErrorCallbacks := [] |}]>
           (observers w);
       controllers := afterRemoveRef q (controllers w);
       executions := executions w;
       clientConfig := clientConfig w;
       activeQueries := activeQueries w;
       microtasks := microtasks w ++ [DeliverCanceled (wrappedCompleteCallbacks ob)];
       trace := trace w;
       throwing := throwing w |}.
Proof.
  intros Ho Hc Hq. unfold QueryObserver.cancel. rewrite Ho, Hc.
  rewrite (updObserver_lookup o _ w ob Ho).
  erewrite removeRef_closed by by_lookup.
  erewrite updObserver_lookup by by_lookup.
  world_eq.
Qed.

Lemma cancel_canceled o w ob :
  observers w !! o = Some ob → isObserverCanceled ob = true →
  QueryObserver.cancel o w = w.
Proof. intros Ho Hc. unfold QueryObserver.cancel. by rewrite Ho, Hc. Qed.

Lemma falsy_not_abort err : truthy err = false → isAbortError err = false.
Proof. by destruct err. Qed.

Lemma drain_nil w : microtasks w = [] → drain w = w.
Proof. intros H. unfold drain. by rewrite H. Qed.

Lemma drain_single t w :
  microtasks w = [t] → drain w = runTask t (setMicrotasks [] w).
Proof. intros H. unfold drain. rewrite H. simpl. unfold tick. by rewrite H. Qed.

(** ** Cancelling an observer *)

(** C8.  [cancel()] is idempotent.  The first call sets the canceled flag,
    takes exactly one reference off the shared operation, calls nothing
    synchronously, queues one deferred delivery of the synthesized canceled
    result to exactly the completion callbacks registered at that moment
    (each registration once, no error callback), and empties both lists of
    the observer; a second call changes nothing, so after the queue has run
    the only notifications are those of the first call. *)
Theorem C8_cancel_idempotent
    (w : World) (o : nat) (ob : QueryObserver) (q : ActiveQuery) :
  observers w !! o = Some ob → isObserverCanceled ob = false →
  queries w !! activeQuery ob = Some q →
  let canceled :=
    {| data := JNull; error := JNull; isSuccess := false; isError := false;
       isCanceled := true; isLoading := false |} in
  let cbs := wrappedCompleteCallbacks ob in
  let notified := map (λ tag, CalledComplete tag canceled) cbs in
  let w1 := QueryObserver.cancel o w in
  observers w1 !! o
    = Some {| activeQuery := activeQuery ob; isObserverCanceled := true;
              wrappedCompleteCallbacks := []; wrappedErrorCallbacks := [] |}
  ∧ refCount <$> queries w1 !! activeQuery ob = Some (refCount q - 1)
  ∧ trace w1 = trace w
  ∧ microtasks w1 = microtasks w ++ [DeliverCanceled cbs]
  ∧ (∀ w', trace (runTask (DeliverCanceled cbs) w') = trace w' ++ notified)
  ∧ Forall (λ ev, isErrorEvent ev = false) notified
  ∧ QueryObserver.cancel o w1 = w1
  ∧ (microtasks w = [] →
     trace (drain (QueryObserver.cancel o w1)) = trace w ++ notified).
Proof.
  intros Ho Hc Hq. cbv zeta.
  rewrite (cancel_closed _ _ _ _ Ho Hc Hq).
  assert (Hone :
    <[o := {| activeQuery := activeQuery ob; isObserverCanceled := true;
              wrappedCompleteCallbacks := []; wrappedErrorCallbacks := [] |}]>
      (observers w) !! o
    = Some {| activeQuery := activeQuery ob; isObserverCanceled := true;
              wrappedCompleteCallbacks := []; wrappedErrorCallbacks := [] |}).
  { apply list_lookup_insert_eq. by eapply lookup_lt_Some. }
  wsimpl. repeat split.
  - exact Hone.
  - erewrite list_lookup_insert_eq by (eapply lookup_lt_Some; eassumption). done.
  - apply Forall_forall. intros ev [tag [-> _]]%list_elem_of_fmap. done.
  - eapply cancel_canceled; [exact Hone | done].
  - intros Hempty. erewrite cancel_canceled; [ | exact Hone | done ].
    erewrite drain_single; [ | wsimpl; by rewrite Hempty ].
    wsimpl. done.
Qed.

Lemma settled_after_resume x out w ex q :
  executions w !! x = Some ex → outcome ex = None →
  queries w !! owner ex = Some q →
  ∃ r, queries (ActiveQuery.resume x out w) !! owner ex
       = Some (withCallbacks [] [] (withResultState r q))
       ∧ isLoading r = false.
Proof.
  intros Hx Hout Hq.
  assert (Hlt : (owner ex < length (queries w))%nat) by by eapply lookup_lt_Some.
  destruct out as [d|err].
  - destruct (aborted (signal ex) w) eqn:Hab.
    + rewrite (resume_aborted _ d _ _ Hx Hout Hab).
      rewrite (updExecution_lookup _ _ _ _ Hx).
      erewrite onCatch_closed; [ | by_lookup | by_lookup ].
      wsimpl. eexists. rewrite list_lookup_insert_eq by done. split; [reflexivity|].
      by destruct (classifyFailure _ _ _ _).
    + rewrite (resume_success_closed _ d _ _ _ Hx Hout Hq Hab). wsimpl.
      eexists. rewrite list_lookup_insert_eq by done. split; [reflexivity|done].
  - rewrite (resume_raises _ err _ _ Hx Hout).
    rewrite (onCatch_closed _ err _ _ _ Hx Hq). wsimpl.
    eexists. rewrite list_lookup_insert_eq by done. split; [reflexivity|].
    by destruct (classifyFailure _ _ _ _).
Qed.

Lemma observer_onError_closed o tag w ob q :
  observers w !! o = Some ob → queries w !! activeQuery ob = Some q →
  QueryObserver.onError o tag w =
    setMicrotasks
      (microtasks w ++
         (if hasDeliverableError (resultState q) && negb (isObserverCanceled ob)
          then [DeliverStateError tag (error (resultState q))] else []))
      (setObservers
         (<[o := QueryObserver.withWrapped (wrappedCompleteCallbacks ob)
                   (wrappedErrorCallbacks ob ++ [tag]) ob]> (observers w)) w).
Proof.
  intros Ho Hq. unfold QueryObserver.onError. rewrite Ho.
  rewrite (updObserver_lookup _ _ _ _ Ho).
  unfold QueryObserver.stateOf. wsimpl. rewrite Hq. simpl.
  unfold hasDeliverableError.
  destruct (isLoading (resultState q)), (isObserverCanceled ob),
    (isError (resultState q)), (truthy (error (resultState q))); simpl; world_eq;
    by rewrite app_nil_r.
Qed.

Lemma observer_onComplete_closed o tag w ob q :
  observers w !! o = Some ob → queries w !! activeQuery ob = Some q →
  QueryObserver.onComplete o tag w =
    setMicrotasks
      (microtasks w ++
         (if isSettled (resultState q) && negb (isObserverCanceled ob)
          then [DeliverState tag (resultState q)] else []))
      (setObservers
         (<[o := QueryObserver.withWrapped (wrappedCompleteCallbacks ob ++ [tag])
                   (wrappedErrorCallbacks ob) ob]> (observers w)) w).
Proof.
  intros Ho Hq. unfold QueryObserver.onComplete. rewrite Ho.
  rewrite (updObserver_lookup _ _ _ _ Ho).
  unfold QueryObserver.stateOf. wsimpl. rewrite Hq. simpl.
  unfold isSettled.
  destruct (isLoading (resultState q)), (isObserverCanceled ob),
    (anyTerminalFlag (resultState q)); simpl; world_eq;
    by rewrite app_nil_r.
Qed.

(** ** A falsy raised value *)

(** C10.  If the unit of work fails with a falsy value (null, undefined, 0,
    the empty string, false) while no timeout has fired and the token is
    not triggered, the operation settles with isError and that value stored
    as error; an error callback registered afterwards, on the operation or
    on an observer of it, is only put on the list: nothing is queued for it
    and nothing is called, because the guard asks for a truthy error. *)
Theorem C10_falsy_error_never_redelivered
    (w : World) (x : nat) (err : JVal) (ex : Execution) (q : ActiveQuery) :
  executions w !! x = Some ex → outcome ex = None →
  queries w !! owner ex = Some q →
  ActiveQuery.timedOut ex = None → aborted (signal ex) w = false →
  truthy err = false →
  let a := owner ex in
  let w1 := ActiveQuery.resume x (Raises err) w in
  (∃ q1, queries w1 !! a = Some q1
         ∧ isError (resultState q1) = true ∧ error (resultState q1) = err
         ∧ isLoading (resultState q1) = false)
  ∧ (∀ cb, let w2 := ActiveQuery.onError a cb w1 in
           microtasks w2 = microtasks w1 ∧ trace w2 = trace w1)
  ∧ (∀ o ob tag, observers w1 !! o = Some ob → activeQuery ob = a →
       let w2 := QueryObserver.onError o tag w1 in
       microtasks w2 = microtasks w1 ∧ trace w2 = trace w1).
Proof.
  intros Hx Hout Hq Hto Hab Hfalsy. cbv zeta.
  assert (Hlt : (owner ex < length (queries w))%nat) by by eapply lookup_lt_Some.
  rewrite (resume_raises _ err _ _ Hx Hout).
  rewrite (onCatch_closed _ err _ _ _ Hx Hq).
  rewrite Hto, Hab, (falsy_not_abort _ Hfalsy).
  set (q1 := withCallbacks [] [] (withResultState _ q)).
  set (w1 := Build_World _ _ _ _ _ _ _ _ _).
  assert (Hq1 : queries w1 !! owner ex = Some q1).
  { subst w1. wsimpl. by rewrite list_lookup_insert_eq. }
  assert (Hnot : hasDeliverableError (resultState q1) = false).
  { subst q1. unfold hasDeliverableError. wsimpl. by rewrite Hfalsy. }
  split; [|split].
  - exists q1. split; [exact Hq1|]. subst q1. wsimpl. done.
  - intros cb. rewrite (onError_closed _ cb _ _ Hq1), Hnot. wsimpl.
    by rewrite app_nil_r.
  - intros o ob tag Ho Ha. rewrite <- Ha in Hq1.
    rewrite (observer_onError_closed _ tag _ _ _ Ho Hq1), Hnot. wsimpl.
    by rewrite app_nil_r.
Qed.

Lemma C8_cancel_idempotent_witness :
  trace (drain (QueryObserver.cancel 0 (QueryObserver.cancel 0 listeningWorld)))
  = trace listeningWorld ++ [CalledComplete 7 canceledState].
Proof.
  destruct (C8_cancel_idempotent listeningWorld 0 (observerAt listeningWorld 0)
              (queryAt listeningWorld 0) eq_refl eq_refl eq_refl)
    as (_ & _ & _ & _ & _ & _ & _ & H).
  exact (H eq_refl).
Defined.

Lemma C10_falsy_error_never_redelivered_witness :
  (∃ q1, queries (ActiveQuery.resume 0 (Raises JNull) listeningWorld) !! 0%nat = Some q1
         ∧ isError (resultState q1) = true ∧ error (resultState q1) = JNull
         ∧ isLoading (resultState q1) = false)
  ∧ trace (QueryObserver.onError 0 9 (ActiveQuery.resume 0 (Raises JNull) listeningWorld))
    = trace (ActiveQuery.resume 0 (Raises JNull) listeningWorld).
Proof.
  destruct (C10_falsy_error_never_redelivered listeningWorld 0 JNull
              (runAt listeningWorld 0) (queryAt listeningWorld 0)
              eq_refl eq_refl eq_refl eq_refl eq_refl eq_refl)
    as (H1 & _ & H3).
  split; [exact H1|].
  exact (proj2 (H3 0%nat
    (observerAt (ActiveQuery.resume 0 (Raises JNull) listeningWorld) 0) 9%nat
    eq_refl eq_refl)).
Defined.

(** ** Listener lists around settlement *)

(** C7, as the code has it.  Right after the fan-out of a settlement both
    listener lists of the operation are empty.  A completion callback
    registered on a settled operation is called with nothing inside the
    registering call; one deferred delivery of the current snapshot is
    queued for it, and the callback is also appended to the list.  An error
    callback registered once loading is over is appended to the list as
    well, and one deferred delivery of the stored error is queued only if
    the operation holds isError with a truthy error. *)
Theorem C7_listeners_around_settlement
    (w : World) (x : nat) (out : Outcome) (ex : Execution) (q : ActiveQuery)
    (w2 : World) (a : nat) (q2 : ActiveQuery) (cb : CompleteCb) (ecb : ErrorCb) :
  (executions w !! x = Some ex → outcome ex = None → queries w !! owner ex = Some q →
   ∃ q', queries (ActiveQuery.resume x out w) !! owner ex = Some q'
         ∧ completeCallbacks q' = [] ∧ errorCallbacks q' = []
         ∧ isLoading (resultState q') = false)
  ∧
  (queries w2 !! a = Some q2 → isSettled (resultState q2) = true →
   let w3 := ActiveQuery.onComplete a cb w2 in
   trace w3 = trace w2
   ∧ microtasks w3 = microtasks w2 ++ [DeliverCurrent cb a]
   ∧ queries w3 !! a
     = Some (withCallbacks (completeCallbacks q2 ++ [cb]) (errorCallbacks q2) q2)
   ∧ (∀ tag, cb = UserComplete tag →
        trace (runTask (DeliverCurrent cb a) w3)
        = trace w3 ++ [CalledComplete tag (resultState q2)]))
  ∧
  (queries w2 !! a = Some q2 → isLoading (resultState q2) = false →
   let w3 := ActiveQuery.onError a ecb w2 in
   let stored := error (resultState q2) in
   trace w3 = trace w2
   ∧ microtasks w3
     = microtasks w2 ++
         (if isError (resultState q2) && truthy stored then [DeliverError ecb stored] else [])
   ∧ queries w3 !! a
     = Some (withCallbacks (completeCallbacks q2) (errorCallbacks q2 ++ [ecb]) q2)
   ∧ (∀ tag w', ecb = UserError tag →
        trace (runTask (DeliverError ecb stored) w') = trace w' ++ [CalledError tag stored])).
Proof.
  split; [|split].
  - intros Hx Hout Hq.
    destruct (settled_after_resume x out w ex q Hx Hout Hq) as (r & Hr & Hl).
    eexists. split; [exact Hr|]. by wsimpl.
  - intros Ha Hs. cbv zeta. rewrite (onComplete_closed a cb w2 q2 Ha), Hs. wsimpl.
    assert (Hlook :
      <[a := withCallbacks (completeCallbacks q2 ++ [cb]) (errorCallbacks q2) q2]>
        (queries w2) !! a
      = Some (withCallbacks (completeCallbacks q2 ++ [cb]) (errorCallbacks q2) q2)).
    { apply list_lookup_insert_eq. by eapply lookup_lt_Some. }
    repeat split; [exact Hlook|].
    intros tag ->. unfold runTask. wsimpl. rewrite Hlook. by wsimpl.
  - intros Ha Hl. cbv zeta. rewrite (onError_closed a ecb w2 q2 Ha).
    unfold hasDeliverableError. rewrite Hl. wsimpl.
    repeat split.
    + apply list_lookup_insert_eq. by eapply lookup_lt_Some.
    + by intros tag w' ->.
Qed.

Lemma C7_listeners_around_settlement_witness :
  (∃ q', queries (ActiveQuery.resume 0 (Fulfils (JStr "data")) listeningWorld) !! 0%nat
         = Some q'
         ∧ completeCallbacks q' = [] ∧ errorCallbacks q' = []
         ∧ isLoading (resultState q') = false)
  ∧ microtasks (ActiveQuery.onComplete 0 (UserComplete 5) settledWorld)
    = microtasks settledWorld ++ [DeliverCurrent (UserComplete 5) 0]
  ∧ microtasks (ActiveQuery.onError 0 (UserError 6) settledWorld) = microtasks settledWorld.
Proof.
  destruct (C7_listeners_around_settlement listeningWorld 0 (Fulfils (JStr "data"))
              (runAt listeningWorld 0) (queryAt listeningWorld 0)
              settledWorld 0 (queryAt settledWorld 0) (UserComplete 5) (UserError 6))
    as (H1 & H2 & H3).
  split; [exact (H1 eq_refl eq_refl eq_refl)|].
  split; [exact (proj1 (proj2 (H2 eq_refl eq_refl)))|].
  exact (proj1 (proj2 (H3 eq_refl eq_refl))).
Defined.

(** C7, as the specification words it, fails: a completion callback
    registered after settlement is put on the list that the fan-out had just
    emptied, and it is called a second time when the operation is executed
    again. *)
Lemma C7_late_callback_is_listed :
  completeCallbacks <$> queries settledWorld !! 0%nat = Some []
  ∧ completeCallbacks
      <$> queries (ActiveQuery.onComplete 0 (UserComplete 5) settledWorld) !! 0%nat
    = Some [UserComplete 5]
  ∧ length
      (deliveries 5
         (trace
            (run demoStringify (ActiveQuery.onComplete 0 (UserComplete 5) settledWorld)
               [Microtask; CallExecute 0; Settles 1 (Fulfils (JStr "again"))])))
    = 2%nat.
Proof. vm_compute. repeat split. Qed.

(** ** Flags across executions *)

(** C5 fails on the code: [execute] takes the old snapshot over and resets
    only isLoading and isCanceled.  Executed again after a success, the
    operation shows isSuccess while loading; if the second run fails, the
    snapshot, also the one handed to a [then] continuation, has isSuccess
    and isError together. *)
Theorem C5_flags_survive_reexecution :
  let boom := mkError "boom" in
  let stale :=
    {| data := JStr "first"; error := boom; isSuccess := true; isError := true;
       isCanceled := false; isLoading := false |} in
  resultState <$> queries reexecutedWorld !! 0%nat
    = Some {| data := JStr "first"; error := JNull; isSuccess := true; isError := false;
              isCanceled := false; isLoading := true |}
  ∧ resultState <$> queries (ActiveQuery.resume 1 (Raises boom) reexecutedWorld) !! 0%nat
    = Some stale
  ∧ trace (tick (ActiveQuery.resume 1 (Raises boom) reexecutedWorld))
    = [Invoked 0; Invoked 0; Surfaced 3 stale].
Proof. vm_compute. repeat split. Qed.

(** ** Two manual observers *)

(** C2 fails on the code: the wrapper installed on a manual operation calls
    its own [originalExecute] also when another operation is registered
    under the key.  Two manual observers created before either is executed
    keep two operations, and the unit of work is called twice. *)
Theorem C2_manual_observers_do_not_converge :
  EqueryClient.keyOf demoStringify (Plain (Url manualUrl)) manual (newWorld emptyConfig)
    = Some ("GET:" +:+ manualUrl)
  ∧ QueryObserver.getQueryId 0 twoManualWorld = Some 0%nat
  ∧ QueryObserver.getQueryId 1 twoManualWorld = Some 1%nat
  ∧ activeQueries twoManualWorld !! ("GET:" +:+ manualUrl) = Some 0%nat
  ∧ trace twoManualWorld = [Invoked 0; Invoked 1]
  ∧ allInvocations (trace twoManualWorld) = 2%nat.
Proof. vm_compute. repeat split. Qed.

(** ** The promise view *)




(** ** The dedup registry *)

Section ClientFacts.

Variable stringify : JVal → string.

Lemma client_useFetch_shared e c w k a :
  EqueryClient.keyOf stringify e c w = Some k → activeQueries w !! k = Some a →
  EqueryClient.useFetch stringify e c w = QueryObserver.new a w.
Proof.
  unfold EqueryClient.keyOf, EqueryClient.useFetch. cbv zeta.
  intros -> Ha. cbn [mbind option_bind]. by rewrite Ha.
Qed.

Lemma client_useFetch_enabled_closed e c w k :
  EqueryClient.keyOf stringify e c w = Some k → activeQueries w !! k = None →
  enabledNotFalse (mergedOf c w) = true →
  throwing w (finalOf e c w) = None →
  let a := length (queries w) in
  let o := length (observers w) in
  EqueryClient.useFetch stringify e c w =
    ({| queries := queries w ++
          [withCallbacks [EvictKey k; RelayComplete o] [RelayError o]
             (withRefCount 1
                (freshQuery (finalOf e c w) (mergedOf c w)
                   (length (controllers w)) (length (executions w))))];
        observers := observers w ++ [freshObserver a];
        controllers := controllers w ++ [false];
        executions := executions w ++ [freshRun a (length (controllers w)) (mergedOf c w)];
        clientConfig := clientConfig w;
        activeQueries := <[k := a]> (activeQueries w);
        microtasks := microtasks w;
        trace := trace w ++ [Invoked a];
        throwing := throwing w |}, o).
Proof.
  unfold EqueryClient.keyOf, EqueryClient.useFetch, finalOf, mergedOf. cbv zeta.
  intros -> Hk He Hret. cbn [mbind option_bind]. rewrite Hk, He.
  rewrite (new_enabled_closed _ _ _ He Hret). wsimpl.
  erewrite onComplete_closed by by_lookup. store_simpl.
  erewrite observer_new_closed by by_lookup. store_simpl.
  f_equal. world_eq. by rewrite !app_nil_r.
Qed.

(** The same call when the call of the unit of work throws: the operation
    is settled when its key is registered, so the eviction and the relays of
    the observer are queued as deliveries, and stay on the lists. *)
Lemma client_useFetch_thrown_closed e c w k err :
  EqueryClient.keyOf stringify e c w = Some k → activeQueries w !! k = None →
  enabledNotFalse (mergedOf c w) = true →
  throwing w (finalOf e c w) = Some err →
  let a := length (queries w) in
  let o := length (observers w) in
  let r := thrownResult err initialResult in
  EqueryClient.useFetch stringify e c w =
    ({| queries := queries w ++
          [withCallbacks [EvictKey k; RelayComplete o] [RelayError o]
             (withRefCount 1
                (thrownQuery (finalOf e c w) (mergedOf c w)
                   (length (controllers w)) (length (executions w)) err))];
        observers := observers w ++ [freshObserver a];
        controllers := controllers w ++ [false];
        executions := executions w ++ [thrownRun a (length (controllers w)) (mergedOf c w) r];
        clientConfig := clientConfig w;
        activeQueries := <[k := a]> (activeQueries w);
        microtasks := microtasks w
          ++ [DeliverCurrent (EvictKey k) a; DeliverCurrent (RelayComplete o) a]
          ++ (if hasDeliverableError r then [DeliverError (RelayError o) (error r)] else []);
        trace := trace w ++ [Invoked a];
        throwing := throwing w |}, o).
Proof.
  unfold EqueryClient.keyOf, EqueryClient.useFetch, finalOf, mergedOf. cbv zeta.
  intros -> Hk He Hthr. cbn [mbind option_bind]. rewrite Hk, He.
  rewrite (new_thrown_closed _ _ _ err He Hthr). wsimpl.
  erewrite onComplete_closed by by_lookup. store_simpl.
  erewrite observer_new_closed by by_lookup. store_simpl.
  rewrite !thrownResult_settled.
  f_equal. world_eq.
Qed.

(** What both cases have in common. *)
Lemma client_useFetch_enabled_facts e c w k :
  EqueryClient.keyOf stringify e c w = Some k → activeQueries w !! k = None →
  enabledNotFalse (mergedOf c w) = true →
  let a := length (queries w) in
  let o := length (observers w) in
  ∃ q x ts,
    endpoint q = finalOf e c w ∧ config q = mergedOf c w
    ∧ EqueryClient.useFetch stringify e c w =
      ({| queries := queries w ++ [q];
          observers := observers w ++ [freshObserver a];
          controllers := controllers w ++ [false];
          executions := executions w ++ [x];
          clientConfig := clientConfig w;
          activeQueries := <[k := a]> (activeQueries w);
          microtasks := microtasks w ++ ts;
          trace := trace w ++ [Invoked a];
          throwing := throwing w |}, o).
Proof.
  intros Hk Hfree He. cbv zeta.
  destruct (throwing w (finalOf e c w)) as [err|] eqn:Hthr.
  - rewrite (client_useFetch_thrown_closed e c w k err Hk Hfree He Hthr).
    eexists _, _, _. split; [|split]; [| |reflexivity]; done.
  - rewrite (client_useFetch_enabled_closed e c w k Hk Hfree He Hthr).
    eexists _, _, []. split; [|split]; [| |by rewrite app_nil_r]; done.
Qed.

Lemma client_useFetch_manual_closed e c w k :
  EqueryClient.keyOf stringify e c w = Some k → activeQueries w !! k = None →
  enabledNotFalse (mergedOf c w) = false →
  let a := length (queries w) in
  let o := length (observers w) in
  EqueryClient.useFetch stringify e c w =
    (setObservers (observers w ++ [freshObserver a])
       (setQueries
          (queries w ++
             [withCallbacks [RelayComplete o] [RelayError o]
                (withRefCount 1
                   (withLazyKey (Some k) (idleQuery (finalOf e c w) (mergedOf c w))))]) w),
     o).
Proof.
  unfold EqueryClient.keyOf, EqueryClient.useFetch, mergedOf, finalOf. cbv zeta.
  intros -> Hk He. cbn [mbind option_bind]. rewrite Hk, He.
  rewrite (new_disabled_closed _ _ _ He). wsimpl.
  erewrite updQuery_lookup by by_lookup. store_simpl.
  erewrite observer_new_closed by by_lookup. store_simpl.
  f_equal. world_eq. by rewrite !app_nil_r.
Qed.

Lemma client_useFetch_unkeyed e c w :
  EqueryClient.keyOf stringify e c w = None →
  EqueryClient.useFetch stringify e c w
  = QueryObserver.new (length (queries w))
      (ActiveQuery.new (finalOf e c w) (mergedOf c w) w).1.
Proof.
  unfold EqueryClient.keyOf, EqueryClient.useFetch, mergedOf, finalOf. cbv zeta.
  intros ->. by cbn [mbind option_bind].
Qed.


(** *** Strings *)

Lemma append_cons (c : ascii) (s t : string) : String c s +:+ t = String c (s +:+ t).
Proof. reflexivity. Qed.

Lemma append_inj_l (p s1 s2 : string) : p +:+ s1 = p +:+ s2 → s1 = s2.
Proof.
  induction p as [|c p IH]; [done|].
  rewrite !append_cons. intros H. apply IH. congruence.
Qed.

Lemma colon_prefix_inj (m1 m2 r1 r2 : string) :
  noColon m1 = true → noColon m2 = true →
  m1 +:+ ":" +:+ r1 = m2 +:+ ":" +:+ r2 → m1 = m2.
Proof.
  revert m2. induction m1 as [|c1 m1 IH]; intros [|c2 m2]; simpl; intros H1 H2 Heq.
  - done.
  - rewrite append_cons in Heq. change ("" +:+ ":" +:+ r1) with (String ":" r1) in Heq.
    injection Heq as Hc _. subst c2. done.
  - rewrite append_cons in Heq. change ("" +:+ ":" +:+ r2) with (String ":" r2) in Heq.
    injection Heq as Hc _. subst c1. done.
  - rewrite !append_cons in Heq. injection Heq as Hc Hrest. subst c2.
    apply andb_prop in H1 as [_ H1]. apply andb_prop in H2 as [_ H2].
    f_equal. by eapply IH.
Qed.

Lemma bodySuffix_inj (b1 b2 : string) : bodySuffix b1 = bodySuffix b2 → b1 = b2.
Proof.
  unfold bodySuffix.
  destruct (String.eqb_spec b1 ""), (String.eqb_spec b2 ""); subst; try done.
  intros H. change (String ":" b1 = String ":" b2) in H. congruence.
Qed.

Lemma requestKey_same_prefix merged1 merged2 url :
  strOr (method merged1) "GET" = strOr (method merged2) "GET" →
  EqueryClient.requestKey stringify merged1 url = EqueryClient.requestKey stringify merged2 url
  ↔ EqueryClient.bodyStr stringify merged1 = EqueryClient.bodyStr stringify merged2.
Proof.
  intros Hm. unfold EqueryClient.requestKey. rewrite Hm. split.
  - intros H. do 3 apply append_inj_l in H. by apply bodySuffix_inj.
  - by intros ->.
Qed.

Lemma requestKey_methods_differ merged1 merged2 url1 url2 :
  noColon (strOr (method merged1) "GET") = true →
  noColon (strOr (method merged2) "GET") = true →
  strOr (method merged1) "GET" ≠ strOr (method merged2) "GET" →
  EqueryClient.requestKey stringify merged1 url1 ≠ EqueryClient.requestKey stringify merged2 url2.
Proof.
  intros H1 H2 Hne Heq. apply Hne. unfold EqueryClient.requestKey in Heq.
  by eapply colon_prefix_inj.
Qed.

End ClientFacts.

Lemma strTruthy_Given (k : string) : k ≠ "" → strTruthy (Given k) = true.
Proof. intros H. simpl. by apply negb_true_iff, String.eqb_neq. Qed.

Lemma strOr_Given (k d : string) : k ≠ "" → strOr (Given k) d = k.
Proof. intros H. simpl. by apply String.eqb_neq in H as ->. Qed.

Lemma strTruthy_strOr (f : Field string) (d : string) :
  strTruthy f = true → f = Given (strOr f d).
Proof.
  destruct f as [| |k]; simpl; try done.
  by destruct (String.eqb k "").
Qed.

Lemma allInvocations_app t1 t2 :
  allInvocations (t1 ++ t2) = (allInvocations t1 + allInvocations t2)%nat.
Proof. unfold allInvocations. by rewrite filter_app, length_app. Qed.

Lemma lookup_snoc_snoc {A} (l : list A) (x y : A) :
  ((l ++ [x]) ++ [y]) !! length l = Some x.
Proof. apply lookup_app_l_Some, lookup_snoc_length. Qed.

Lemma keyOf_clientConfig stringify e c w w' :
  clientConfig w' = clientConfig w →
  EqueryClient.keyOf stringify e c w' = EqueryClient.keyOf stringify e c w.
Proof. unfold EqueryClient.keyOf. by intros ->. Qed.

Lemma same_key_shares stringify e c e2 c2 w k :
  EqueryClient.keyOf stringify e c w = Some k →
  EqueryClient.keyOf stringify e2 c2 w = Some k →
  activeQueries w !! k = None →
  enabledNotFalse (mergedOf c w) = true →
  let r1 := EqueryClient.useFetch stringify e c w in
  let r2 := EqueryClient.useFetch stringify e2 c2 r1.1 in
  QueryObserver.getQueryId r1.2 r2.1 = Some (length (queries w))
  ∧ QueryObserver.getQueryId r2.2 r2.1 = Some (length (queries w))
  ∧ trace r2.1 = trace w ++ [Invoked (length (queries w))].
Proof.
  intros Hk Hk2 Hfree He. cbv zeta.
  destruct (client_useFetch_enabled_facts stringify e c w k Hk Hfree He)
    as (q & x & ts & _ & _ & ->).
  set (w1 := Build_World _ _ _ _ _ _ _ _ _). wsimpl.
  assert (Hk2' : EqueryClient.keyOf stringify e2 c2 w1 = Some k).
  { rewrite <- Hk2. by apply keyOf_clientConfig. }
  erewrite (client_useFetch_shared stringify e2 c2 w1 k (length (queries w)) Hk2');
    [|subst w1; wsimpl; apply lookup_insert_eq].
  erewrite observer_new_closed; [|subst w1; by_lookup].
  subst w1. unfold QueryObserver.getQueryId. wsimpl.
  rewrite lookup_snoc_snoc, lookup_snoc_length. done.
Qed.

Lemma different_keys_separate stringify e c e2 c2 w k k2 :
  EqueryClient.keyOf stringify e c w = Some k →
  EqueryClient.keyOf stringify e2 c2 w = Some k2 →
  k ≠ k2 →
  activeQueries w !! k = None → activeQueries w !! k2 = None →
  enabledNotFalse (mergedOf c w) = true → enabledNotFalse (mergedOf c2 w) = true →
  let r1 := EqueryClient.useFetch stringify e c w in
  let r2 := EqueryClient.useFetch stringify e2 c2 r1.1 in
  QueryObserver.getQueryId r1.2 r2.1 = Some (length (queries w))
  ∧ QueryObserver.getQueryId r2.2 r2.1 = Some (S (length (queries w)))
  ∧ trace r2.1 = trace w ++ [Invoked (length (queries w)); Invoked (S (length (queries w)))].
Proof.
  intros Hk Hk2 Hne Hfree Hfree2 He He2. cbv zeta.
  destruct (client_useFetch_enabled_facts stringify e c w k Hk Hfree He)
    as (q & x & ts & _ & _ & ->).
  set (w1 := Build_World _ _ _ _ _ _ _ _ _). wsimpl.
  assert (Hk2' : EqueryClient.keyOf stringify e2 c2 w1 = Some k2).
  { rewrite <- Hk2. by apply keyOf_clientConfig. }
  destruct (client_useFetch_enabled_facts stringify e2 c2 w1 k2 Hk2')
    as (q2 & x2 & ts2 & _ & _ & ->);
    [ subst w1; wsimpl; by rewrite lookup_insert_ne | done | ].
  subst w1. unfold QueryObserver.getQueryId. wsimpl.
  rewrite lookup_snoc_snoc, lookup_snoc_length, length_app, <- app_assoc. simpl.
  rewrite Nat.add_1_r. done.
Qed.

Lemma unkeyed_is_independent stringify e c w :
  EqueryClient.keyOf stringify e c w = None →
  let r := EqueryClient.useFetch stringify e c w in
  QueryObserver.getQueryId r.2 r.1 = Some (length (queries w))
  ∧ length (queries r.1) = S (length (queries w))
  ∧ activeQueries r.1 = activeQueries w.
Proof.
  intros Hk. cbv zeta. rewrite (client_useFetch_unkeyed stringify e c w Hk).
  destruct (enabledNotFalse (mergedOf c w)) eqn:He;
    [destruct (throwing w (finalOf e c w)) as [err|] eqn:Hthr|].
  - rewrite (new_thrown_closed _ _ _ err He Hthr). wsimpl.
    erewrite observer_new_closed by by_lookup.
    unfold QueryObserver.getQueryId. store_simpl.
    rewrite length_app. simpl. rewrite Nat.add_1_r. done.
  - rewrite (new_enabled_closed _ _ _ He Hthr). wsimpl.
    erewrite observer_new_closed by by_lookup.
    unfold QueryObserver.getQueryId. store_simpl.
    rewrite length_app. simpl. rewrite Nat.add_1_r. done.
  - rewrite (new_disabled_closed _ _ _ He). wsimpl.
    erewrite observer_new_closed by by_lookup.
    unfold QueryObserver.getQueryId. store_simpl.
    rewrite length_app. simpl. rewrite Nat.add_1_r. done.
Qed.

(** C6, as the code has it.  The key of a call is, first match wins: the
    non-empty queryKey of the merged configuration (the call's own, else the
    client's); else the non-empty key of a [{key, fn}] definition; else,
    for a string endpoint, METHOD:finalURL (method GET by default), followed
    by :body when the body is truthy and serializes to a non-empty string;
    a callable endpoint with neither key has no key and always gets an
    operation of its own.  Two enabled calls with one key share one
    operation and one invocation; two with different keys get two
    operations and two invocations.  With the same method and URL the keys
    of the third rule differ exactly when the serialized bodies differ, a
    falsy body counting as no body; with different methods free of colons
    the keys differ. *)
Theorem C6_key_derivation
    (stringify : JVal → string) (w : World)
    (e : EndpointArg) (c : QueryConfig) (e2 : EndpointArg) (c2 : QueryConfig) :
  let merged := mergeConfig (clientConfig w) c in
  let merged2 := mergeConfig (clientConfig w) c2 in
  let key := EqueryClient.keyOf stringify e c w in
  let key2 := EqueryClient.keyOf stringify e2 c2 w in
  let M := strOr (method merged) "GET" in
  let M2 := strOr (method merged2) "GET" in
  let a := length (queries w) in
  let r1 := EqueryClient.useFetch stringify e c w in
  let r2 := EqueryClient.useFetch stringify e2 c2 r1.1 in
  (∀ k, queryKey merged = Given k → k ≠ "" → key = Some k)
  ∧ (strTruthy (queryKey merged) = false →
     (∀ k fn, e = Keyed k fn → k ≠ "" → key = Some k)
     ∧ (∀ u, e = Plain (Url u) →
          ∃ url, finalEndpoint merged (Url u) = Url url
                 ∧ (bodyTruthy (body merged) = false → key = Some (M +:+ ":" +:+ url))
                 ∧ (∀ v, body merged = Given v → truthy v = true → stringify v ≠ "" →
                      key = Some (M +:+ ":" +:+ url +:+ ":" +:+ stringify v)))
     ∧ (∀ f, e = Plain (Fn f) → key = None))
  ∧ (key = None →
     QueryObserver.getQueryId r1.2 r1.1 = Some a
     ∧ length (queries r1.1) = S a
     ∧ activeQueries r1.1 = activeQueries w)
  ∧ (∀ k, key = Some k → key2 = Some k → activeQueries w !! k = None →
       enabledNotFalse merged = true →
       QueryObserver.getQueryId r1.2 r2.1 = Some a
       ∧ QueryObserver.getQueryId r2.2 r2.1 = Some a
       ∧ allInvocations (trace r2.1) = S (allInvocations (trace w)))
  ∧ (∀ k k2, key = Some k → key2 = Some k2 → k ≠ k2 →
       activeQueries w !! k = None → activeQueries w !! k2 = None →
       enabledNotFalse merged = true → enabledNotFalse merged2 = true →
       QueryObserver.getQueryId r1.2 r2.1 = Some a
       ∧ QueryObserver.getQueryId r2.2 r2.1 = Some (S a)
       ∧ allInvocations (trace r2.1) = S (S (allInvocations (trace w))))
  ∧ (∀ url, M = M2 →
       EqueryClient.requestKey stringify merged url
       = EqueryClient.requestKey stringify merged2 url
       ↔ EqueryClient.bodyStr stringify merged = EqueryClient.bodyStr stringify merged2)
  ∧ (∀ url url2, noColon M = true → noColon M2 = true → M ≠ M2 →
       EqueryClient.requestKey stringify merged url
       ≠ EqueryClient.requestKey stringify merged2 url2).
Proof.
  cbv zeta. repeat apply conj.
  - intros k Hq Hk. unfold EqueryClient.keyOf, EqueryClient.cacheKey.
    rewrite Hq, (strTruthy_Given k Hk), (strOr_Given k _ Hk). done.
  - intros Hq. unfold EqueryClient.keyOf, EqueryClient.cacheKey. rewrite Hq.
    repeat apply conj.
    + intros k fn -> Hk. simpl definitionKey.
      rewrite (strTruthy_Given k Hk), (strOr_Given k _ Hk). done.
    + intros u ->. simpl definitionKey. simpl strTruthy. simpl actualEndpoint.
      assert (Hfinal : ∃ url, finalEndpoint (mergeConfig (clientConfig w) c) (Url u) = Url url).
      { unfold finalEndpoint. destruct (strTruthy (baseUrl _)); eexists; reflexivity. }
      destruct Hfinal as [url Hurl]. exists url. rewrite Hurl.
      split; [done|]. unfold EqueryClient.requestKey, EqueryClient.bodyStr. split.
      * intros Hb. unfold bodyTruthy in Hb.
        destruct (body (mergeConfig (clientConfig w) c)) as [| |v]; simpl;
          rewrite ?Hb; simpl; by rewrite append_empty_r.
      * intros v -> Hv Hs. rewrite Hv.
        by apply String.eqb_neq in Hs as ->.
    + intros f ->. done.
  - intros Hk. by apply unkeyed_is_independent.
  - intros k Hk Hk2 Hfree He.
    destruct (same_key_shares stringify e c e2 c2 w k Hk Hk2 Hfree He) as (H1 & H2 & H3).
    repeat apply conj; [done|done|].
    rewrite H3, allInvocations_app. unfold allInvocations at 2. simpl. lia.
  - intros k k2 Hk Hk2 Hne Hfree Hfree2 He He2.
    destruct (different_keys_separate stringify e c e2 c2 w k k2 Hk Hk2 Hne Hfree Hfree2 He He2)
      as (H1 & H2 & H3).
    repeat apply conj; [done|done|].
    rewrite H3, allInvocations_app. unfold allInvocations at 2. simpl. lia.
  - intros url HM. by apply requestKey_same_prefix.
  - intros url url2 H1 H2 Hne. by apply requestKey_methods_differ.
Qed.

Lemma C6_key_derivation_witness :
  let w := newWorld emptyConfig in
  let r1 := EqueryClient.useFetch demoStringify (Plain (Url resourceUrl))
              (requestWith "GET" Absent) w in
  let r2 := EqueryClient.useFetch demoStringify (Plain (Url resourceUrl))
              (requestWith "POST" (Given (JObj [("some", JStr "data")]))) r1.1 in
  QueryObserver.getQueryId r1.2 r2.1 = Some 0%nat
  ∧ QueryObserver.getQueryId r2.2 r2.1 = Some 1%nat
  ∧ allInvocations (trace r2.1) = 2%nat.
Proof.
  destruct (C6_key_derivation demoStringify (newWorld emptyConfig)
              (Plain (Url resourceUrl)) (requestWith "GET" Absent)
              (Plain (Url resourceUrl))
              (requestWith "POST" (Given (JObj [("some", JStr "data")]))))
    as (_ & _ & _ & _ & H & _).
  refine (H ("GET:" +:+ resourceUrl) ("POST:" +:+ resourceUrl +:+ ":{...}")
            eq_refl eq_refl _ eq_refl eq_refl eq_refl eq_refl).
  discriminate.
Defined.

(** C6, as the specification words it, fails: two calls whose bodies differ
    but are both falsy ([0] and [false]) derive the same key, share one
    operation, and cause one invocation. *)
Lemma C6_falsy_bodies_share_a_key :
  let w := newWorld emptyConfig in
  let r1 := EqueryClient.useFetch demoStringify (Plain (Url resourceUrl))
              (requestWith "POST" (Given (JNum 0))) w in
  let r2 := EqueryClient.useFetch demoStringify (Plain (Url resourceUrl))
              (requestWith "POST" (Given (JBool false))) r1.1 in
  JNum 0 ≠ JBool false
  ∧ EqueryClient.keyOf demoStringify (Plain (Url resourceUrl))
      (requestWith "POST" (Given (JNum 0))) w = Some ("POST:" +:+ resourceUrl)
  ∧ EqueryClient.keyOf demoStringify (Plain (Url resourceUrl))
      (requestWith "POST" (Given (JBool false))) w = Some ("POST:" +:+ resourceUrl)
  ∧ QueryObserver.getQueryId r1.2 r2.1 = Some 0%nat
  ∧ QueryObserver.getQueryId r2.2 r2.1 = Some 0%nat
  ∧ allInvocations (trace r2.1) = 1%nat.
Proof. cbv zeta. split; [discriminate|]. vm_compute. repeat split. Qed.

(** ** N observers of one key *)

Lemma withCallbacks_squash cs es cs' es' n n' q :
  withCallbacks cs es (withRefCount n (withCallbacks cs' es' (withRefCount n' q)))
  = withCallbacks cs es (withRefCount n q).
Proof. done. Qed.

Lemma obtain_shared stringify calls : ∀ w a q k,
  activeQueries w !! k = Some a → queries w !! a = Some q →
  isLoading (resultState q) = true →
  Forall (λ ec, EqueryClient.keyOf stringify ec.1 ec.2 w = Some k) calls →
  let os := seq (length (observers w)) (length calls) in
  obtain stringify calls w =
    setObservers (observers w ++ replicate (length calls) (freshObserver a))
      (setQueries
         (<[a := withCallbacks (completeCallbacks q ++ map RelayComplete os)
                   (errorCallbacks q ++ map RelayError os)
                   (withRefCount (refCount q + Z.of_nat (length calls)) q)]> (queries w))
         w).
Proof.
  induction calls as [|[e c] calls IH]; intros w a q k Hk Hq Hl Hall; cbv zeta.
  - simpl. rewrite !app_nil_r, Z.add_0_r.
    apply world_ext; wsimpl; try done.
    rewrite list_insert_id; [done|]. rewrite Hq. by destruct q.
  - apply Forall_cons in Hall as [Hec Hall]. simpl in Hec.
    unfold obtain. simpl foldl. fold (obtain stringify calls).
    rewrite (client_useFetch_shared stringify e c w k a Hec Hk).
    rewrite (observer_new_closed a w q Hq).
    unfold isSettled, hasDeliverableError. rewrite Hl. wsimpl.
    set (w1 := Build_World _ _ _ _ _ _ _ _ _).
    change (foldl _ w1 calls) with (obtain stringify calls w1).
    erewrite (IH w1 a _ k); [ | done | subst w1; by_lookup | done | ].
    2:{ eapply Forall_impl; [exact Hall|]. intros [e' c'] H. simpl in *.
        rewrite <- H. by apply keyOf_clientConfig. }
    subst w1. apply world_ext; wsimpl; try done.
    + rewrite list_insert_insert_eq. f_equal.
      rewrite length_app. simpl length.
      replace (length (observers w) + 1)%nat with (S (length (observers w))) by lia.
      unfold withCallbacks, withRefCount. cbn. rewrite <- !app_assoc.
      f_equal. lia.
    + by rewrite <- app_assoc.
    + by rewrite !app_nil_r.
Qed.

Lemma subscribe_fresh a q tags : ∀ pre w,
  queries w !! a = Some q → isLoading (resultState q) = true →
  observers w = pre ++ replicate (length tags) (freshObserver a) →
  subscribe (zip (seq (length pre) (length tags)) tags) w
  = setObservers (pre ++ map (subscribed a) tags) w.
Proof.
  induction tags as [|tag tags IH]; intros pre w Hq Hl Hobs.
  - simpl in *. rewrite <- Hobs. by destruct w.
  - simpl in Hobs. simpl zip. unfold subscribe. simpl foldl.
    assert (Ho : observers w !! length pre = Some (freshObserver a)).
    { rewrite Hobs. by apply list_lookup_middle. }
    rewrite (observer_onComplete_closed _ tag _ _ q Ho Hq).
    unfold isSettled. rewrite Hl. wsimpl.
    set (w1 := setMicrotasks _ _).
    change (foldl _ w1 _) with (subscribe (zip (seq (S (length pre)) (length tags)) tags) w1).
    replace (S (length pre)) with (length (pre ++ [subscribed a tag]))
      by (rewrite length_app; simpl; lia).
    rewrite (IH (pre ++ [subscribed a tag]) w1).
    + subst w1. apply world_ext; wsimpl; try done.
      * by rewrite <- app_assoc.
      * by rewrite app_nil_r.
    + done.
    + done.
    + subst w1. wsimpl. rewrite Hobs.
      replace (length pre) with (length pre + 0)%nat by lia.
      rewrite insert_app_r. simpl. by rewrite <- app_assoc.
Qed.

Lemma relay_complete_events a res tags : ∀ pre rest,
  map RelayComplete (seq (length pre) (length tags))
    ≫= completeEvents (pre ++ map (subscribed a) tags ++ rest) res
  = map (λ tag, CalledComplete tag res) tags.
Proof.
  induction tags as [|tag tags IH]; intros pre rest; [done|].
  cbn [length seq map]. rewrite bind_cons. cbn [completeEvents app].
  rewrite (list_lookup_middle pre _ (subscribed a tag) (length pre)) by done.
  cbn [subscribed isObserverCanceled wrappedCompleteCallbacks map app]. f_equal.
  replace (S (length pre)) with (length (pre ++ [subscribed a tag]))
    by (rewrite length_app; simpl; lia).
  specialize (IH (pre ++ [subscribed a tag]) rest).
  rewrite <- app_assoc in IH. exact IH.
Qed.

Lemma relay_error_events a err tags : ∀ pre rest,
  map RelayError (seq (length pre) (length tags))
    ≫= errorEvents (pre ++ map (subscribed a) tags ++ rest) err
  = [].
Proof.
  induction tags as [|tag tags IH]; intros pre rest; [done|].
  cbn [length seq map]. rewrite bind_cons. cbn [errorEvents app].
  rewrite (list_lookup_middle pre _ (subscribed a tag) (length pre)) by done.
  cbn [subscribed isObserverCanceled wrappedErrorCallbacks map app].
  replace (S (length pre)) with (length (pre ++ [subscribed a tag]))
    by (rewrite length_app; simpl; lia).
  specialize (IH (pre ++ [subscribed a tag]) rest).
  rewrite <- app_assoc in IH. exact IH.
Qed.


(** What a settlement does, whatever the outcome. *)
Lemma resume_effect x out w ex q :
  executions w !! x = Some ex → outcome ex = None →
  queries w !! owner ex = Some q →
  ∃ r es,
    isLoading r = false
    ∧ (es = [] ∨ ∃ e', es = errorCallbacks q ≫= errorEvents (observers w) e')
    ∧ queries (ActiveQuery.resume x out w)
      = <[owner ex := withCallbacks [] [] (withResultState r q)]> (queries w)
    ∧ observers (ActiveQuery.resume x out w) = observers w
    ∧ trace (ActiveQuery.resume x out w)
      = trace w ++ es ++ (completeCallbacks q ≫= completeEvents (observers w) r).
Proof.
  intros Hx Hout Hq.
  destruct out as [d|err].
  - destruct (aborted (signal ex) w) eqn:Hab.
    + rewrite (resume_aborted _ d _ _ Hx Hout Hab).
      rewrite (updExecution_lookup _ _ _ _ Hx).
      erewrite onCatch_closed; [ | by_lookup | by_lookup ].
      wsimpl. eexists _, _. split; [|split; [|split; [reflexivity|split; reflexivity]]].
      * by destruct (classifyFailure _ _ _ _).
      * destruct (classifyFailure _ _ _ _); wsimpl; eauto.
    + rewrite (resume_success_closed _ d _ _ _ Hx Hout Hq Hab). wsimpl.
      exists (withLoading false (withData d (resultState q))), [].
      split; [done|]. split; [by left|]. done.
  - rewrite (resume_raises _ err _ _ Hx Hout).
    rewrite (onCatch_closed _ err _ _ _ Hx Hq). wsimpl.
    eexists _, _. split; [|split; [|split; [reflexivity|split; reflexivity]]].
    + by destruct (classifyFailure _ _ _ _).
    + destruct (classifyFailure _ _ _ _); wsimpl; eauto.
Qed.

(** A run nobody chained a reaction on queues nothing when it settles. *)
Lemma resume_queues_nothing x out w ex q :
  executions w !! x = Some ex → outcome ex = None →
  queries w !! owner ex = Some q → reactions ex = [] →
  microtasks (ActiveQuery.resume x out w) = microtasks w.
Proof.
  intros Hx Hout Hq Hre.
  destruct out as [d|err].
  - destruct (aborted (signal ex) w) eqn:Hab.
    + rewrite (resume_aborted _ d _ _ Hx Hout Hab).
      rewrite (updExecution_lookup _ _ _ _ Hx).
      erewrite onCatch_closed; [ | by_lookup | by_lookup ].
      wsimpl. rewrite Hre. simpl. by rewrite app_nil_r.
    + rewrite (resume_success_closed _ d _ _ _ Hx Hout Hq Hab). wsimpl.
      rewrite Hre. simpl. by rewrite app_nil_r.
  - rewrite (resume_raises _ err _ _ Hx Hout).
    rewrite (onCatch_closed _ err _ _ _ Hx Hq). wsimpl.
    rewrite Hre. simpl. by rewrite app_nil_r.
Qed.

Lemma fanout_from_shape stringify (started : World) (pre : list QueryObserver)
    (k : string) (a x : nat) (q1 : ActiveQuery) (ex : Execution)
    (rest : list (EndpointArg * QueryConfig)) (tags : list nat) (out : Outcome) :
  queries started !! a = Some q1 → isLoading (resultState q1) = true →
  activeQueries started !! k = Some a →
  executions started !! x = Some ex → owner ex = a → outcome ex = None →
  reactions ex = [] →
  observers started = pre ++ [freshObserver a] →
  errorCallbacks q1 = [RelayError (length pre)] →
  (∀ obs r, completeCallbacks q1 ≫= completeEvents obs r
            = completeEvents obs r (RelayComplete (length pre))) →
  Forall (λ ec, EqueryClient.keyOf stringify ec.1 ec.2 started = Some k) rest →
  length tags = S (length rest) →
  let w1 := obtain stringify rest started in
  let w2 := subscribe (zip (seq (length pre) (S (length rest))) tags) w1 in
  let w3 := ActiveQuery.resume x out w2 in
  observers w3 = pre ++ map (subscribed a) tags
  ∧ activeQueries w1 !! k = Some a
  ∧ microtasks w3 = microtasks started
  ∧ ∃ r, resultState <$> queries w3 !! a = Some r ∧ isLoading r = false
         ∧ trace w3 = trace started ++ map (λ tag, CalledComplete tag r) tags.
Proof.
  intros Hq Hl Hk Hx Hown Hout Hre Hobs Herr Hcomp Hall Hlen. cbv zeta.
  assert (Hlt : (a < length (queries started))%nat) by by eapply lookup_lt_Some.
  rewrite (obtain_shared stringify rest started a q1 k Hk Hq Hl Hall).
  set (q2 := withCallbacks _ _ _).
  set (w1 := setObservers _ _).
  assert (Hq2 : queries w1 !! a = Some q2).
  { subst w1. wsimpl. by rewrite list_lookup_insert_eq. }
  assert (Hl2 : isLoading (resultState q2) = true) by done.
  rewrite <- Hlen.
  rewrite (subscribe_fresh a q2 tags pre w1 Hq2 Hl2).
  2:{ subst w1. wsimpl. rewrite Hobs, Hlen, <- app_assoc. done. }
  set (w2 := setObservers _ w1).
  assert (Hx2 : executions w2 !! x = Some ex) by done.
  assert (Hq2' : queries w2 !! owner ex = Some q2) by (by rewrite Hown).
  destruct (resume_effect x out w2 ex q2 Hx2 Hout Hq2')
    as (r & es & Hr & Hes & Hqs & Hos & Htr).
  split; [by rewrite Hos|]. split; [done|].
  split; [by rewrite (resume_queues_nothing x out w2 ex q2 Hx2 Hout Hq2' Hre)|].
  exists r. rewrite Hqs, Hown, Htr. split; [|split; [done|]].
  - subst w2 w1. wsimpl. rewrite list_insert_insert_eq.
    by rewrite list_lookup_insert_eq.
  - assert (Hsame : trace w2 = trace started) by done. rewrite Hsame. f_equal.
    assert (Hobs2 : observers w2 = pre ++ map (subscribed a) tags ++ []).
    { subst w2. wsimpl. by rewrite app_nil_r. }
    rewrite Hobs2.
    assert (Hnext : length (observers started) = S (length pre)).
    { rewrite Hobs, length_app. simpl. lia. }
    assert (Hes' : es = []).
    { destruct Hes as [->|[e' ->]]; [done|]. rewrite Hobs2.
      subst q2. wsimpl. rewrite Herr, Hnext.
      change ([RelayError (length pre)] ++ map RelayError (seq (S (length pre)) (length rest)))
        with (map RelayError (seq (length pre) (S (length rest)))).
      rewrite <- Hlen. apply relay_error_events. }
    rewrite Hes'. simpl app.
    subst q2. wsimpl. rewrite bind_app, Hcomp, Hnext.
    rewrite <- (relay_complete_events a r tags pre []). rewrite Hlen.
    cbn [seq map]. by rewrite bind_cons.
Qed.

Lemma evict_is_silent obs r k cbs :
  (EvictKey k :: cbs) ≫= completeEvents obs r = cbs ≫= completeEvents obs r.
Proof. by rewrite bind_cons. Qed.

(** A manual operation starts: the wrapper registers it, then executes. *)
Lemma manual_start_closed stringify e c w k :
  EqueryClient.keyOf stringify e c w = Some k → activeQueries w !! k = None →
  enabledNotFalse (mergedOf c w) = false →
  throwing w (finalOf e c w) = None →
  let a := length (queries w) in
  let o := length (observers w) in
  QueryObserver.execute o (EqueryClient.useFetch stringify e c w).1 =
    {| queries := queries w ++
         [withRun (length (controllers w)) (length (executions w))
            (withResultState (withCanceled false (withLoading true initialResult))
               (withCallbacks [RelayComplete o; EvictKey k] [RelayError o]
                  (withRefCount 1
                     (withLazyKey (Some k) (idleQuery (finalOf e c w) (mergedOf c w))))))];
       observers := observers w ++ [freshObserver a];
       controllers := controllers w ++ [false];
       executions := executions w ++ [freshRun a (length (controllers w)) (mergedOf c w)];
       clientConfig := clientConfig w;
       activeQueries := <[k := a]> (activeQueries w);
       microtasks := microtasks w;
       trace := trace w ++ [Invoked a];
       throwing := throwing w |}.
Proof.
  intros Hk Hfree He Hret. cbv zeta.
  rewrite (client_useFetch_manual_closed stringify e c w k Hk Hfree He). wsimpl.
  unfold QueryObserver.execute. store_simpl.
  unfold ActiveQuery.callExecute. store_simpl. rewrite Hfree. wsimpl.
  erewrite onComplete_closed by by_lookup. store_simpl.
  erewrite execute_closed; [ | by_lookup | done | done ].
  store_simpl. apply world_ext; wsimpl; try done.
  by rewrite app_nil_r.
Qed.

Lemma deliveries_map_other tag r tags :
  tag ∉ tags → deliveries tag (map (λ t, CalledComplete t r) tags) = [].
Proof.
  induction tags as [|t tags IH]; [done|]. intros Hnot.
  apply not_elem_of_cons in Hnot as [Hne Hnot]. simpl.
  destruct (Nat.eqb_spec tag t); [done|]. by apply IH.
Qed.

Lemma deliveries_map_once tag r tags :
  NoDup tags → tag ∈ tags → deliveries tag (map (λ t, CalledComplete t r) tags) = [r].
Proof.
  induction tags as [|t tags IH]; intros Hnd Hin; [by apply elem_of_nil in Hin|].
  apply NoDup_cons in Hnd as [Hnot Hnd]. simpl.
  destruct (Nat.eqb_spec tag t) as [->|Hne].
  - by rewrite deliveries_map_other.
  - apply elem_of_cons in Hin as [?|Hin]; [done|]. by apply IH.
Qed.

Lemma allInvocations_deliveries r tags :
  allInvocations (map (λ t, CalledComplete t r) tags) = 0%nat.
Proof. unfold allInvocations. by induction tags. Qed.

(** C1.  A call creates and registers the operation of a key (at once when
    enabled, at its [execute()] when manual) and the call of the unit of
    work returns, so that the operation is in flight; any number of further
    observers are obtained for that key while it is registered and not
    settled; every observer registers a completion callback; the work
    settles, with any outcome.  Then every observer wraps the one operation,
    the unit of work has been called exactly once, and each callback has
    been called exactly once, with the terminal snapshot of the operation:
    once inside the settlement, and never again, because the whole scenario
    has put nothing on the microtask queue. *)
Theorem C1_observers_share_one_operation
    (stringify : JVal → string) (w : World) (k : string)
    (e0 : EndpointArg) (c0 : QueryConfig)
    (rest : list (EndpointArg * QueryConfig)) (tags : list nat) (out : Outcome) :
  EqueryClient.keyOf stringify e0 c0 w = Some k → activeQueries w !! k = None →
  throwing w (finalOf e0 c0 w) = None →
  Forall (λ ec, EqueryClient.keyOf stringify ec.1 ec.2 w = Some k) rest →
  length tags = S (length rest) → NoDup tags →
  let a := length (queries w) in
  let x := length (executions w) in
  let o0 := length (observers w) in
  let os := seq o0 (S (length rest)) in
  let created := (EqueryClient.useFetch stringify e0 c0 w).1 in
  let started :=
    if enabledNotFalse (mergedOf c0 w) then created else QueryObserver.execute o0 created in
  let w1 := obtain stringify rest started in
  let w2 := subscribe (zip os tags) w1 in
  let w3 := ActiveQuery.resume x out w2 in
  activeQueries started !! k = Some a
  ∧ activeQueries w1 !! k = Some a
  ∧ (∀ o, o ∈ os → QueryObserver.getQueryId o w3 = Some a)
  ∧ ∃ r new,
      resultState <$> queries w3 !! a = Some r ∧ isLoading r = false
      ∧ trace w3 = trace w ++ new
      ∧ new = Invoked a :: map (λ tag, CalledComplete tag r) tags
      ∧ allInvocations new = 1%nat
      ∧ (∀ tag, tag ∈ tags → deliveries tag new = [r])
      ∧ microtasks w3 = microtasks w
      ∧ (microtasks w = [] → trace (drain w3) = trace w ++ new).
Proof.
  intros Hk Hfree Hret Hall Hlen Hnd. cbv zeta.
  set (a := length (queries w)).
  set (started := if enabledNotFalse (mergedOf c0 w) then _ else _).
  assert (Hshape : ∃ q1,
    queries started = queries w ++ [q1] ∧ isLoading (resultState q1) = true
    ∧ activeQueries started = <[k := a]> (activeQueries w)
    ∧ executions started
      = executions w ++ [freshRun a (length (controllers w)) (mergedOf c0 w)]
    ∧ observers started = observers w ++ [freshObserver a]
    ∧ errorCallbacks q1 = [RelayError (length (observers w))]
    ∧ (∀ obs r, completeCallbacks q1 ≫= completeEvents obs r
                = completeEvents obs r (RelayComplete (length (observers w))))
    ∧ clientConfig started = clientConfig w
    ∧ trace started = trace w ++ [Invoked a]
    ∧ microtasks started = microtasks w).
  { subst started. unfold a. destruct (enabledNotFalse (mergedOf c0 w)) eqn:He.
    - rewrite (client_useFetch_enabled_closed stringify e0 c0 w k Hk Hfree He Hret). wsimpl.
      eexists. repeat split. intros obs r. wsimpl.
      by rewrite evict_is_silent, bind_singleton.
    - rewrite (manual_start_closed stringify e0 c0 w k Hk Hfree He Hret).
      eexists. repeat split. intros obs r. wsimpl.
      rewrite bind_cons, evict_is_silent. by rewrite app_nil_r. }
  destruct Hshape as (q1 & Hqs & Hl & Hreg & Hexs & Hobs & Herr & Hcomp & Hcfg & Htr & Hmt).
  assert (Hq1 : queries started !! a = Some q1).
  { rewrite Hqs. apply lookup_snoc_length. }
  assert (Hk1 : activeQueries started !! k = Some a).
  { rewrite Hreg. apply lookup_insert_eq. }
  assert (Hx1 : executions started !! length (executions w)
                = Some (freshRun a (length (controllers w)) (mergedOf c0 w))).
  { rewrite Hexs. apply lookup_snoc_length. }
  assert (Hall' : Forall (λ ec, EqueryClient.keyOf stringify ec.1 ec.2 started = Some k) rest).
  { eapply Forall_impl; [exact Hall|]. intros ec H. simpl in *.
    rewrite <- H. by apply keyOf_clientConfig. }
  destruct (fanout_from_shape stringify started (observers w) k a (length (executions w))
              q1 _ rest tags out Hq1 Hl Hk1 Hx1 eq_refl eq_refl eq_refl Hobs Herr Hcomp
              Hall' Hlen)
    as (Hobs3 & Hk3 & Hmt3 & r & Hr & Hlr & Htr3).
  split; [done|]. split; [done|]. split.
  - intros o Ho. apply elem_of_seq in Ho as [Hlo Hhi].
    unfold QueryObserver.getQueryId. rewrite Hobs3.
    rewrite lookup_app_r by done.
    rewrite list_lookup_fmap.
    destruct (tags !! (o - length (observers w))%nat) as [tag|] eqn:Htag; [done|].
    apply lookup_ge_None in Htag. lia.
  - exists r, (Invoked a :: map (λ tag, CalledComplete tag r) tags).
    repeat split; try done.
    + rewrite Htr3, Htr, <- app_assoc. done.
    + change (Invoked a :: ?l) with ([Invoked a] ++ l).
      by rewrite allInvocations_app, allInvocations_deliveries.
    + intros tag Hin. simpl. by apply deliveries_map_once.
    + by rewrite Hmt3.
    + intros Hempty. rewrite drain_nil by (by rewrite Hmt3, Hmt).
      rewrite Htr3, Htr, <- app_assoc. done.
Qed.

Lemma C1_observers_share_one_operation_witness :
  let w0 := newWorld emptyConfig in
  let w3 :=
    ActiveQuery.resume 0 (Fulfils (JStr "data"))
      (subscribe (zip (seq 0 3) [11; 12; 13]%nat)
         (obtain demoStringify [sharedCall; sharedCall]
            (EqueryClient.useFetch demoStringify sharedCall.1 sharedCall.2 w0).1)) in
  (∀ o, o ∈ seq 0 3 → QueryObserver.getQueryId o w3 = Some 0%nat)
  ∧ ∃ r new,
      resultState <$> queries w3 !! 0%nat = Some r ∧ isLoading r = false
      ∧ trace w3 = trace w0 ++ new
      ∧ new = Invoked 0 :: map (λ tag, CalledComplete tag r) [11; 12; 13]%nat
      ∧ allInvocations new = 1%nat
      ∧ (∀ tag, tag ∈ [11; 12; 13]%nat → deliveries tag new = [r])
      ∧ microtasks w3 = []
      ∧ trace (drain w3) = trace w0 ++ new.
Proof.
  cbv zeta.
  assert (Hnd : NoDup [11; 12; 13]%nat) by (apply (bool_decide_unpack _); by vm_compute).
  assert (Hall : Forall
    (λ ec, EqueryClient.keyOf demoStringify ec.1 ec.2 (newWorld emptyConfig)
           = Some "mem-leak-test") [sharedCall; sharedCall])
    by (by repeat constructor).
  destruct (C1_observers_share_one_operation demoStringify (newWorld emptyConfig)
              "mem-leak-test" sharedCall.1 sharedCall.2 [sharedCall; sharedCall]
              [11; 12; 13]%nat (Fulfils (JStr "data")) eq_refl eq_refl eq_refl Hall eq_refl Hnd)
    as (_ & _ & Hids & r & new & H1 & H2 & H3 & H4 & H5 & H6 & H7 & H8).
  split; [exact Hids|].
  exists r, new.
  exact (conj H1 (conj H2 (conj H3 (conj H4 (conj H5 (conj H6 (conj H7 (H8 eq_refl)))))))).
Defined.

(** ** The reference count in reachable states *)

Lemma live_app a hs1 hs2 : live a (hs1 ++ hs2) = (live a hs1 + live a hs2)%nat.
Proof. unfold live. by rewrite filter_app, length_app. Qed.

Lemma live_none a hs : Forall (λ h, h.1 ≠ a) hs → live a hs = 0%nat.
Proof.
  unfold live. induction 1 as [|[a' b] hs Hne _ IH]; [done|].
  rewrite filter_cons_False; [done|]. intros [= -> _]. by apply Hne.
Qed.

Lemma live_insert_cancel a o hs a' :
  hs !! o = Some (a, false) →
  live a' (<[o := (a, true)]> hs)
  = if decide (a' = a) then (live a' hs - 1)%nat else live a' hs.
Proof.
  revert o. induction hs as [|h hs IH]; intros [|o] Ho; simplify_eq/=.
  - unfold live. rewrite filter_cons_False by (by intros [= _ ?]).
    destruct (decide (a' = a)) as [->|Hne].
    + rewrite filter_cons_True by done. simpl. lia.
    + rewrite filter_cons_False; [done|]. by intros [= ->].
  - specialize (IH o Ho). unfold live in *.
    destruct (decide (h = (a', false))) as [->|Hh].
    + rewrite !filter_cons_True by done. simpl. rewrite IH.
      destruct (decide (a' = a)) as [->|]; [|done].
      assert (0 < length (filter (λ h, h = (a, false)) hs))%nat; [|lia].
      apply list_elem_of_lookup_2 in Ho.
      assert (Hin : (a, false) ∈ filter (λ h, h = (a, false)) hs)
        by by apply list_elem_of_filter.
      destruct (filter _ hs); [by apply elem_of_nil in Hin|simpl; lia].
    + rewrite !filter_cons_False by done. exact IH.
Qed.

Lemma live_positive a o hs : hs !! o = Some (a, false) → (0 < live a hs)%nat.
Proof.
  intros Ho. apply list_elem_of_lookup_2 in Ho.
  assert (Hin : (a, false) ∈ filter (λ h, h = (a, false)) hs)
    by by apply list_elem_of_filter.
  unfold live. destruct (filter _ hs); [by apply elem_of_nil in Hin|simpl; lia].
Qed.

Lemma live_single a a' :
  live a' [(a, false)] = if decide (a' = a) then 1%nat else 0%nat.
Proof.
  unfold live. destruct (decide (a' = a)) as [->|Hne].
  - by rewrite filter_cons_True.
  - rewrite filter_cons_False; [done|]. by intros [= ->].
Qed.

Lemma consistent_registry rs fs hs nc ows reg reg' :
  consistent rs fs hs nc ows reg →
  map_Forall (λ _ a, (a < length rs)%nat) reg' →
  consistent rs fs hs nc ows reg'.
Proof. intros (H1 & H2 & H3 & H4 & _ & H6) H. by repeat split. Qed.

Lemma consistent_flight rs fs hs nc ows reg a f nc' ows' :
  consistent rs fs hs nc ows reg →
  (f.1 = true → ∃ c, f.2 = Some c ∧ (c < nc')%nat) →
  (nc ≤ nc')%nat → Forall (λ a, (a < length rs)%nat) ows' →
  consistent rs (<[a := f]> fs) hs nc' ows' reg.
Proof.
  intros (H1 & H2 & H3 & H4 & H5 & H6) Hf Hnc Hows. repeat split; try done.
  - by rewrite length_insert.
  - intros a' oc Ha'. destruct (decide (a = a')) as [->|Hne].
    + apply list_lookup_insert_Some in Ha' as [(_ & -> & _)|[? _]]; [|done].
      by apply Hf.
    + rewrite list_lookup_insert_ne in Ha' by done.
      destruct (H4 a' oc Ha') as (c & -> & Hc). exists c. split; [done|lia].
Qed.

Lemma consistent_attach rs fs hs nc ows reg a rc :
  consistent rs fs hs nc ows reg → rs !! a = Some rc →
  consistent (<[a := rc + 1]> rs) fs (hs ++ [(a, false)]) nc ows reg.
Proof.
  intros (H1 & H2 & H3 & H4 & H5 & H6) Ha.
  assert (Hlt : (a < length rs)%nat) by by eapply lookup_lt_Some.
  repeat split; rewrite ?length_insert; try done.
  - apply Forall_app. split; [done|]. by repeat constructor.
  - intros a' rc' Ha'. rewrite live_app.
    destruct (decide (a = a')) as [<-|Hne].
    + rewrite list_lookup_insert_eq in Ha' by done. simplify_eq.
      rewrite (H3 a rc Ha), live_single, decide_True by done. lia.
    + rewrite list_lookup_insert_ne in Ha' by done.
      rewrite (H3 a' rc' Ha'), live_single, decide_False by done. lia.
Qed.

Lemma consistent_cancel rs fs hs nc ows reg a o rc nc' :
  consistent rs fs hs nc ows reg → hs !! o = Some (a, false) → rs !! a = Some rc →
  (nc ≤ nc')%nat →
  consistent (<[a := rc - 1]> rs) fs (<[o := (a, true)]> hs) nc' ows reg.
Proof.
  intros (H1 & H2 & H3 & H4 & H5 & H6) Ho Ha Hnc.
  assert (Hlt : (a < length rs)%nat) by by eapply lookup_lt_Some.
  repeat split; rewrite ?length_insert; try done.
  - apply Forall_insert; [done|]. done.
  - intros a' rc' Ha'. rewrite (live_insert_cancel a o hs a' Ho).
    destruct (decide (a' = a)) as [->|Hne].
    + rewrite list_lookup_insert_eq in Ha' by done. simplify_eq.
      rewrite (H3 a rc Ha). pose proof (live_positive a o hs Ho). lia.
    + rewrite list_lookup_insert_ne in Ha' by done. by apply H3.
  - intros a' oc Ha'. destruct (H4 a' oc Ha') as (c & -> & Hc).
    exists c. split; [done|lia].
Qed.

Lemma consistent_spawn rs fs hs nc ows reg f nc' ows' :
  consistent rs fs hs nc ows reg →
  (f.1 = true → ∃ c, f.2 = Some c ∧ (c < nc')%nat) →
  (nc ≤ nc')%nat → Forall (λ a, (a < S (length rs))%nat) ows' →
  consistent (rs ++ [1]) (fs ++ [f]) (hs ++ [(length rs, false)]) nc' ows' reg.
Proof.
  intros (H1 & H2 & H3 & H4 & H5 & H6) Hf Hnc Hows.
  assert (Hlen : length (rs ++ [1]) = S (length rs)) by (rewrite length_app; simpl; lia).
  repeat split; rewrite ?Hlen.
  - rewrite !length_app. simpl. lia.
  - apply Forall_app. split.
    + eapply Forall_impl; [exact H2|]. simpl. intros; lia.
    + by repeat constructor.
  - intros a rc Ha. rewrite live_app.
    apply lookup_app_Some in Ha as [Ha|[Hge Ha]].
    + assert (Hlt : (a < length rs)%nat) by by eapply lookup_lt_Some.
      rewrite (H3 a rc Ha), live_single, decide_False by lia. lia.
    + destruct (a - length rs)%nat as [|n] eqn:Hn; [|by destruct n].
      simpl in Ha. simplify_eq. assert (a = length rs) as -> by lia.
      rewrite live_single, decide_True by done. rewrite live_none; [done|].
      eapply Forall_impl; [exact H2|]. simpl. intros; lia.
  - intros a oc Ha. apply lookup_app_Some in Ha as [Ha|[Hge Ha]].
    + destruct (H4 a oc Ha) as (c & -> & Hc). exists c. split; [done|lia].
    + destruct (a - length fs)%nat as [|n] eqn:Hn; [|by destruct n].
      simpl in Ha. simplify_eq. by apply (Hf eq_refl).
  - eapply map_Forall_impl; [exact H5|]. simpl. intros; lia.
  - done.
Qed.

(** *** Steps that leave the counts alone *)

Lemma neutral_refl w : neutral w w.
Proof. by repeat split. Qed.

Lemma neutral_Inv w w' : neutral w w' → Inv w → Inv w'.
Proof.
  intros (H1 & H2 & H3 & H4 & H5 & H6) HI. unfold Inv in *.
  rewrite H1, H2, H3, H4, H5.
  eapply consistent_registry; [exact HI|].
  destruct HI as (_ & _ & _ & _ & Hreg & _).
  intros k a Hk. apply (Hreg k a). by eapply lookup_weaken.
Qed.

Lemma fmap_alter_neutral {A B} (f : A → B) (g : A → A) (i : nat) (l : list A) :
  (∀ x, f (g x) = f x) → f <$> alter g i l = f <$> l.
Proof.
  intros H. apply list_eq. intros j. rewrite !list_lookup_fmap.
  destruct (decide (i = j)) as [->|Hne].
  - rewrite list_lookup_alter_eq. destruct (l !! j); simpl; [|done]. by rewrite H.
  - by rewrite list_lookup_alter_ne.
Qed.

Lemma neutral_updQuery w X a f :
  (∀ q, refCount (f q) = refCount q) → (∀ q, flightOf (f q) = flightOf q) →
  neutral w X → neutral w (updQuery a f X).
Proof.
  intros Hr Hf (H1 & H2 & H3 & H4 & H5 & H6). repeat split; try done.
  - unfold refs, updQuery. wsimpl. by rewrite fmap_alter_neutral.
  - unfold flights, updQuery. wsimpl. by rewrite fmap_alter_neutral.
Qed.

Lemma neutral_updObserver w X o f :
  (∀ ob, handleOf (f ob) = handleOf ob) →
  neutral w X → neutral w (updObserver o f X).
Proof.
  intros Hh (H1 & H2 & H3 & H4 & H5 & H6). repeat split; try done.
  unfold handles, updObserver. wsimpl. by rewrite fmap_alter_neutral.
Qed.

Lemma neutral_updExecution w X x f :
  (∀ ex, owner (f ex) = owner ex) →
  neutral w X → neutral w (updExecution x f X).
Proof.
  intros Ho (H1 & H2 & H3 & H4 & H5 & H6). repeat split; try done.
  unfold owners, updExecution. wsimpl. by rewrite fmap_alter_neutral.
Qed.

Lemma neutral_defer w X t : neutral w X → neutral w (defer t X).
Proof. intros (H1 & H2 & H3 & H4 & H5 & H6). by repeat split. Qed.

Lemma neutral_emit w X es : neutral w X → neutral w (emit es X).
Proof. intros (H1 & H2 & H3 & H4 & H5 & H6). by repeat split. Qed.

Lemma neutral_setMicrotasks w X ts : neutral w X → neutral w (setMicrotasks ts X).
Proof. intros (H1 & H2 & H3 & H4 & H5 & H6). by repeat split. Qed.

Lemma neutral_setClientConfig w X c : neutral w X → neutral w (setClientConfig c X).
Proof. intros (H1 & H2 & H3 & H4 & H5 & H6). by repeat split. Qed.

Lemma neutral_abort w X c : neutral w X → neutral w (abort c X).
Proof.
  intros (H1 & H2 & H3 & H4 & H5 & H6). repeat split; try done.
  unfold abort. wsimpl. by rewrite length_insert.
Qed.

Lemma neutral_registry w X m :
  m ⊆ activeQueries X → neutral w X → neutral w (setActiveQueries m X).
Proof.
  intros Hm (H1 & H2 & H3 & H4 & H5 & H6). repeat split; try done.
  wsimpl. by etrans.
Qed.

Lemma evict_subseteq m cbs : foldl evict m cbs ⊆ m.
Proof.
  revert m. induction cbs as [|cb cbs IH]; intros m; [done|]. simpl.
  etrans; [apply IH|]. destruct cb; simpl; try done. apply delete_subseteq.
Qed.

Lemma neutral_callComplete w X cb res : neutral w X → neutral w (callComplete cb res X).
Proof.
  intros H. rewrite callComplete_emit.
  apply neutral_registry; [|by apply neutral_emit].
  wsimpl. destruct cb; simpl; try done. apply delete_subseteq.
Qed.

Lemma neutral_callError w X cb err : neutral w X → neutral w (callError cb err X).
Proof. intros H. rewrite callError_emit. by apply neutral_emit. Qed.

Lemma neutral_notifyError w X a err : neutral w X → neutral w (ActiveQuery.notifyError a err X).
Proof.
  intros H. unfold ActiveQuery.notifyError. destruct (queries X !! a); [|done].
  rewrite foldl_callError. by apply neutral_emit.
Qed.

Lemma neutral_notifyComplete w X a : neutral w X → neutral w (ActiveQuery.notifyComplete a X).
Proof.
  intros H. unfold ActiveQuery.notifyComplete. destruct (queries X !! a); [|done].
  apply neutral_updQuery; [done|done|]. rewrite foldl_callComplete.
  apply neutral_registry; [|by apply neutral_emit]. wsimpl. apply evict_subseteq.
Qed.

Lemma neutral_fulfil w X x : neutral w X → neutral w (ActiveQuery.fulfil x X).
Proof.
  intros H. unfold ActiveQuery.fulfil.
  destruct (executions X !! x); [|done]. destruct (queries X !! _); [|done].
  apply neutral_setMicrotasks. by apply neutral_updExecution.
Qed.

Lemma neutral_onComplete w X a cb : neutral w X → neutral w (ActiveQuery.onComplete a cb X).
Proof.
  intros H. unfold ActiveQuery.onComplete.
  assert (Hu : neutral w (updQuery a
    (λ q, withCallbacks (completeCallbacks q ++ [cb]) (errorCallbacks q) q) X))
    by by apply neutral_updQuery.
  destruct (queries _ !! a); [|done].
  destruct (isSettled _); [by apply neutral_defer|done].
Qed.

Lemma neutral_onError w X a cb : neutral w X → neutral w (ActiveQuery.onError a cb X).
Proof.
  intros H. unfold ActiveQuery.onError.
  assert (Hu : neutral w (updQuery a
    (λ q, withCallbacks (completeCallbacks q) (errorCallbacks q ++ [cb]) q) X))
    by by apply neutral_updQuery.
  destruct (queries _ !! a); [|done].
  destruct (hasDeliverableError _); [by apply neutral_defer|done].
Qed.

Lemma neutral_observer_onComplete w o tag : neutral w (QueryObserver.onComplete o tag w).
Proof.
  unfold QueryObserver.onComplete. destruct (observers w !! o); [|apply neutral_refl].
  assert (Hu : neutral w (updObserver o
    (λ ob, QueryObserver.withWrapped (wrappedCompleteCallbacks ob ++ [tag])
             (wrappedErrorCallbacks ob) ob) w))
    by (apply neutral_updObserver; [done|apply neutral_refl]).
  destruct (_ && _); [by apply neutral_defer|done].
Qed.

Lemma neutral_observer_onError w o tag : neutral w (QueryObserver.onError o tag w).
Proof.
  unfold QueryObserver.onError. destruct (observers w !! o); [|apply neutral_refl].
  assert (Hu : neutral w (updObserver o
    (λ ob, QueryObserver.withWrapped (wrappedCompleteCallbacks ob)
             (wrappedErrorCallbacks ob ++ [tag]) ob) w))
    by (apply neutral_updObserver; [done|apply neutral_refl]).
  destruct (_ && _); [by apply neutral_defer|done].
Qed.

Lemma neutral_chain w o c : neutral w (QueryObserver.chain o c w).1.
Proof.
  unfold QueryObserver.chain. destruct (observers w !! o); [|apply neutral_refl].
  destruct (ActiveQuery.getPromise _ w); [|apply neutral_refl].
  destruct (executions w !! _) as [ex|]; [|apply neutral_refl].
  destruct (outcome ex); simpl.
  - apply neutral_defer, neutral_refl.
  - apply neutral_updExecution; [done|apply neutral_refl].
Qed.

Lemma neutral_timerFires w x : neutral w (ActiveQuery.timerFires x w).
Proof.
  unfold ActiveQuery.timerFires. destruct (executions w !! x) as [ex|]; [|apply neutral_refl].
  destruct (timerPending ex); [|apply neutral_refl].
  assert (Hu : neutral w (updExecution x ActiveQuery.markTimedOut w))
    by (apply neutral_updExecution; [done|apply neutral_refl]).
  destruct (queries _ !! owner ex) as [q|]; [|done].
  destruct (abortController q); [by apply neutral_abort|done].
Qed.

Lemma neutral_tick w : neutral w (tick w).
Proof.
  unfold tick. destruct (microtasks w) as [|t ts]; [apply neutral_refl|].
  assert (Hu : neutral w (setMicrotasks ts w)) by apply neutral_setMicrotasks, neutral_refl.
  destruct t; simpl.
  - destruct (queries _ !! aq); [by apply neutral_callComplete|done].
  - by apply neutral_callError.
  - by apply neutral_emit.
  - by apply neutral_emit.
  - by apply neutral_emit.
  - unfold react. destruct (observers _ !! obs); [|done].
    destruct (QueryObserver.intercept _ _); [|done].
    destruct c; by apply neutral_emit.
Qed.

(** *** Steps that move the counts *)

Lemma fmap_insert_neutral {A B} (f : A → B) (l : list A) (i : nat) (x y : A) :
  l !! i = Some y → f x = f y → f <$> <[i := x]> l = f <$> l.
Proof.
  intros Hi Hf. rewrite list_fmap_insert, Hf. apply list_insert_id.
  by rewrite list_lookup_fmap, Hi.
Qed.

Lemma Inv_query_valid w o ob :
  Inv w → observers w !! o = Some ob → ∃ q, queries w !! activeQuery ob = Some q.
Proof.
  intros (_ & H0 & _) Ho. apply lookup_lt_is_Some_2.
  assert (Hin : handleOf ob ∈ handles w).
  { unfold handles. apply list_elem_of_fmap. exists ob. split; [done|].
    by eapply list_elem_of_lookup_2. }
  rewrite Forall_forall in H0. specialize (H0 _ Hin). simpl in H0.
  unfold refs in H0. by rewrite length_fmap in H0.
Qed.

Lemma Inv_owner_valid w x ex :
  Inv w → executions w !! x = Some ex → ∃ q, queries w !! owner ex = Some q.
Proof.
  intros (_ & _ & _ & _ & _ & H5) Hx. apply lookup_lt_is_Some_2.
  assert (Hin : owner ex ∈ owners w).
  { unfold owners. apply list_elem_of_fmap. exists ex. split; [done|].
    by eapply list_elem_of_lookup_2. }
  rewrite Forall_forall in H5. specialize (H5 _ Hin).
  unfold refs in H5. by rewrite length_fmap in H5.
Qed.

Lemma Inv_registered_valid w k a :
  Inv w → activeQueries w !! k = Some a → ∃ q, queries w !! a = Some q.
Proof.
  intros (_ & _ & _ & _ & H4 & _) Hk. apply lookup_lt_is_Some_2.
  specialize (H4 k a Hk). unfold refs in H4. by rewrite length_fmap in H4.
Qed.

Lemma Inv_launched w a q : Inv w → queries w !! a = Some q → Inv (launched a q w).
Proof.
  intros HI Hq.
  unfold Inv, refs, flights, handles, owners, launched in *. wsimpl.
  rewrite (fmap_insert_neutral refCount _ _ _ q Hq) by done.
  rewrite list_fmap_insert, fmap_app, length_app. simpl.
  eapply consistent_flight; [exact HI | | lia | ].
  - intros _. eexists. split; [reflexivity|]. simpl. lia.
  - apply Forall_app. split; [by destruct HI as (_ & _ & _ & _ & _ & ?)|].
    repeat constructor. rewrite length_fmap. by eapply lookup_lt_Some.
Qed.

Lemma resume_shape x out w ex q :
  executions w !! x = Some ex → outcome ex = None →
  queries w !! owner ex = Some q →
  ∃ r es,
    isLoading r = false
    ∧ ActiveQuery.resume x out w =
        {| queries := <[owner ex := withCallbacks [] [] (withResultState r q)]> (queries w);
           observers := observers w; controllers := controllers w;
           executions :=
             <[x := ActiveQuery.fulfilWith r (ActiveQuery.clearTimer ex)]> (executions w);
           clientConfig := clientConfig w;
           activeQueries := foldl evict (activeQueries w) (completeCallbacks q);
           microtasks := microtasks w ++ map (λ oc, React oc.1 oc.2 r) (reactions ex);
           trace := trace w ++ es;
           throwing := throwing w |}.
Proof.
  intros Hx Hout Hq.
  destruct out as [d|err].
  - destruct (aborted (signal ex) w) eqn:Hab.
    + rewrite (resume_aborted _ d _ _ Hx Hout Hab).
      rewrite (updExecution_lookup _ _ _ _ Hx).
      erewrite onCatch_closed; [ | by_lookup | by_lookup ].
      wsimpl. eexists _, _. split; [|apply world_ext; wsimpl; try reflexivity].
      * by destruct (classifyFailure _ _ _ _).
      * by rewrite list_insert_insert_eq.
    + rewrite (resume_success_closed _ d _ _ _ Hx Hout Hq Hab).
      eexists _, _. split; [|reflexivity]. done.
  - rewrite (resume_raises _ err _ _ Hx Hout).
    rewrite (onCatch_closed _ err _ _ _ Hx Hq).
    eexists _, _. split; [|reflexivity].
    by destruct (classifyFailure _ _ _ _).
Qed.

Lemma Inv_resume w x out : Inv w → Inv (ActiveQuery.resume x out w).
Proof.
  intros HI. destruct (executions w !! x) as [ex|] eqn:Hx.
  2:{ unfold ActiveQuery.resume. by rewrite Hx. }
  destruct (outcome ex) as [r0|] eqn:Hout.
  { unfold ActiveQuery.resume. by rewrite Hx, Hout. }
  destruct (Inv_owner_valid w x ex HI Hx) as [q Hq].
  destruct (resume_shape x out w ex q Hx Hout Hq) as (r & es & Hr & ->).
  unfold Inv, refs, flights, handles, owners in *. wsimpl.
  rewrite (fmap_insert_neutral refCount _ _ _ q Hq) by done.
  rewrite (fmap_insert_neutral owner _ _ _ ex Hx) by done.
  rewrite list_fmap_insert.
  eapply consistent_registry.
  - eapply consistent_flight; [exact HI | | lia | by destruct HI as (_ & _ & _ & _ & _ & ?)].
    unfold flightOf. wsimpl. by rewrite Hr.
  - destruct HI as (_ & _ & _ & _ & Hreg & _).
    intros k a Hk. apply (Hreg k a). eapply lookup_weaken; [exact Hk|apply evict_subseteq].
Qed.

Lemma Inv_execute w a : Inv w → Inv (ActiveQuery.execute a w).
Proof.
  intros HI. destruct (queries w !! a) as [q|] eqn:Hq.
  2:{ unfold ActiveQuery.execute. by rewrite Hq. }
  destruct (isLoading (resultState q) && isSomeb (promise q)) eqn:Hbusy.
  { by rewrite (execute_in_flight a w q Hq Hbusy). }
  destruct (execute_split a w q Hq Hbusy) as [[_ ->]|(err & _ & ->)].
  - by apply Inv_launched.
  - by apply Inv_resume, Inv_launched.
Qed.

Lemma queries_length_resume w x out :
  Inv w → length (queries (ActiveQuery.resume x out w)) = length (queries w).
Proof.
  intros HI. destruct (executions w !! x) as [ex|] eqn:Hx.
  2:{ unfold ActiveQuery.resume. by rewrite Hx. }
  destruct (outcome ex) as [r0|] eqn:Hout.
  { unfold ActiveQuery.resume. by rewrite Hx, Hout. }
  destruct (Inv_owner_valid w x ex HI Hx) as [q Hq].
  destruct (resume_shape x out w ex q Hx Hout Hq) as (r & es & Hr & ->).
  wsimpl. by rewrite length_insert.
Qed.

Lemma queries_length_execute w a :
  Inv w → length (queries (ActiveQuery.execute a w)) = length (queries w).
Proof.
  intros HI. destruct (queries w !! a) as [q|] eqn:Hq.
  2:{ unfold ActiveQuery.execute. by rewrite Hq. }
  destruct (isLoading (resultState q) && isSomeb (promise q)) eqn:Hbusy.
  { by rewrite (execute_in_flight a w q Hq Hbusy). }
  destruct (execute_split a w q Hq Hbusy) as [[_ ->]|(err & _ & ->)].
  - unfold launched. wsimpl. by rewrite length_insert.
  - rewrite queries_length_resume by by apply Inv_launched.
    unfold launched. wsimpl. by rewrite length_insert.
Qed.

Lemma Inv_cancel w o : Inv w → Inv (QueryObserver.cancel o w).
Proof.
  intros HI. destruct (observers w !! o) as [ob|] eqn:Ho.
  2:{ unfold QueryObserver.cancel. by rewrite Ho. }
  destruct (isObserverCanceled ob) eqn:Hc.
  { by rewrite (cancel_canceled o w ob Ho Hc). }
  destruct (Inv_query_valid w o ob HI Ho) as [q Hq].
  rewrite (cancel_closed o w ob q Ho Hc Hq).
  unfold Inv, refs, flights, handles, owners in *. wsimpl.
  rewrite (fmap_insert_neutral flightOf _ _ _ q Hq) by done.
  rewrite !list_fmap_insert.
  eapply consistent_cancel; [exact HI | | | ].
  - rewrite list_lookup_fmap, Ho. simpl. unfold handleOf. by rewrite Hc.
  - by rewrite list_lookup_fmap, Hq.
  - unfold afterRemoveRef. destruct (_ && _); [|done].
    destruct (abortController q); [|done]. by rewrite length_insert.
Qed.

Lemma Inv_attach w a : Inv w → is_Some (queries w !! a) → Inv (QueryObserver.new a w).1.
Proof.
  intros HI [q Hq]. rewrite (observer_new_closed a w q Hq).
  unfold Inv, refs, flights, handles, owners in *. wsimpl.
  rewrite (fmap_insert_neutral flightOf _ _ _ q Hq) by done.
  rewrite list_fmap_insert, fmap_app.
  simpl. eapply consistent_attach; [exact HI|]. by rewrite list_lookup_fmap, Hq.
Qed.

Lemma consistent_alloc rs fs hs nc ows reg oc :
  consistent rs fs hs nc ows reg →
  consistent (rs ++ [0]) (fs ++ [(false, oc)]) hs nc ows reg.
Proof.
  intros (H1 & H2 & H3 & H4 & H5 & H6).
  assert (Hlen : length (rs ++ [0]) = S (length rs)) by (rewrite length_app; simpl; lia).
  repeat split; rewrite ?Hlen.
  - rewrite !length_app. simpl. lia.
  - eapply Forall_impl; [exact H2|]. simpl. intros; lia.
  - intros a rc Ha. apply lookup_app_Some in Ha as [Ha|[Hge Ha]]; [by apply H3|].
    destruct (a - length rs)%nat as [|n] eqn:Hn; [|by destruct n].
    simpl in Ha. simplify_eq. assert (a = length rs) as -> by lia.
    rewrite live_none; [done|].
    eapply Forall_impl; [exact H2|]. simpl. intros; lia.
  - intros a oc' Ha. apply lookup_app_Some in Ha as [Ha|[Hge Ha]]; [by eapply H4|].
    destruct (a - length fs)%nat as [|n] eqn:Hn; [|by destruct n].
    simpl in Ha. simplify_eq.
  - eapply map_Forall_impl; [exact H5|]. simpl. intros; lia.
  - eapply Forall_impl; [exact H6|]. simpl. intros; lia.
Qed.

Lemma Inv_alloc w q :
  Inv w → refCount q = 0 → isLoading (resultState q) = false →
  Inv (setQueries (queries w ++ [q]) w).
Proof.
  intros HI Hr Hl. unfold Inv, refs, flights, handles, owners in *. wsimpl.
  rewrite !fmap_app. simpl. unfold flightOf. rewrite Hr, Hl.
  by apply consistent_alloc.
Qed.

Lemma Inv_new w e c : Inv w → Inv (ActiveQuery.new e c w).1.
Proof.
  intros HI. unfold ActiveQuery.new. cbn [fst].
  assert (Inv (setQueries (queries w ++ [idleQuery e c]) w)) by by apply Inv_alloc.
  destruct (enabledNotFalse c); [by apply Inv_execute|done].
Qed.

Lemma new_valid w e c :
  Inv w → is_Some (queries (ActiveQuery.new e c w).1 !! (ActiveQuery.new e c w).2).
Proof.
  intros HI. unfold ActiveQuery.new. cbn [fst snd].
  apply lookup_lt_is_Some_2.
  assert (Hlen : (length (queries w)
                  < length (queries (setQueries (queries w ++ [idleQuery e c]) w)))%nat).
  { wsimpl. rewrite length_app. simpl. lia. }
  destruct (enabledNotFalse c); [|done].
  rewrite queries_length_execute; [done|]. by apply Inv_alloc.
Qed.

Lemma Inv_useFetch w e c : Inv w → Inv (useFetch e c w).1.
Proof.
  intros HI. unfold useFetch. apply Inv_attach; [by apply Inv_new|by apply new_valid].
Qed.

Lemma Inv_register w k a :
  Inv w → is_Some (queries w !! a) →
  Inv (setActiveQueries (<[k := a]> (activeQueries w)) w).
Proof.
  intros HI Ha. unfold Inv in *. wsimpl.
  eapply consistent_registry; [exact HI|].
  destruct HI as (_ & _ & _ & _ & Hreg & _).
  apply map_Forall_insert_2; [|done].
  unfold refs. rewrite length_fmap. by apply lookup_lt_is_Some_1.
Qed.

Lemma queries_length_onComplete a cb w :
  length (queries (ActiveQuery.onComplete a cb w)) = length (queries w).
Proof.
  unfold ActiveQuery.onComplete.
  assert (Hu : length (queries (updQuery a
    (λ q, withCallbacks (completeCallbacks q ++ [cb]) (errorCallbacks q) q) w))
    = length (queries w)) by (unfold updQuery; wsimpl; by rewrite length_alter).
  destruct (queries _ !! a); [|done]. by destruct (isSettled _).
Qed.

Lemma Inv_client_useFetch stringify w e c :
  Inv w → Inv (EqueryClient.useFetch stringify e c w).1.
Proof.
  intros HI. unfold EqueryClient.useFetch. cbv zeta.
  set (merged := mergeConfig (clientConfig w) c).
  set (final := finalEndpoint merged (actualEndpoint e)).
  destruct (EqueryClient.cacheKey stringify merged (definitionKey e) final) as [k|] eqn:Hk;
    cbn [mbind option_bind].
  - destruct (activeQueries w !! k) as [a|] eqn:Ha.
    + apply Inv_attach; [done|]. by eapply Inv_registered_valid.
    + pose proof (Inv_new w final merged HI) as HIn.
      pose proof (new_valid w final merged HI) as Hv.
      destruct (enabledNotFalse merged).
      * apply Inv_attach.
        -- eapply neutral_Inv; [apply neutral_onComplete, neutral_refl|].
           by apply Inv_register.
        -- apply lookup_lt_is_Some_2. rewrite queries_length_onComplete.
           by apply lookup_lt_is_Some_1.
      * apply Inv_attach.
        -- eapply neutral_Inv; [|exact HIn].
           apply neutral_updQuery; [done|done|apply neutral_refl].
        -- apply lookup_lt_is_Some_2. unfold updQuery. wsimpl. rewrite length_alter.
           by apply lookup_lt_is_Some_1.
  - apply Inv_attach; [by apply Inv_new|by apply new_valid].
Qed.

Lemma Inv_observer_execute w o : Inv w → Inv (QueryObserver.execute o w).
Proof.
  intros HI. unfold QueryObserver.execute.
  destruct (observers w !! o) as [ob|] eqn:Ho; [|done].
  destruct (Inv_query_valid w o ob HI Ho) as [q Hq].
  unfold ActiveQuery.callExecute. rewrite Hq.
  destruct (lazyKey q) as [k|]; [|by apply Inv_execute].
  destruct (isSomeb _); [by apply Inv_execute|].
  apply Inv_execute. eapply neutral_Inv; [apply neutral_onComplete, neutral_refl|].
  by apply Inv_register.
Qed.

Lemma Inv_newWorld c : Inv (newWorld c).
Proof.
  unfold Inv, consistent, refs, flights, handles, owners. simpl.
  repeat split; try done; try by constructor.
Qed.

Lemma Inv_step stringify w act : Inv w → Inv (step stringify w act).
Proof.
  intros HI. destruct act; simpl.
  - by apply Inv_client_useFetch.
  - by apply Inv_useFetch.
  - eapply neutral_Inv; [|exact HI]. apply neutral_setClientConfig, neutral_refl.
  - eapply neutral_Inv; [|exact HI]. apply neutral_setClientConfig, neutral_refl.
  - by apply Inv_observer_execute.
  - eapply neutral_Inv; [|exact HI]. apply neutral_observer_onComplete.
  - eapply neutral_Inv; [|exact HI]. apply neutral_observer_onError.
  - by apply Inv_cancel.
  - eapply neutral_Inv; [|exact HI]. apply neutral_chain.
  - eapply neutral_Inv; [|exact HI]. apply neutral_chain.
  - eapply neutral_Inv; [|exact HI]. apply neutral_chain.
  - by apply Inv_resume.
  - by apply Inv_resume.
  - eapply neutral_Inv; [|exact HI]. apply neutral_timerFires.
  - eapply neutral_Inv; [|exact HI]. apply neutral_tick.
  - eapply neutral_Inv; [|exact HI]. by repeat split.
Qed.

Lemma Inv_run stringify acts : ∀ w, Inv w → Inv (run stringify w acts).
Proof.
  induction acts as [|act acts IH]; intros w HI; [done|].
  apply IH. by apply Inv_step.
Qed.

Lemma Inv_reachable stringify w : reachable stringify w → Inv w.
Proof. intros (c & acts & ->). apply Inv_run, Inv_newWorld. Qed.

(** *** The tokens *)

Lemma aborted_snoc cs c : default false ((cs ++ [false]) !! c) = default false (cs !! c).
Proof.
  destruct (decide (c < length cs)%nat) as [Hlt|Hge].
  - by rewrite lookup_app_l.
  - rewrite lookup_app_r by lia. rewrite (lookup_ge_None_2 cs c) by lia.
    by destruct (c - length cs)%nat as [|[|n]].
Qed.

Lemma aborted_same c w w' : controllers w' = controllers w → aborted c w' = aborted c w.
Proof. unfold aborted. by intros ->. Qed.

Lemma controllers_onComplete a cb X :
  controllers (ActiveQuery.onComplete a cb X) = controllers X.
Proof.
  unfold ActiveQuery.onComplete.
  destruct (queries _ !! a); [|done]. by destruct (isSettled _).
Qed.

Lemma controllers_onError a cb X :
  controllers (ActiveQuery.onError a cb X) = controllers X.
Proof.
  unfold ActiveQuery.onError.
  destruct (queries _ !! a); [|done]. by destruct (hasDeliverableError _).
Qed.

Lemma controllers_observer_onComplete o tag w :
  controllers (QueryObserver.onComplete o tag w) = controllers w.
Proof.
  unfold QueryObserver.onComplete. destruct (observers w !! o); [|done].
  by destruct (_ && _).
Qed.

Lemma controllers_observer_onError o tag w :
  controllers (QueryObserver.onError o tag w) = controllers w.
Proof.
  unfold QueryObserver.onError. destruct (observers w !! o); [|done].
  by destruct (_ && _).
Qed.

Lemma controllers_chain o k w : controllers (QueryObserver.chain o k w).1 = controllers w.
Proof.
  unfold QueryObserver.chain. destruct (observers w !! o); [|done].
  destruct (ActiveQuery.getPromise _ w); [|done].
  destruct (executions w !! _) as [ex|]; [|done].
  by destruct (outcome ex).
Qed.

Lemma controllers_tick w : controllers (tick w) = controllers w.
Proof.
  unfold tick. destruct (microtasks w) as [|t ts]; [done|].
  destruct t; simpl; try done.
  - destruct (queries _ !! aq); [|done]. by rewrite callComplete_emit.
  - by rewrite callError_emit.
  - unfold react. destruct (observers _ !! obs); [|done].
    destruct (QueryObserver.intercept _ _); [|done]. by destruct c.
Qed.

Lemma controllers_resume w x out :
  Inv w → controllers (ActiveQuery.resume x out w) = controllers w.
Proof.
  intros HI. destruct (executions w !! x) as [ex|] eqn:Hx.
  2:{ unfold ActiveQuery.resume. by rewrite Hx. }
  destruct (outcome ex) as [r0|] eqn:Hout.
  { unfold ActiveQuery.resume. by rewrite Hx, Hout. }
  destruct (Inv_owner_valid w x ex HI Hx) as [q Hq].
  by destruct (resume_shape x out w ex q Hx Hout Hq) as (r & es & Hr & ->).
Qed.

Lemma aborted_execute a w c : Inv w → aborted c (ActiveQuery.execute a w) = aborted c w.
Proof.
  intros HI. destruct (queries w !! a) as [q|] eqn:Hq.
  2:{ unfold ActiveQuery.execute. by rewrite Hq. }
  destruct (isLoading (resultState q) && isSomeb (promise q)) eqn:Hbusy.
  { by rewrite (execute_in_flight a w q Hq Hbusy). }
  assert (Hl : aborted c (launched a q w) = aborted c w).
  { unfold aborted, launched. wsimpl. apply aborted_snoc. }
  destruct (execute_split a w q Hq Hbusy) as [[_ ->]|(err & _ & ->)]; [done|].
  rewrite <- Hl. apply aborted_same, controllers_resume. by apply Inv_launched.
Qed.

Lemma controllers_attach a w : controllers (QueryObserver.new a w).1 = controllers w.
Proof.
  unfold QueryObserver.new. cbn [fst].
  by rewrite controllers_onError, controllers_onComplete.
Qed.

Lemma aborted_new e cfg w c : Inv w → aborted c (ActiveQuery.new e cfg w).1 = aborted c w.
Proof.
  intros HI. unfold ActiveQuery.new. cbn [fst].
  destruct (enabledNotFalse cfg); [|done].
  rewrite aborted_execute by by apply Inv_alloc. done.
Qed.

Lemma aborted_useFetch e cfg w c : Inv w → aborted c (useFetch e cfg w).1 = aborted c w.
Proof.
  intros HI. unfold useFetch.
  rewrite (aborted_same c _ _ (controllers_attach _ _)). by apply aborted_new.
Qed.

Lemma aborted_client_useFetch stringify e cfg w c :
  Inv w → aborted c (EqueryClient.useFetch stringify e cfg w).1 = aborted c w.
Proof.
  intros HI. unfold EqueryClient.useFetch. cbv zeta.
  set (merged := mergeConfig (clientConfig w) cfg).
  set (final := finalEndpoint merged (actualEndpoint e)).
  destruct (EqueryClient.cacheKey stringify merged (definitionKey e) final) as [k|];
    cbn [mbind option_bind].
  - destruct (activeQueries w !! k) as [a|].
    + apply aborted_same, controllers_attach.
    + rewrite (aborted_same c _ _ (controllers_attach _ _)).
      destruct (enabledNotFalse merged).
      * rewrite (aborted_same c _ _ (controllers_onComplete _ _ _)).
        by apply (aborted_new final merged w c).
      * by apply (aborted_new final merged w c).
  - rewrite (aborted_same c _ _ (controllers_attach _ _)). by apply aborted_new.
Qed.

Lemma aborted_observer_execute o w c :
  Inv w → aborted c (QueryObserver.execute o w) = aborted c w.
Proof.
  intros HI. unfold QueryObserver.execute. destruct (observers w !! o) as [ob|]; [|done].
  unfold ActiveQuery.callExecute. destruct (queries w !! _) as [q|] eqn:Hq; [|done].
  destruct (lazyKey q) as [k|]; [|by apply aborted_execute].
  destruct (isSomeb _); [by apply aborted_execute|].
  rewrite aborted_execute.
  - apply aborted_same. by rewrite controllers_onComplete.
  - eapply neutral_Inv; [apply neutral_onComplete, neutral_refl|].
    apply Inv_register; [done|by eexists].
Qed.

(** A step that is neither the expiry of a timer nor a [cancel()] triggers
    no token. *)
Lemma step_calm stringify w act c :
  Inv w → (∀ x, act ≠ TimerFires x) → (∀ o, act ≠ CallCancel o) →
  aborted c (step stringify w act) = aborted c w.
Proof.
  intros HI Ht Hc. destruct act; simpl.
  - by apply aborted_client_useFetch.
  - by apply aborted_useFetch.
  - done.
  - done.
  - by apply aborted_observer_execute.
  - apply aborted_same, controllers_observer_onComplete.
  - apply aborted_same, controllers_observer_onError.
  - by destruct (Hc o).
  - apply aborted_same, controllers_chain.
  - apply aborted_same, controllers_chain.
  - apply aborted_same, controllers_chain.
  - by apply aborted_same, controllers_resume.
  - by apply aborted_same, controllers_resume.
  - by destruct (Ht x).
  - apply aborted_same, controllers_tick.
  - done.
Qed.

Lemma aborted_insert_other (cs : list bool) (c c0 : nat) :
  c ≠ c0 → default false (<[c0 := true]> cs !! c) = default false (cs !! c).
Proof. intros Hne. by rewrite list_lookup_insert_ne. Qed.

Lemma Inv_refCount w a q :
  Inv w → queries w !! a = Some q → refCount q = Z.of_nat (liveObservers a w).
Proof.
  intros (_ & _ & H3 & _) Hq. apply H3. unfold refs. by rewrite list_lookup_fmap, Hq.
Qed.

Lemma Inv_loading_token w a q :
  Inv w → queries w !! a = Some q → isLoading (resultState q) = true →
  ∃ c, abortController q = Some c ∧ (c < length (controllers w))%nat.
Proof.
  intros (_ & _ & _ & H4 & _) Hq Hl. apply (H4 a).
  unfold flights. rewrite list_lookup_fmap, Hq. simpl. unfold flightOf. by rewrite Hl.
Qed.

Lemma live_observer_counted w o ob :
  observers w !! o = Some ob → isObserverCanceled ob = false →
  (1 ≤ liveObservers (activeQuery ob) w)%nat.
Proof.
  intros Ho Hc. apply (live_positive _ o). unfold handles.
  rewrite list_lookup_fmap, Ho. simpl. unfold handleOf. by rewrite Hc.
Qed.

(** The expiry of the timer triggers the token of a loading operation whose
    only observer is live and has not canceled: the count is still 1. *)
Lemma C4_timeout_aborts_without_cancel :
  liveObservers 0 waitingWorld = 1%nat
  ∧ isLoading (resultState (queryAt waitingWorld 0)) = true
  ∧ abortController (queryAt waitingWorld 0) = Some 0%nat
  ∧ aborted 0 waitingWorld = false
  ∧ aborted 0 (step demoStringify waitingWorld (TimerFires 0)) = true
  ∧ refCount (queryAt (step demoStringify waitingWorld (TimerFires 0)) 0) = 1
  ∧ isObserverCanceled (observerAt (step demoStringify waitingWorld (TimerFires 0)) 0) = false.
Proof. vm_compute. repeat split. Qed.

(** C4.  In every state a program can reach, the count of an operation is
    the number of its observers that have not canceled.  [cancel()] by one
    of K such observers leaves every token as it is when K >= 2 or when the
    operation is not loading, and triggers the token of the current run
    when K = 1 and the operation is loading: the tokens after the call are
    those [removeRef] computes.  A step of a program triggers a token only
    if it is that last [cancel()] of a loading operation, or the expiry of
    the pending timer of a run with a configured timeout. *)
Theorem C4_token_triggered_by_last_cancel_or_timeout
    (stringify : JVal → string) (w : World) :
  reachable stringify w →
  (∀ o ob, observers w !! o = Some ob → isObserverCanceled ob = false →
     ∃ q, queries w !! activeQuery ob = Some q
       ∧ refCount q = Z.of_nat (liveObservers (activeQuery ob) w)
       ∧ (1 ≤ liveObservers (activeQuery ob) w)%nat
       ∧ controllers (QueryObserver.cancel o w) = afterRemoveRef q (controllers w)
       ∧ ((2 ≤ liveObservers (activeQuery ob) w)%nat →
            controllers (QueryObserver.cancel o w) = controllers w)
       ∧ (isLoading (resultState q) = false →
            controllers (QueryObserver.cancel o w) = controllers w)
       ∧ (liveObservers (activeQuery ob) w = 1%nat → isLoading (resultState q) = true →
            ∃ c, abortController q = Some c ∧ (c < length (controllers w))%nat
                 ∧ controllers (QueryObserver.cancel o w) = <[c := true]> (controllers w)
                 ∧ aborted c (QueryObserver.cancel o w) = true))
  ∧ (∀ act c, aborted c w = false → aborted c (step stringify w act) = true →
       (∃ x ex q, act = TimerFires x ∧ executions w !! x = Some ex
                  ∧ timerPending ex = true
                  ∧ queries w !! owner ex = Some q ∧ abortController q = Some c)
       ∨ (∃ o ob q, act = CallCancel o ∧ observers w !! o = Some ob
                  ∧ isObserverCanceled ob = false
                  ∧ queries w !! activeQuery ob = Some q
                  ∧ liveObservers (activeQuery ob) w = 1%nat
                  ∧ isLoading (resultState q) = true ∧ abortController q = Some c)).
Proof.
  intros Hreach. pose proof (Inv_reachable stringify w Hreach) as HI. split.
  - intros o ob Ho Hc.
    destruct (Inv_query_valid w o ob HI Ho) as [q Hq]. exists q.
    pose proof (Inv_refCount w _ q HI Hq) as Hrc.
    pose proof (live_observer_counted w o ob Ho Hc) as Hpos.
    assert (Hcs : controllers (QueryObserver.cancel o w) = afterRemoveRef q (controllers w))
      by by rewrite (cancel_closed o w ob q Ho Hc Hq).
    split; [done|]. split; [done|]. split; [done|]. split; [done|].
    rewrite Hcs. unfold afterRemoveRef. split; [|split].
    + intros HK. destruct (refCount q - 1 <=? 0) eqn:Hz; [|done].
      apply Z.leb_le in Hz. lia.
    + intros Hl. rewrite Hl. by rewrite andb_false_r.
    + intros HK Hl. destruct (Inv_loading_token w _ q HI Hq Hl) as (c & Hab & Hlt).
      exists c. split; [done|]. split; [done|].
      assert (Hz : (refCount q - 1 <=? 0) = true) by (apply Z.leb_le; lia).
      rewrite Hz, Hl, Hab. simpl. split; [done|].
      unfold aborted. rewrite Hcs. unfold afterRemoveRef. rewrite Hz, Hl, Hab. simpl.
      by rewrite list_lookup_insert_eq.
  - intros act c Hbefore Hafter.
    destruct act;
      try (exfalso; rewrite (step_calm stringify w _ c HI) in Hafter;
           [congruence | intros ?; discriminate | intros ?; discriminate]).
    + right. simpl in Hafter.
      destruct (observers w !! o) as [ob|] eqn:Ho.
      2:{ unfold QueryObserver.cancel in Hafter. rewrite Ho in Hafter. congruence. }
      destruct (isObserverCanceled ob) eqn:Hc.
      { rewrite (cancel_canceled o w ob Ho Hc) in Hafter. congruence. }
      destruct (Inv_query_valid w o ob HI Ho) as [q Hq].
      pose proof (Inv_refCount w _ q HI Hq) as Hrc.
      pose proof (live_observer_counted w o ob Ho Hc) as Hpos.
      rewrite (cancel_closed o w ob q Ho Hc Hq) in Hafter.
      unfold aborted in Hafter, Hbefore. cbn [controllers] in Hafter.
      unfold afterRemoveRef in Hafter.
      destruct (refCount q - 1 <=? 0) eqn:Hz; [|simpl in Hafter; congruence].
      destruct (isLoading (resultState q)) eqn:Hl; [|simpl in Hafter; congruence].
      simpl in Hafter. destruct (abortController q) as [c0|] eqn:Hab; [|congruence].
      destruct (decide (c = c0)) as [->|Hne].
      2:{ rewrite (aborted_insert_other _ _ _ Hne) in Hafter. congruence. }
      apply Z.leb_le in Hz. exists o, ob, q. repeat split; try done. lia.
    + left. simpl in Hafter. unfold ActiveQuery.timerFires in Hafter.
      destruct (executions w !! x) as [ex|] eqn:Hx; [|congruence].
      destruct (timerPending ex) eqn:Hp; [|congruence].
      change (queries (updExecution x ActiveQuery.markTimedOut w)) with (queries w) in Hafter.
      destruct (queries w !! owner ex) as [q|] eqn:Hq.
      2:{ unfold aborted in *. cbn [controllers updExecution setExecutions] in Hafter.
          congruence. }
      destruct (abortController q) as [c0|] eqn:Hab.
      2:{ unfold aborted in *. cbn [controllers updExecution setExecutions] in Hafter.
          congruence. }
      unfold aborted, abort in *. unfold updExecution in Hafter. wsimpl.
      cbn [controllers setControllers setExecutions] in Hafter.
      destruct (decide (c = c0)) as [->|Hne].
      2:{ rewrite (aborted_insert_other _ _ _ Hne) in Hafter. congruence. }
      by exists x, ex, q.
Qed.

Lemma C4_token_triggered_by_last_cancel_or_timeout_witness :
  reachable demoStringify sharedWorld
  ∧ refCount (queryAt sharedWorld 0) = 3
  ∧ liveObservers 0 sharedWorld = 3%nat
  ∧ controllers (QueryObserver.cancel 0 sharedWorld) = controllers sharedWorld.
Proof.
  assert (Hr : reachable demoStringify sharedWorld) by (by eexists _, _).
  split; [exact Hr|].
  destruct (C4_token_triggered_by_last_cancel_or_timeout demoStringify sharedWorld Hr)
    as [HA _].
  destruct (HA 0%nat (observerAt sharedWorld 0) eq_refl eq_refl)
    as (q & Hq & Hrc & _ & _ & Hmany & _).
  split; [reflexivity|]. split; [reflexivity|].
  apply Hmany. vm_compute. lia.
Defined.

Lemma pendingEvictions_app n ts1 ts2 :
  pendingEvictions n (ts1 ++ ts2) = pendingEvictions n ts1 ++ pendingEvictions n ts2.
Proof. apply omap_app. Qed.

Lemma pendingEvictions_mono n n' ts k :
  (n ≤ n')%nat → k ∈ pendingEvictions n ts → k ∈ pendingEvictions n' ts.
Proof.
  intros Hle. unfold pendingEvictions. rewrite !list_elem_of_omap.
  intros (t & Hin & Ht). exists t. split; [done|].
  destruct t as [cb a| | | | |]; try done. destruct cb; try done.
  destruct (decide (a < n)%nat); [|done]. by rewrite decide_True by lia.
Qed.

Lemma sound_registry qv xv reg reg' pend pend' :
  sound qv xv reg pend → reg' ⊆ reg →
  (∀ k, k ∈ pend → k ∈ pend' ∨ reg' !! k = None) →
  sound qv xv reg' pend'.
Proof.
  intros (H1 & H2 & H3 & H4) Hsub Hp. repeat split; try done.
  intros k a Hk.
  destruct (H4 k a (lookup_weaken _ _ _ _ Hk Hsub)) as (r & p & ks & Ha & Hin & Hor).
  exists r, p, ks. split; [done|]. split; [done|].
  destruct Hor as [Hl|Hpend]; [by left|].
  destruct (Hp k Hpend) as [?|Hnone]; [by right|congruence].
Qed.

Lemma sound_timer qv xv reg pend x a f :
  sound qv xv reg pend → xv !! x = Some (a, f, true) →
  sound qv (<[x := (a, f, false)]> xv) reg pend.
Proof.
  intros (H1 & H2 & H3 & H4) Hx.
  assert (Hlt : (x < length xv)%nat) by by eapply lookup_lt_Some.
  pose proof (H3 _ _ _ Hx) as ->.
  repeat split; try done.
  - intros a' r p ks Ha Hl. destruct (H1 _ _ _ _ Ha Hl) as (x' & t & -> & Hx').
    destruct (decide (x' = x)) as [->|Hne].
    + rewrite Hx in Hx'. simplify_eq. exists x, false. split; [done|].
      by rewrite list_lookup_insert_eq.
    + exists x', t. split; [done|]. by rewrite list_lookup_insert_ne.
  - intros x' a' t Hx'. destruct (decide (x' = x)) as [->|Hne].
    + rewrite list_lookup_insert_eq in Hx' by done. simplify_eq. by eapply H2.
    + rewrite list_lookup_insert_ne in Hx' by done. by eapply H2.
  - intros x' a' f' Hx'. destruct (decide (x' = x)) as [->|Hne].
    + rewrite list_lookup_insert_eq in Hx' by done. by simplify_eq.
    + rewrite list_lookup_insert_ne in Hx' by done. by eapply H3.
Qed.

Lemma sound_idle_spawn qv xv reg pend r p ks :
  sound qv xv reg pend → isLoading r = false → sound (qv ++ [(r, p, ks)]) xv reg pend.
Proof.
  intros (H1 & H2 & H3 & H4) Hr. repeat split; try done.
  - intros a r' p' ks' Ha Hl. apply lookup_app_Some in Ha as [Ha|[_ Ha]].
    + by eapply H1.
    + destruct (a - length qv)%nat as [|n]; simplify_eq/=. congruence.
  - intros x a t Hx. destruct (H2 _ _ _ Hx) as (r' & ks' & Ha & Hl).
    exists r', ks'. split; [|done]. by apply lookup_app_l_Some.
  - intros k a Hk. destruct (H4 _ _ Hk) as (r' & p' & ks' & Ha & Hin & Hor).
    exists r', p', ks'. split; [|done]. by apply lookup_app_l_Some.
Qed.

Lemma sound_register qv xv reg pend a r p ks k :
  sound qv xv reg pend → qv !! a = Some (r, p, ks) → k ∈ ks →
  isLoading r = true ∨ k ∈ pend →
  sound qv xv (<[k := a]> reg) pend.
Proof.
  intros (H1 & H2 & H3 & H4) Ha Hin Hor. repeat split; try done.
  intros k' a' Hk. destruct (decide (k' = k)) as [->|Hne].
  - rewrite lookup_insert_eq in Hk. simplify_eq. by exists r, p, ks.
  - rewrite lookup_insert_ne in Hk by done. by apply H4.
Qed.

(** A callback is pushed on a completion list. *)
Lemma sound_push qv xv reg pend a r p ks ks' :
  sound qv xv reg pend → qv !! a = Some (r, p, ks) → ks ⊆ ks' →
  sound (<[a := (r, p, ks')]> qv) xv reg pend.
Proof.
  intros (H1 & H2 & H3 & H4) Ha Hsub.
  assert (Hlt : (a < length qv)%nat) by by eapply lookup_lt_Some.
  repeat split; try done.
  - intros a' r' p' ks'' Ha' Hl. destruct (decide (a' = a)) as [->|Hne].
    + rewrite list_lookup_insert_eq in Ha' by done. simplify_eq. by eapply H1.
    + rewrite list_lookup_insert_ne in Ha' by done. by eapply H1.
  - intros x a' t Hx. destruct (H2 _ _ _ Hx) as (r' & ks'' & Ha' & Hl).
    destruct (decide (a' = a)) as [->|Hne].
    + rewrite Ha in Ha'. simplify_eq. exists r', ks'. split; [|done].
      by rewrite list_lookup_insert_eq.
    + exists r', ks''. split; [|done]. by rewrite list_lookup_insert_ne.
  - intros k a' Hk. destruct (H4 _ _ Hk) as (r' & p' & ks'' & Ha' & Hin & Hor).
    destruct (decide (a' = a)) as [->|Hne].
    + rewrite Ha in Ha'. simplify_eq. exists r', p', ks'.
      split; [by rewrite list_lookup_insert_eq|]. split; [by apply Hsub|done].
    + exists r', p', ks''. split; [|done]. by rewrite list_lookup_insert_ne.
Qed.

(** [execute] starts a run of an operation that is not loading. *)
Lemma sound_start qv xv reg pend a r p ks r' t :
  sound qv xv reg pend → qv !! a = Some (r, p, ks) → isLoading r = false →
  isLoading r' = true →
  sound (<[a := (r', Some (length xv), ks)]> qv) (xv ++ [(a, false, t)]) reg pend.
Proof.
  intros (H1 & H2 & H3 & H4) Ha Hr Hr'.
  assert (Hlt : (a < length qv)%nat) by by eapply lookup_lt_Some.
  repeat split.
  - intros a' r'' p' ks' Ha' Hl. destruct (decide (a' = a)) as [->|Hne].
    + rewrite list_lookup_insert_eq in Ha' by done. simplify_eq.
      exists (length xv), t. split; [done|]. apply lookup_snoc_length.
    + rewrite list_lookup_insert_ne in Ha' by done.
      destruct (H1 _ _ _ _ Ha' Hl) as (x & t' & -> & Hx).
      exists x, t'. split; [done|]. by apply lookup_app_l_Some.
  - intros x a' t' Hx. apply lookup_app_Some in Hx as [Hx|[Hge Hx]].
    + destruct (H2 _ _ _ Hx) as (r'' & ks' & Ha' & Hl).
      destruct (decide (a' = a)) as [->|Hne]; [congruence|].
      exists r'', ks'. split; [|done]. by rewrite list_lookup_insert_ne.
    + destruct (x - length xv)%nat as [|n] eqn:Hn; simplify_eq/=.
      replace x with (length xv) by lia.
      exists r', ks. split; [|done]. by rewrite list_lookup_insert_eq.
  - intros x a' f Hx. apply lookup_app_Some in Hx as [Hx|[Hge Hx]].
    + by eapply H3.
    + destruct (x - length xv)%nat as [|n]; by simplify_eq/=.
  - intros k a' Hk. destruct (H4 _ _ Hk) as (r'' & p' & ks' & Ha' & Hin & Hor).
    destruct (decide (a' = a)) as [->|Hne].
    + rewrite Ha in Ha'. simplify_eq. eexists r', (Some (length xv)), _.
      split; [by rewrite list_lookup_insert_eq|]. split; [done|by left].
    + exists r'', p', ks'. split; [|done]. by rewrite list_lookup_insert_ne.
Qed.

(** The run [x] of operation [a] settles. *)
Lemma sound_settle qv xv reg reg' pend x a t r p ks r' :
  sound qv xv reg pend → xv !! x = Some (a, false, t) → qv !! a = Some (r, p, ks) →
  isLoading r' = false → reg' ⊆ reg → (∀ k, k ∈ ks → reg' !! k = None) →
  sound (<[a := (r', p, [])]> qv) (<[x := (a, true, false)]> xv) reg' pend.
Proof.
  intros (H1 & H2 & H3 & H4) Hx Ha Hr' Hsub Hev.
  assert (Hlt : (a < length qv)%nat) by by eapply lookup_lt_Some.
  assert (Hltx : (x < length xv)%nat) by by eapply lookup_lt_Some.
  destruct (H2 _ _ _ Hx) as (r0 & ks0 & Ha0 & Hl0). rewrite Ha in Ha0. simplify_eq.
  repeat split.
  - intros a' r'' p' ks' Ha' Hl. destruct (decide (a' = a)) as [->|Hne].
    + rewrite list_lookup_insert_eq in Ha' by done. simplify_eq. congruence.
    + rewrite list_lookup_insert_ne in Ha' by done.
      destruct (H1 _ _ _ _ Ha' Hl) as (x' & t' & -> & Hx').
      exists x', t'. split; [done|].
      destruct (decide (x' = x)) as [->|Hnx]; [congruence|].
      by rewrite list_lookup_insert_ne.
  - intros x' a' t' Hx'. destruct (decide (x' = x)) as [->|Hnx].
    + rewrite list_lookup_insert_eq in Hx' by done. by simplify_eq.
    + rewrite list_lookup_insert_ne in Hx' by done.
      destruct (H2 _ _ _ Hx') as (r'' & ks' & Ha' & Hl).
      destruct (decide (a' = a)) as [->|Hne]; [congruence|].
      exists r'', ks'. split; [|done]. by rewrite list_lookup_insert_ne.
  - intros x' a' f Hx'. destruct (decide (x' = x)) as [->|Hnx].
    + rewrite list_lookup_insert_eq in Hx' by done. by simplify_eq.
    + rewrite list_lookup_insert_ne in Hx' by done. by eapply H3.
  - intros k a' Hk.
    destruct (H4 _ _ (lookup_weaken _ _ _ _ Hk Hsub)) as (r'' & p' & ks' & Ha' & Hin & Hor).
    destruct (decide (a' = a)) as [->|Hne].
    + rewrite Ha in Ha'. simplify_eq. rewrite (Hev _ Hin) in Hk. done.
    + exists r'', p', ks'. split; [|done]. by rewrite list_lookup_insert_ne.
Qed.

(** *** Steps that leave the runs alone *)

Lemma still_refl w : still w w.
Proof. repeat split; try done. exists []. by rewrite app_nil_r. Qed.

Lemma still_length w w' : still w w' → length (queries w') = length (queries w).
Proof.
  intros (H1 & _). apply (f_equal length) in H1. by rewrite !length_fmap in H1.
Qed.

(** The runs of [w'] are those of [w], registry entries may have gone, and
    an eviction that was queued is still queued or has been carried out. *)
Lemma Runs_weaken w w' :
  runView <$> queries w' = runView <$> queries w →
  execView <$> executions w' = execView <$> executions w →
  activeQueries w' ⊆ activeQueries w →
  (∀ k, k ∈ pendingEvictions (length (queries w)) (microtasks w) →
        k ∈ pendingEvictions (length (queries w')) (microtasks w')
        ∨ activeQueries w' !! k = None) →
  Runs w → Runs w'.
Proof.
  intros H1 H2 H3 H4 HR. unfold Runs in *. rewrite H1, H2.
  by eapply sound_registry.
Qed.

Lemma still_Runs w w' : still w w' → Runs w → Runs w'.
Proof.
  intros Hs HR. pose proof (still_length w w' Hs) as Hlen.
  destruct Hs as (H1 & H2 & H3 & ts & H4).
  eapply Runs_weaken; [done|done|done| |done].
  intros k Hk. left. rewrite Hlen, H4, pendingEvictions_app.
  apply elem_of_app. by left.
Qed.

Lemma still_updQuery w X a f :
  (∀ q, runView (f q) = runView q) → still w X → still w (updQuery a f X).
Proof.
  intros Hf (H1 & H2 & H3 & H4). repeat split; try done.
  unfold updQuery. wsimpl. by rewrite fmap_alter_neutral.
Qed.

Lemma still_updObserver w X o f : still w X → still w (updObserver o f X).
Proof. intros (H1 & H2 & H3 & H4). by repeat split. Qed.

Lemma still_updExecution w X x f :
  (∀ ex, execView (f ex) = execView ex) → still w X → still w (updExecution x f X).
Proof.
  intros Hf (H1 & H2 & H3 & H4). repeat split; try done.
  unfold updExecution. wsimpl. by rewrite fmap_alter_neutral.
Qed.

Lemma still_defer w X t : still w X → still w (defer t X).
Proof.
  intros (H1 & H2 & H3 & ts & H4). repeat split; try done.
  exists (ts ++ [t]). wsimpl. by rewrite H4, app_assoc.
Qed.

Lemma still_emit w X es : still w X → still w (emit es X).
Proof. intros (H1 & H2 & H3 & H4). by repeat split. Qed.

Lemma still_setClientConfig w X c : still w X → still w (setClientConfig c X).
Proof. intros (H1 & H2 & H3 & H4). by repeat split. Qed.

Lemma still_abort w X c : still w X → still w (abort c X).
Proof. intros (H1 & H2 & H3 & H4). by repeat split. Qed.

Lemma still_registry w X m :
  m ⊆ activeQueries X → still w X → still w (setActiveQueries m X).
Proof. intros Hm (H1 & H2 & H3 & H4). repeat split; try done. wsimpl. by etrans. Qed.

Lemma still_callComplete w X cb res : still w X → still w (callComplete cb res X).
Proof.
  intros H. rewrite callComplete_emit.
  apply still_registry; [|by apply still_emit].
  wsimpl. destruct cb; simpl; try done. apply delete_subseteq.
Qed.

Lemma still_callError w X cb err : still w X → still w (callError cb err X).
Proof. intros H. rewrite callError_emit. by apply still_emit. Qed.

Lemma evictions_app cbs1 cbs2 : evictions (cbs1 ++ cbs2) = evictions cbs1 ++ evictions cbs2.
Proof. unfold evictions. apply omap_app. Qed.

Lemma still_relay_onComplete w X a o :
  still w X → still w (ActiveQuery.onComplete a (RelayComplete o) X).
Proof.
  intros H. unfold ActiveQuery.onComplete.
  assert (Hu : still w (updQuery a
    (λ q, withCallbacks (completeCallbacks q ++ [RelayComplete o]) (errorCallbacks q) q) X)).
  { apply still_updQuery; [|done]. intros q. unfold runView. wsimpl.
    rewrite evictions_app. simpl. by rewrite app_nil_r. }
  destruct (queries _ !! a); [|done].
  destruct (isSettled _); [by apply still_defer|done].
Qed.

Lemma still_onError w X a cb : still w X → still w (ActiveQuery.onError a cb X).
Proof.
  intros H. unfold ActiveQuery.onError.
  assert (Hu : still w (updQuery a
    (λ q, withCallbacks (completeCallbacks q) (errorCallbacks q ++ [cb]) q) X))
    by by apply still_updQuery.
  destruct (queries _ !! a); [|done].
  destruct (hasDeliverableError _); [by apply still_defer|done].
Qed.

Lemma still_attach w a : still w (QueryObserver.new a w).1.
Proof.
  unfold QueryObserver.new. cbn [fst].
  apply still_onError, still_relay_onComplete.
  unfold ActiveQuery.addRef. apply still_updQuery; [done|].
  destruct (still_refl w) as (H1 & H2 & H3 & H4). by repeat split.
Qed.

Lemma still_observer_onComplete w o tag : still w (QueryObserver.onComplete o tag w).
Proof.
  unfold QueryObserver.onComplete. destruct (observers w !! o); [|apply still_refl].
  assert (Hu : still w (updObserver o
    (λ ob, QueryObserver.withWrapped (wrappedCompleteCallbacks ob ++ [tag])
             (wrappedErrorCallbacks ob) ob) w))
    by apply still_updObserver, still_refl.
  destruct (_ && _); [by apply still_defer|done].
Qed.

Lemma still_observer_onError w o tag : still w (QueryObserver.onError o tag w).
Proof.
  unfold QueryObserver.onError. destruct (observers w !! o); [|apply still_refl].
  assert (Hu : still w (updObserver o
    (λ ob, QueryObserver.withWrapped (wrappedCompleteCallbacks ob)
             (wrappedErrorCallbacks ob ++ [tag]) ob) w))
    by apply still_updObserver, still_refl.
  destruct (_ && _); [by apply still_defer|done].
Qed.

Lemma still_chain w o c : still w (QueryObserver.chain o c w).1.
Proof.
  unfold QueryObserver.chain. destruct (observers w !! o); [|apply still_refl].
  destruct (ActiveQuery.getPromise _ w); [|apply still_refl].
  destruct (executions w !! _) as [ex|]; [|apply still_refl].
  destruct (outcome ex); simpl.
  - apply still_defer, still_refl.
  - apply still_updExecution; [done|apply still_refl].
Qed.

Lemma still_removeRef w X a : still w X → still w (ActiveQuery.removeRef a X).
Proof.
  intros H. unfold ActiveQuery.removeRef.
  assert (Hu : still w (updQuery a (λ q, withRefCount (refCount q - 1) q) X))
    by by apply still_updQuery.
  destruct (queries _ !! a) as [q|]; [|done].
  destruct (refCount q <=? 0); [|done].
  unfold ActiveQuery.hardCancel. destruct (queries _ !! a) as [q'|]; [|done].
  destruct (abortController q'); [|done].
  destruct (isLoading _); [by apply still_abort|done].
Qed.

Lemma still_cancel w o : still w (QueryObserver.cancel o w).
Proof.
  unfold QueryObserver.cancel. destruct (observers w !! o) as [ob|]; [|apply still_refl].
  destruct (isObserverCanceled ob); [apply still_refl|].
  apply still_defer, still_updObserver, still_removeRef, still_updObserver, still_refl.
Qed.

(** *** The microtask queue *)

Lemma queries_tick w : queries (tick w) = queries w.
Proof.
  unfold tick. destruct (microtasks w) as [|t ts]; [done|].
  destruct t; simpl; try done.
  - destruct (queries w !! aq); [|done]. by rewrite callComplete_emit.
  - by rewrite callError_emit.
  - unfold react. destruct (observers _ !! obs); [|done].
    destruct (QueryObserver.intercept _ _); [|done]. by destruct c.
Qed.

Lemma executions_tick w : executions (tick w) = executions w.
Proof.
  unfold tick. destruct (microtasks w) as [|t ts]; [done|].
  destruct t; simpl; try done.
  - destruct (queries w !! aq); [|done]. by rewrite callComplete_emit.
  - by rewrite callError_emit.
  - unfold react. destruct (observers _ !! obs); [|done].
    destruct (QueryObserver.intercept _ _); [|done]. by destruct c.
Qed.

(** A microtask runs: a queued eviction is carried out, every other task
    leaves the registry alone. *)
Lemma Runs_tick w : Runs w → Runs (tick w).
Proof.
  intros HR.
  eapply Runs_weaken; [by rewrite queries_tick|by rewrite executions_tick| | |exact HR].
  - unfold tick. destruct (microtasks w) as [|t ts]; [done|].
    destruct t; simpl; try done.
    + destruct (queries w !! aq); [|done]. rewrite callComplete_emit. wsimpl.
      destruct cb; simpl; try done. apply delete_subseteq.
    + by rewrite callError_emit.
    + unfold react. destruct (observers _ !! obs); [|done].
      destruct (QueryObserver.intercept _ _); [|done]. by destruct c.
  - rewrite queries_tick. intros k.
    unfold tick. destruct (microtasks w) as [|t ts] eqn:Hmt; [intros; left; by rewrite Hmt|].
    destruct t as [cb aq|cb err|tag st|tag err|tags|o c res]; simpl.
    + destruct (queries w !! aq) as [q|] eqn:Hq.
      * rewrite callComplete_emit. wsimpl.
        destruct cb as [tag|o|key]; simpl; try (intros; by left).
        rewrite decide_True by by eapply lookup_lt_Some.
        intros [->|Hin]%elem_of_cons; [right; apply lookup_delete_eq|by left].
      * destruct cb as [tag|o|key]; simpl; try (intros; by left).
        rewrite decide_False; [intros; by left|].
        apply lookup_ge_None in Hq. lia.
    + rewrite callError_emit. intros; by left.
    + intros; by left.
    + intros; by left.
    + intros; by left.
    + unfold react. destruct (observers _ !! o); [|intros; by left].
      destruct (QueryObserver.intercept _ _); [|intros; by left].
      destruct c; intros; by left.
Qed.

(** *** Steps that start or settle a run *)

Lemma evictions_evicted cbs : ∀ (m : gmap string nat) k,
  k ∈ evictions cbs → foldl evict m cbs !! k = None.
Proof.
  induction cbs as [|cb cbs IH] using rev_ind; intros m k Hin.
  - by apply elem_of_nil in Hin.
  - rewrite foldl_app. simpl. rewrite evictions_app in Hin.
    apply elem_of_app in Hin as [Hin|Hin].
    + destruct cb; simpl; try by apply IH.
      destruct (decide (key = k)) as [->|Hne]; [apply lookup_delete_eq|].
      rewrite lookup_delete_ne by done. by apply IH.
    + destruct cb; simpl in Hin; try by apply elem_of_nil in Hin.
      apply list_elem_of_singleton in Hin as ->. simpl. apply lookup_delete_eq.
Qed.

Lemma Runs_timerFires w x : Runs w → Runs (ActiveQuery.timerFires x w).
Proof.
  intros HR. unfold ActiveQuery.timerFires.
  destruct (executions w !! x) as [ex|] eqn:Hx; [|done].
  destruct (timerPending ex) eqn:Hp; [|done].
  assert (Hu : Runs (updExecution x ActiveQuery.markTimedOut w)).
  { rewrite (updExecution_lookup _ _ _ _ Hx). unfold Runs in *. wsimpl.
    rewrite list_fmap_insert. unfold execView at 1. wsimpl.
    eapply sound_timer; [exact HR|]. rewrite list_lookup_fmap, Hx. simpl.
    unfold execView. by rewrite Hp. }
  destruct (queries _ !! owner ex) as [q|]; [|done].
  destruct (abortController q); [|done].
  eapply still_Runs; [|exact Hu]. apply still_abort, still_refl.
Qed.

Lemma Runs_idle w a q :
  Runs w → queries w !! a = Some q →
  isLoading (resultState q) && isSomeb (promise q) = false →
  isLoading (resultState q) = false.
Proof.
  intros (H1 & _) Hq Hbusy.
  destruct (isLoading (resultState q)) eqn:Hl; [|done].
  destruct (H1 a (resultState q) (promise q) (evictions (completeCallbacks q)))
    as (x & t & Hp & _); [by rewrite list_lookup_fmap, Hq|done|].
  rewrite Hp in Hbusy. done.
Qed.

Lemma Runs_launched w a q :
  Runs w → queries w !! a = Some q → isLoading (resultState q) = false →
  Runs (launched a q w).
Proof.
  intros HR Hq Hl. unfold Runs, launched in *. wsimpl.
  rewrite length_insert.
  rewrite list_fmap_insert, fmap_app. simpl. unfold runView at 1, execView at 2. wsimpl.
  replace (length (executions w)) with (length (execView <$> executions w))
    by by rewrite length_fmap.
  eapply sound_start; [exact HR| |exact Hl|done].
  by rewrite list_lookup_fmap, Hq.
Qed.

Lemma Runs_resume w x out : Inv w → Runs w → Runs (ActiveQuery.resume x out w).
Proof.
  intros HI HR. destruct (executions w !! x) as [ex|] eqn:Hx.
  2:{ unfold ActiveQuery.resume. by rewrite Hx. }
  destruct (outcome ex) as [r0|] eqn:Hout.
  { unfold ActiveQuery.resume. by rewrite Hx, Hout. }
  destruct (Inv_owner_valid w x ex HI Hx) as [q Hq].
  destruct (resume_shape x out w ex q Hx Hout Hq) as (r & es & Hr & ->).
  unfold Runs in *. wsimpl. rewrite length_insert.
  rewrite !list_fmap_insert. unfold runView at 1, execView at 1. wsimpl.
  eapply sound_registry; [|done|].
  - eapply sound_settle; [exact HR| | |exact Hr|apply evict_subseteq|].
    + rewrite list_lookup_fmap, Hx. simpl. unfold execView. by rewrite Hout.
    + by rewrite list_lookup_fmap, Hq.
    + intros k Hk. by apply evictions_evicted.
  - intros k Hk. left. rewrite pendingEvictions_app. apply elem_of_app. by left.
Qed.

Lemma Runs_execute w a : Inv w → Runs w → Runs (ActiveQuery.execute a w).
Proof.
  intros HI HR. destruct (queries w !! a) as [q|] eqn:Hq.
  2:{ unfold ActiveQuery.execute. by rewrite Hq. }
  destruct (isLoading (resultState q) && isSomeb (promise q)) eqn:Hbusy.
  { by rewrite (execute_in_flight a w q Hq Hbusy). }
  pose proof (Runs_idle w a q HR Hq Hbusy) as Hl.
  destruct (execute_split a w q Hq Hbusy) as [[_ ->]|(err & _ & ->)].
  - by apply Runs_launched.
  - apply Runs_resume; [by apply Inv_launched|by apply Runs_launched].
Qed.

(** After [execute] the operation is in flight, or it has settled. *)
Lemma execute_started w a q :
  Inv w → Runs w → queries w !! a = Some q →
  ∃ q', queries (ActiveQuery.execute a w) !! a = Some q'
        ∧ (isLoading (resultState q') = true ∨ isSettled (resultState q') = true).
Proof.
  intros HI HR Hq.
  destruct (isLoading (resultState q) && isSomeb (promise q)) eqn:Hbusy.
  { rewrite (execute_in_flight a w q Hq Hbusy). exists q. split; [done|left].
    by apply andb_prop in Hbusy as [? _]. }
  destruct (throwing w (endpoint q)) as [err|] eqn:Hthr.
  - rewrite (execute_thrown a w q err Hq Hbusy Hthr).
    erewrite onCatch_closed; [ | apply launched_run | by apply launched_query ].
    wsimpl. eexists. split.
    + apply list_lookup_insert_eq. unfold launched. wsimpl. rewrite length_insert.
      by eapply lookup_lt_Some.
    + right. wsimpl. unfold isSettled, anyTerminalFlag.
      destruct (classifyFailure _ _ _ _); wsimpl; by rewrite ?orb_true_r.
  - rewrite (execute_launched a w q Hq Hbusy Hthr). eexists. split.
    + by apply launched_query.
    + by left.
Qed.

Lemma Runs_alloc w q :
  Runs w → isLoading (resultState q) = false → Runs (setQueries (queries w ++ [q]) w).
Proof.
  intros HR Hl. unfold Runs in *. wsimpl. rewrite fmap_app. simpl.
  eapply sound_registry; [by eapply sound_idle_spawn|done|].
  intros k Hk. left. eapply pendingEvictions_mono; [|exact Hk].
  rewrite length_app. lia.
Qed.

Lemma Runs_new w e c : Inv w → Runs w → Runs (ActiveQuery.new e c w).1.
Proof.
  intros HI HR. unfold ActiveQuery.new. cbn [fst].
  assert (Runs (setQueries (queries w ++ [idleQuery e c]) w)) by by apply Runs_alloc.
  destruct (enabledNotFalse c); [|done].
  apply Runs_execute; [by apply Inv_alloc|done].
Qed.

Lemma new_started w e c :
  Inv w → Runs w → enabledNotFalse c = true →
  ∃ q, queries (ActiveQuery.new e c w).1 !! length (queries w) = Some q
       ∧ (isLoading (resultState q) = true ∨ isSettled (resultState q) = true).
Proof.
  intros HI HR He. unfold ActiveQuery.new. cbn [fst]. rewrite He.
  eapply execute_started; [by apply Inv_alloc|by apply Runs_alloc|].
  wsimpl. apply lookup_snoc_length.
Qed.

Lemma Runs_useFetch w e c : Inv w → Runs w → Runs (useFetch e c w).1.
Proof.
  intros HI HR. unfold useFetch.
  eapply still_Runs; [apply still_attach|]. by apply Runs_new.
Qed.

(** A key is registered for an operation that is in flight or settled, and
    its eviction is put on the completion list. *)
Lemma Runs_register_evict w a q k :
  Runs w → queries w !! a = Some q →
  isLoading (resultState q) = true ∨ isSettled (resultState q) = true →
  Runs (ActiveQuery.onComplete a (EvictKey k)
          (setActiveQueries (<[k := a]> (activeQueries w)) w)).
Proof.
  intros HR Hq Hor.
  assert (Hlt : (a < length (queries w))%nat) by by eapply lookup_lt_Some.
  erewrite onComplete_closed by by_lookup.
  unfold Runs in *. wsimpl. rewrite length_insert, list_fmap_insert.
  unfold runView at 1. wsimpl. rewrite evictions_app. simpl evictions.
  eapply sound_register.
  - eapply sound_registry; [|done|].
    + eapply (sound_push _ _ _ _ a (resultState q) (promise q)
                (evictions (completeCallbacks q))); [exact HR| |].
      * by rewrite list_lookup_fmap, Hq.
      * intros k' Hk'. apply elem_of_app. by left.
    + intros k' Hk'. left. rewrite pendingEvictions_app. apply elem_of_app. by left.
  - rewrite list_lookup_insert_eq; [done|]. by rewrite length_fmap.
  - apply elem_of_app. right. apply list_elem_of_here.
  - destruct Hor as [Hl|Hs]; [by left|right]. rewrite Hs.
    rewrite pendingEvictions_app. apply elem_of_app. right.
    simpl. rewrite decide_True by done. apply list_elem_of_here.
Qed.

Lemma Runs_client_useFetch stringify w e c :
  Inv w → Runs w → Runs (EqueryClient.useFetch stringify e c w).1.
Proof.
  intros HI HR. unfold EqueryClient.useFetch. cbv zeta.
  set (merged := mergeConfig (clientConfig w) c).
  set (final := finalEndpoint merged (actualEndpoint e)).
  destruct (EqueryClient.cacheKey stringify merged (definitionKey e) final) as [k|] eqn:Hk;
    cbn [mbind option_bind].
  - destruct (activeQueries w !! k) as [a|] eqn:Ha.
    + eapply still_Runs; [apply still_attach|done].
    + pose proof (Runs_new w final merged HI HR) as HRn.
      eapply still_Runs; [apply still_attach|].
      destruct (enabledNotFalse merged) eqn:He.
      * destruct (new_started w final merged HI HR He) as (q & Hq & Hor).
        by eapply Runs_register_evict.
      * eapply still_Runs; [|exact HRn].
        apply still_updQuery; [done|apply still_refl].
  - eapply still_Runs; [apply still_attach|]. by apply Runs_new.
Qed.

Lemma Runs_loading_busy w a q :
  Runs w → queries w !! a = Some q → isLoading (resultState q) = true →
  isLoading (resultState q) && isSomeb (promise q) = true.
Proof.
  intros (H1 & _) Hq Hl.
  destruct (H1 a (resultState q) (promise q) (evictions (completeCallbacks q)))
    as (x & t & Hp & _); [by rewrite list_lookup_fmap, Hq|done|].
  by rewrite Hl, Hp.
Qed.

(** The wrapper of a manual operation registers the key, puts the eviction
    on the list and executes: the operation is then in flight with its key,
    or it has settled inside the call and the key is free again. *)
Lemma Runs_lazy_start w a q key :
  Inv w → Runs w → queries w !! a = Some q →
  Runs (ActiveQuery.execute a
          (ActiveQuery.onComplete a (EvictKey key)
             (setActiveQueries (<[key := a]> (activeQueries w)) w))).
Proof.
  intros HI HR Hq.
  assert (Hlt : (a < length (queries w))%nat) by by eapply lookup_lt_Some.
  assert (HI2 : Inv (ActiveQuery.onComplete a (EvictKey key)
                       (setActiveQueries (<[key := a]> (activeQueries w)) w))).
  { eapply neutral_Inv; [apply neutral_onComplete, neutral_refl|].
    apply Inv_register; [done|by eexists]. }
  revert HI2. erewrite onComplete_closed by by_lookup. wsimpl.
  set (q1 := withCallbacks (completeCallbacks q ++ [EvictKey key]) (errorCallbacks q) q).
  set (W2 := setMicrotasks _ _). intros HI2.
  assert (Hq1 : queries W2 !! a = Some q1).
  { subst W2. wsimpl. by rewrite list_lookup_insert_eq. }
  assert (Hin : key ∈ evictions (completeCallbacks q1)).
  { subst q1. wsimpl. rewrite evictions_app. apply elem_of_app. right.
    simpl. apply list_elem_of_here. }
  (* the stores of [W2] with the registry as it was *)
  set (W1 := setActiveQueries (activeQueries w) W2).
  assert (HR1 : Runs W1).
  { unfold Runs. subst W1 W2. wsimpl. rewrite length_insert, list_fmap_insert.
    eapply sound_registry; [|done|].
    - eapply (sound_push _ _ _ _ a (resultState q) (promise q)
                (evictions (completeCallbacks q))); [exact HR| |].
      + by rewrite list_lookup_fmap, Hq.
      + subst q1. unfold runView. wsimpl. rewrite evictions_app. set_solver.
    - intros k' Hk'. left. rewrite pendingEvictions_app. apply elem_of_app. by left. }
  destruct (isLoading (resultState q)) eqn:Hl.
  - rewrite (execute_in_flight a W2 q1 Hq1).
    2:{ subst q1. wsimpl. by apply (Runs_loading_busy w a q). }
    unfold Runs in *.
    change (runView <$> queries W2) with (runView <$> queries W1).
    change (execView <$> executions W2) with (execView <$> executions W1).
    change (length (queries W2)) with (length (queries W1)).
    change (microtasks W2) with (microtasks W1).
    change (activeQueries W2) with (<[key := a]> (activeQueries W1)).
    eapply sound_register; [exact HR1| |exact Hin|].
    + change (queries W1) with (queries W2). by rewrite list_lookup_fmap, Hq1.
    + left. subst q1. by wsimpl.
  - assert (Hidle : isLoading (resultState q1) && isSomeb (promise q1) = false)
      by (subst q1; wsimpl; by rewrite Hl).
    assert (HRl : Runs (launched a q1 W2)).
    { pose proof (Runs_launched W1 a q1 HR1 Hq1 Hl) as HRl1.
      unfold Runs in *. unfold launched in *. revert HRl1. wsimpl. intros HRl1.
      eapply sound_register; [exact HRl1| |exact Hin|].
      - rewrite list_lookup_fmap. change (queries W1) with (queries W2).
        rewrite list_lookup_insert_eq by (by eapply lookup_lt_Some). done.
      - by left. }
    destruct (execute_split a W2 q1 Hq1 Hidle) as [[_ ->]|(err & _ & ->)]; [done|].
    apply Runs_resume; [by apply Inv_launched|done].
Qed.

Lemma Runs_observer_execute w o : Inv w → Runs w → Runs (QueryObserver.execute o w).
Proof.
  intros HI HR. unfold QueryObserver.execute.
  destruct (observers w !! o) as [ob|] eqn:Ho; [|done].
  unfold ActiveQuery.callExecute.
  destruct (queries w !! activeQuery ob) as [q|] eqn:Hq; [|done].
  destruct (lazyKey q) as [k|]; [|by apply Runs_execute].
  destruct (isSomeb _); [by apply Runs_execute|].
  by eapply Runs_lazy_start.
Qed.

Lemma Runs_newWorld c : Runs (newWorld c).
Proof. unfold Runs, sound. simpl. repeat split; intros; simplify_eq. Qed.

Lemma Runs_step stringify w act : Inv w → Runs w → Runs (step stringify w act).
Proof.
  intros HI HR. destruct act; simpl.
  - by apply Runs_client_useFetch.
  - by apply Runs_useFetch.
  - eapply still_Runs; [|exact HR]. apply still_setClientConfig, still_refl.
  - eapply still_Runs; [|exact HR]. apply still_setClientConfig, still_refl.
  - by apply Runs_observer_execute.
  - eapply still_Runs; [|exact HR]. apply still_observer_onComplete.
  - eapply still_Runs; [|exact HR]. apply still_observer_onError.
  - eapply still_Runs; [|exact HR]. apply still_cancel.
  - eapply still_Runs; [|exact HR]. apply still_chain.
  - eapply still_Runs; [|exact HR]. apply still_chain.
  - eapply still_Runs; [|exact HR]. apply still_chain.
  - by apply Runs_resume.
  - by apply Runs_resume.
  - by apply Runs_timerFires.
  - by apply Runs_tick.
  - eapply still_Runs; [|exact HR].
    destruct (still_refl w) as (H1 & H2 & H3 & H4). by repeat split.
Qed.

Lemma Runs_run stringify acts : ∀ w, Inv w → Runs w → Runs (run stringify w acts).
Proof.
  induction acts as [|act acts IH]; intros w HI HR; [done|].
  apply IH; [by apply Inv_step|by apply Runs_step].
Qed.

Lemma Runs_reachable stringify w : reachable stringify w → Runs w.
Proof. intros (c & acts & ->). apply Runs_run; [apply Inv_newWorld|apply Runs_newWorld]. Qed.

(** *** What the invariants give *)

Lemma live_zero a hs : live a hs = 0%nat ↔ (a, false) ∉ hs.
Proof.
  unfold live. induction hs as [|h hs IH].
  - split; [intros _ Hin; by apply elem_of_nil in Hin|done].
  - destruct (decide (h = (a, false))) as [->|Hne].
    + rewrite filter_cons_True by done. simpl. split; [lia|].
      intros Hnot. destruct Hnot. apply list_elem_of_here.
    + rewrite filter_cons_False by done. rewrite IH. rewrite not_elem_of_cons.
      split; [intros H; split; [by intros <-|done]|by intros [_ H]].
Qed.

Lemma still_resultState w w' a :
  still w w' → resultState <$> queries w' !! a = resultState <$> queries w !! a.
Proof.
  intros (H1 & _). apply (f_equal (λ l, l !! a)) in H1.
  rewrite !list_lookup_fmap in H1.
  destruct (queries w' !! a), (queries w !! a); simpl in *; try done.
  unfold runView in H1. congruence.
Qed.

Lemma queries_timerFires w x : queries (ActiveQuery.timerFires x w) = queries w.
Proof.
  unfold ActiveQuery.timerFires. destruct (executions w !! x) as [ex|]; [|done].
  destruct (timerPending ex); [|done].
  change (queries (updExecution x ActiveQuery.markTimedOut w)) with (queries w).
  destruct (queries w !! owner ex) as [q|]; [|done].
  by destruct (abortController q).
Qed.

Lemma other_execute w a a' :
  a ≠ a' → queries (ActiveQuery.execute a' w) !! a = queries w !! a.
Proof.
  intros Hne. destruct (queries w !! a') as [q|] eqn:Hq.
  2:{ unfold ActiveQuery.execute. by rewrite Hq. }
  destruct (isLoading (resultState q) && isSomeb (promise q)) eqn:Hbusy.
  { by rewrite (execute_in_flight a' w q Hq Hbusy). }
  assert (Hl : queries (launched a' q w) !! a = queries w !! a).
  { unfold launched. wsimpl. by rewrite list_lookup_insert_ne. }
  destruct (execute_split a' w q Hq Hbusy) as [[_ ->]|(err & _ & ->)]; [done|].
  rewrite <- Hl.
  destruct (resume_shape (length (executions w)) (Raises err) (launched a' q w) _ _
              (launched_run a' q w) eq_refl (launched_query a' q w Hq))
    as (r & es & Hr & ->).
  wsimpl. by rewrite list_lookup_insert_ne.
Qed.

Lemma other_onComplete w a a' cb :
  a ≠ a' → queries (ActiveQuery.onComplete a' cb w) !! a = queries w !! a.
Proof.
  intros Hne. destruct (queries w !! a') as [q|] eqn:Hq.
  - rewrite (onComplete_closed a' cb w q Hq). wsimpl. by rewrite list_lookup_insert_ne.
  - unfold ActiveQuery.onComplete, updQuery. wsimpl.
    assert (Hno : alter (λ q, withCallbacks (completeCallbacks q ++ [cb]) (errorCallbacks q) q)
                    a' (queries w) !! a' = None).
    { rewrite list_lookup_alter_eq, Hq. done. }
    rewrite Hno. wsimpl. by rewrite list_lookup_alter_ne.
Qed.

Lemma other_callExecute w a a' :
  a ≠ a' → queries (ActiveQuery.callExecute a' w) !! a = queries w !! a.
Proof.
  intros Hne. unfold ActiveQuery.callExecute.
  destruct (queries w !! a') as [q|]; [|done].
  destruct (lazyKey q) as [k|]; [|by apply other_execute].
  destruct (isSomeb _); [by apply other_execute|].
  rewrite other_execute, other_onComplete by done. done.
Qed.

Lemma old_new w e c a q :
  queries w !! a = Some q → queries (ActiveQuery.new e c w).1 !! a = Some q.
Proof.
  intros Hq. unfold ActiveQuery.new. cbn [fst].
  assert (Hne : a ≠ length (queries w)) by (apply lookup_lt_Some in Hq; lia).
  destruct (enabledNotFalse c); [rewrite other_execute by done|];
    wsimpl; by apply lookup_app_l_Some.
Qed.

Lemma old_useFetch w e c a q :
  queries w !! a = Some q →
  resultState <$> queries (useFetch e c w).1 !! a = Some (resultState q).
Proof.
  intros Hq. unfold useFetch.
  rewrite (still_resultState _ _ a (still_attach _ _)).
  by rewrite (old_new w _ c a q Hq).
Qed.

Lemma old_client_useFetch stringify w e c a q :
  queries w !! a = Some q →
  resultState <$> queries (EqueryClient.useFetch stringify e c w).1 !! a
  = Some (resultState q).
Proof.
  intros Hq. unfold EqueryClient.useFetch. cbv zeta.
  set (merged := mergeConfig (clientConfig w) c).
  set (final := finalEndpoint merged (actualEndpoint e)).
  assert (Hne : a ≠ length (queries w)) by (apply lookup_lt_Some in Hq; lia).
  destruct (EqueryClient.cacheKey stringify merged (definitionKey e) final) as [k|];
    cbn [mbind option_bind].
  - destruct (activeQueries w !! k) as [a'|].
    + by rewrite (still_resultState w _ a (still_attach w a')), Hq.
    + rewrite (still_resultState _ _ a (still_attach _ _)).
      destruct (enabledNotFalse merged).
      * rewrite other_onComplete by done. wsimpl.
        by rewrite (old_new w final merged a q Hq).
      * unfold updQuery. wsimpl. rewrite list_lookup_alter_ne by done.
        by rewrite (old_new w final merged a q Hq).
  - rewrite (still_resultState _ _ a (still_attach _ _)).
    by rewrite (old_new w final merged a q Hq).
Qed.

Lemma Runs_unfulfilled w x ex :
  Runs w → executions w !! x = Some ex → outcome ex = None →
  ∃ q, queries w !! owner ex = Some q ∧ isLoading (resultState q) = true
       ∧ promise q = Some x.
Proof.
  intros (_ & H2 & _) Hx Hout.
  destruct (H2 x (owner ex) (timerPending ex)) as (r & ks & Ha & Hl).
  { rewrite list_lookup_fmap, Hx. simpl. unfold execView. by rewrite Hout. }
  rewrite list_lookup_fmap in Ha.
  destruct (queries w !! owner ex) as [q|]; simplify_eq/=.
  unfold runView in Ha. simplify_eq. by exists q.
Qed.

Lemma Runs_loading w a q :
  Runs w → queries w !! a = Some q → isLoading (resultState q) = true →
  ∃ x ex, promise q = Some x ∧ executions w !! x = Some ex ∧ owner ex = a
          ∧ outcome ex = None.
Proof.
  intros (H1 & _) Hq Hl.
  destruct (H1 a (resultState q) (promise q) (evictions (completeCallbacks q)))
    as (x & t & Hp & Hx); [by rewrite list_lookup_fmap, Hq|done|].
  rewrite list_lookup_fmap in Hx.
  destruct (executions w !! x) as [ex|] eqn:Hex; simplify_eq/=.
  unfold execView in Hx. simplify_eq.
  exists x, ex. repeat split; try done. by destruct (outcome ex).
Qed.

Lemma pendingEvictions_elem n ts k :
  k ∈ pendingEvictions n ts ↔
  ∃ a, DeliverCurrent (EvictKey k) a ∈ ts ∧ (a < n)%nat.
Proof.
  unfold pendingEvictions. rewrite list_elem_of_omap. split.
  - intros (t & Hin & Ht). destruct t as [cb a| | | | |]; try done.
    destruct cb; try done. destruct (decide (a < n)%nat); [|done].
    simplify_eq. by exists a.
  - intros (a & Hin & Hlt). exists (DeliverCurrent (EvictKey k) a).
    split; [done|]. by rewrite decide_True.
Qed.

Lemma Runs_registered w k a :
  Runs w → activeQueries w !! k = Some a →
  ∃ q, queries w !! a = Some q ∧ EvictKey k ∈ completeCallbacks q
       ∧ (isLoading (resultState q) = true
          ∨ ∃ a', DeliverCurrent (EvictKey k) a' ∈ microtasks w
                  ∧ (a' < length (queries w))%nat).
Proof.
  intros (_ & _ & _ & H4) Hk.
  destruct (H4 k a Hk) as (r & p & ks & Ha & Hin & Hor).
  rewrite list_lookup_fmap in Ha.
  destruct (queries w !! a) as [q|]; simplify_eq/=.
  unfold runView in Ha. simplify_eq. exists q. split; [done|]. split.
  - unfold evictions in Hin. apply list_elem_of_omap in Hin as (cb & Hcb & Heq).
    destruct cb; by simplify_eq.
  - destruct Hor as [?|Hp]; [by left|right]. by apply pendingEvictions_elem.
Qed.

(** *** Draining the queue *)

Lemma microtasks_tick w t ts : microtasks w = t :: ts → microtasks (tick w) = ts.
Proof.
  intros Hmt. unfold tick. rewrite Hmt.
  destruct t; simpl; try done.
  - destruct (queries w !! aq); [|done]. by rewrite callComplete_emit.
  - by rewrite callError_emit.
  - unfold react. destruct (observers _ !! obs); [|done].
    destruct (QueryObserver.intercept _ _); [|done]. by destruct c.
Qed.

Lemma registry_tick w : activeQueries (tick w) ⊆ activeQueries w.
Proof.
  unfold tick. destruct (microtasks w) as [|t ts]; [done|].
  destruct t; simpl; try done.
  - destruct (queries w !! aq); [|done]. rewrite callComplete_emit. wsimpl.
    destruct cb; simpl; try done. apply delete_subseteq.
  - by rewrite callError_emit.
  - unfold react. destruct (observers _ !! obs); [|done].
    destruct (QueryObserver.intercept _ _); [|done]. by destruct c.
Qed.

Lemma drain_step w t ts : microtasks w = t :: ts → drain w = drain (tick w).
Proof.
  intros Hmt. unfold drain. rewrite (microtasks_tick w t ts Hmt), Hmt. simpl length.
  by rewrite Nat.iter_succ_r.
Qed.

Lemma registry_drain : ∀ ts w, microtasks w = ts → activeQueries (drain w) ⊆ activeQueries w.
Proof.
  induction ts as [|t ts IH]; intros w Hmt.
  - by rewrite drain_nil.
  - rewrite (drain_step w t ts Hmt). etrans; [|apply registry_tick].
    apply IH. by eapply microtasks_tick.
Qed.

(** A queued eviction is carried out when the queue runs, and nothing that
    runs after it registers the key again. *)
Lemma drain_evicts k a : ∀ ts w,
  microtasks w = ts → DeliverCurrent (EvictKey k) a ∈ ts → (a < length (queries w))%nat →
  activeQueries (drain w) !! k = None.
Proof.
  induction ts as [|t ts IH]; intros w Hmt Hin Hlt; [by apply elem_of_nil in Hin|].
  rewrite (drain_step w t ts Hmt).
  apply elem_of_cons in Hin as [<-|Hin].
  - eapply lookup_weaken_None; [|eapply registry_drain; by eapply microtasks_tick].
    unfold tick. rewrite Hmt. simpl.
    destruct (queries w !! a) as [q|] eqn:Hq.
    + simpl. apply lookup_delete_eq.
    + apply lookup_ge_None in Hq. lia.
  - apply IH; [by eapply microtasks_tick|done|by rewrite queries_tick].
Qed.

Lemma Runs_settled_timer w x ex r :
  Runs w → executions w !! x = Some ex → outcome ex = Some r → timerPending ex = false.
Proof.
  intros (_ & _ & H3 & _) Hx Hout.
  destruct (timerPending ex) eqn:Hp; [|done].
  specialize (H3 x (owner ex) (isSomeb (outcome ex))).
  rewrite list_lookup_fmap, Hx in H3. simpl in H3. unfold execView in H3.
  rewrite Hp, Hout in H3. by specialize (H3 eq_refl).
Qed.

(** X1.  In every state a program can reach, the reference count of every
    operation is the number of its observers that have not canceled: it is
    never negative, and it is zero exactly when every observer of the
    operation has canceled. *)
Theorem X1_count_is_live_observers (stringify : JVal → string) (w : World)
    (a : nat) (q : ActiveQuery) :
  reachable stringify w → queries w !! a = Some q →
  refCount q = Z.of_nat (liveObservers a w)
  ∧ 0 ≤ refCount q
  ∧ (refCount q = 0 ↔
     ∀ o ob, observers w !! o = Some ob → activeQuery ob = a →
             isObserverCanceled ob = true).
Proof.
  intros Hreach Hq. pose proof (Inv_reachable stringify w Hreach) as HI.
  pose proof (Inv_refCount w a q HI Hq) as Hrc.
  split; [done|]. split; [lia|]. rewrite Hrc.
  assert (Hz : Z.of_nat (liveObservers a w) = 0 ↔ liveObservers a w = 0%nat) by lia.
  rewrite Hz. unfold liveObservers. rewrite live_zero. unfold handles. split.
  - intros Hnot o ob Ho Ha. destruct (isObserverCanceled ob) eqn:Hc; [done|].
    destruct Hnot. apply list_elem_of_fmap. exists ob. split.
    + unfold handleOf. by rewrite Ha, Hc.
    + by eapply list_elem_of_lookup_2.
  - intros Hall Hin. apply list_elem_of_fmap in Hin as (ob & Heq & Hin).
    apply list_elem_of_lookup_1 in Hin as (o & Ho).
    unfold handleOf in Heq. simplify_eq.
    rewrite (Hall o ob Ho eq_refl) in H0. done.
Qed.

Lemma X1_count_is_live_observers_witness :
  reachable demoStringify sharedWorld
  ∧ refCount (queryAt sharedWorld 0) = Z.of_nat (liveObservers 0 sharedWorld)
  ∧ 0 ≤ refCount (queryAt sharedWorld 0).
Proof.
  assert (Hr : reachable demoStringify sharedWorld) by (by eexists _, _).
  split; [exact Hr|].
  assert (Hq : queries sharedWorld !! 0%nat = Some (queryAt sharedWorld 0))
    by (vm_compute; reflexivity).
  destruct (X1_count_is_live_observers demoStringify sharedWorld 0
              (queryAt sharedWorld 0) Hr Hq) as (H1 & H2 & _).
  split; [exact H1|exact H2].
Defined.

(** X2.  In every state a program can reach, an operation is loading
    exactly while its current run (its promise) is unfulfilled, and no
    other run of it is unfulfilled: two unfulfilled runs never belong to one
    operation.  So [execute()] on an observer of a loading operation starts
    nothing: the unit of work is not called, no run and no controller is
    created. *)
Theorem X2_one_run_in_flight (stringify : JVal → string) (w : World) :
  reachable stringify w →
  (∀ a q, queries w !! a = Some q → isLoading (resultState q) = true →
     ∃ x ex, promise q = Some x ∧ executions w !! x = Some ex ∧ owner ex = a
             ∧ outcome ex = None)
  ∧ (∀ x ex, executions w !! x = Some ex → outcome ex = None →
       ∃ q, queries w !! owner ex = Some q ∧ isLoading (resultState q) = true
            ∧ promise q = Some x)
  ∧ (∀ x1 x2 ex1 ex2,
       executions w !! x1 = Some ex1 → executions w !! x2 = Some ex2 →
       outcome ex1 = None → outcome ex2 = None → owner ex1 = owner ex2 → x1 = x2)
  ∧ (∀ o ob q,
       observers w !! o = Some ob → queries w !! activeQuery ob = Some q →
       isLoading (resultState q) = true →
       trace (QueryObserver.execute o w) = trace w
       ∧ executions (QueryObserver.execute o w) = executions w
       ∧ controllers (QueryObserver.execute o w) = controllers w).
Proof.
  intros Hreach. pose proof (Runs_reachable stringify w Hreach) as HR.
  split; [|split; [|split]].
  - intros a q Hq Hl. by apply Runs_loading.
  - intros x ex Hx Hout. by apply Runs_unfulfilled.
  - intros x1 x2 ex1 ex2 H1 H2 Ho1 Ho2 Hown.
    destruct (Runs_unfulfilled w x1 ex1 HR H1 Ho1) as (q1 & Hq1 & _ & Hp1).
    destruct (Runs_unfulfilled w x2 ex2 HR H2 Ho2) as (q2 & Hq2 & _ & Hp2).
    rewrite Hown in Hq1. congruence.
  - intros o ob q Ho Hq Hl.
    pose proof (Runs_loading_busy w _ q HR Hq Hl) as Hbusy.
    unfold QueryObserver.execute. rewrite Ho.
    unfold ActiveQuery.callExecute. rewrite Hq.
    destruct (lazyKey q) as [k|].
    2:{ by rewrite (execute_in_flight _ w q Hq Hbusy). }
    destruct (isSomeb (activeQueries w !! k)).
    { by rewrite (execute_in_flight _ w q Hq Hbusy). }
    erewrite onComplete_closed by by_lookup. wsimpl.
    erewrite execute_in_flight; [done| |].
    + wsimpl. apply list_lookup_insert_eq. by eapply lookup_lt_Some.
    + wsimpl. exact Hbusy.
Qed.

Lemma X2_one_run_in_flight_witness :
  reachable demoStringify sharedWorld
  ∧ trace (QueryObserver.execute 1 sharedWorld) = trace sharedWorld.
Proof.
  assert (Hr : reachable demoStringify sharedWorld) by (by eexists _, _).
  split; [exact Hr|].
  destruct (X2_one_run_in_flight demoStringify sharedWorld Hr) as (_ & _ & _ & H).
  assert (Ho : observers sharedWorld !! 1%nat = Some (observerAt sharedWorld 1))
    by (vm_compute; reflexivity).
  assert (Hq : queries sharedWorld !! activeQuery (observerAt sharedWorld 1)
               = Some (queryAt sharedWorld 0)) by (vm_compute; reflexivity).
  assert (Hl : isLoading (resultState (queryAt sharedWorld 0)) = true)
    by (vm_compute; reflexivity).
  destruct (H 1%nat (observerAt sharedWorld 1) (queryAt sharedWorld 0) Ho Hq Hl)
    as (Ht & _).
  exact Ht.
Defined.

(** X3.  In every state a program can reach, a registered key is on its way
    out.  The operation registered under it has the eviction of that key on
    its completion list, so the key is free as soon as a run of that
    operation settles, with any outcome; and either the operation is in
    flight (loading, its current run unfulfilled), or the eviction is
    already queued as a microtask (the operation had settled when its key
    was registered) and the key is free once the queue has run. *)
Theorem X3_registered_key_is_released (stringify : JVal → string) (w : World)
    (k : string) (a : nat) :
  reachable stringify w → activeQueries w !! k = Some a →
  ∃ q,
    queries w !! a = Some q
    ∧ EvictKey k ∈ completeCallbacks q
    ∧ (∀ x ex out, executions w !! x = Some ex → owner ex = a → outcome ex = None →
         activeQueries (ActiveQuery.resume x out w) !! k = None)
    ∧ ((isLoading (resultState q) = true
        ∧ ∃ x ex, promise q = Some x ∧ executions w !! x = Some ex ∧ outcome ex = None)
       ∨ activeQueries (drain w) !! k = None).
Proof.
  intros Hreach Hk. pose proof (Runs_reachable stringify w Hreach) as HR.
  destruct (Runs_registered w k a HR Hk) as (q & Hq & Hin & Hor).
  exists q. split; [done|]. split; [done|]. split.
  - intros x ex out Hx Hown Hout. rewrite <- Hown in Hq.
    destruct (resume_shape x out w ex q Hx Hout Hq) as (r & es & Hr & ->). wsimpl.
    apply evictions_evicted. unfold evictions. apply list_elem_of_omap.
    by exists (EvictKey k).
  - destruct Hor as [Hl|(a' & Ht & Hlt)].
    + left. split; [done|].
      destruct (Runs_loading w a q HR Hq Hl) as (x & ex & Hp & Hx & Hown & Hout).
      by exists x, ex.
    + right. by eapply drain_evicts.
Qed.

Lemma X3_registered_key_is_released_witness :
  reachable demoStringify thrownWorld
  ∧ activeQueries thrownWorld !! "users" = Some 0%nat
  ∧ isLoading (resultState (queryAt thrownWorld 0)) = false
  ∧ activeQueries (drain thrownWorld) !! "users" = None.
Proof.
  assert (Hr : reachable demoStringify thrownWorld) by (by eexists _, _).
  assert (Hk : activeQueries thrownWorld !! "users" = Some 0%nat)
    by (vm_compute; reflexivity).
  assert (Hl : isLoading (resultState (queryAt thrownWorld 0)) = false)
    by (vm_compute; reflexivity).
  split; [exact Hr|]. split; [exact Hk|]. split; [exact Hl|].
  destruct (X3_registered_key_is_released demoStringify thrownWorld "users" 0 Hr Hk)
    as (q & Hq & _ & _ & [[Hload _]|Hfree]).
  - assert (Hq0 : queries thrownWorld !! 0%nat = Some (queryAt thrownWorld 0))
      by (vm_compute; reflexivity).
    rewrite Hq0 in Hq. injection Hq as <-. rewrite Hl in Hload. discriminate Hload.
  - exact Hfree.
Defined.

(** X4.  Once an operation has settled, its snapshot stays as it is until
    [execute()] is called on one of its observers: no other call and
    nothing the environment does (a late settlement, a timer, a microtask,
    a [cancel()]) changes it. *)
Theorem X4_settled_result_is_stable (stringify : JVal → string) (w : World)
    (a : nat) (q : ActiveQuery) (act : Action) :
  reachable stringify w → queries w !! a = Some q →
  isLoading (resultState q) = false →
  (∀ o, act = CallExecute o → activeQuery <$> observers w !! o ≠ Some a) →
  resultState <$> queries (step stringify w act) !! a = Some (resultState q).
Proof.
  intros Hreach Hq Hl Hact.
  pose proof (Runs_reachable stringify w Hreach) as HR.
  assert (Hstill : ∀ w', still w w' → resultState <$> queries w' !! a = Some (resultState q)).
  { intros w' Hs. by rewrite (still_resultState w w' a Hs), Hq. }
  assert (Hres : ∀ x out,
    resultState <$> queries (ActiveQuery.resume x out w) !! a = Some (resultState q)).
  { intros x out. destruct (executions w !! x) as [ex|] eqn:Hx.
    2:{ unfold ActiveQuery.resume. by rewrite Hx, Hq. }
    destruct (outcome ex) as [r0|] eqn:Hout.
    { unfold ActiveQuery.resume. by rewrite Hx, Hout, Hq. }
    destruct (Runs_unfulfilled w x ex HR Hx Hout) as (q' & Hq' & Hl' & _).
    destruct (resume_shape x out w ex q' Hx Hout Hq') as (r & es & Hr & ->). wsimpl.
    rewrite list_lookup_insert_ne; [by rewrite Hq|]. intros Heq. congruence. }
  destruct act; simpl.
  - by apply old_client_useFetch.
  - by apply old_useFetch.
  - apply Hstill, still_refl.
  - apply Hstill, still_refl.
  - unfold QueryObserver.execute. specialize (Hact o eq_refl).
    destruct (observers w !! o) as [ob|]; [|by rewrite Hq].
    rewrite other_callExecute; [by rewrite Hq|]. simpl in Hact. congruence.
  - apply Hstill, still_observer_onComplete.
  - apply Hstill, still_observer_onError.
  - apply Hstill, still_cancel.
  - apply Hstill, still_chain.
  - apply Hstill, still_chain.
  - apply Hstill, still_chain.
  - apply Hres.
  - apply Hres.
  - by rewrite queries_timerFires, Hq.
  - by rewrite queries_tick, Hq.
  - wsimpl. by rewrite Hq.
Qed.

Lemma X4_settled_result_is_stable_witness :
  reachable demoStringify settledWorld
  ∧ resultState <$> queries (step demoStringify settledWorld (CallCancel 0)) !! 0%nat
    = Some (resultState (queryAt settledWorld 0)).
Proof.
  assert (Hr : reachable demoStringify settledWorld) by (by eexists _, _).
  split; [exact Hr|].
  assert (Hq : queries settledWorld !! 0%nat = Some (queryAt settledWorld 0))
    by (vm_compute; reflexivity).
  assert (Hl : isLoading (resultState (queryAt settledWorld 0)) = false)
    by (vm_compute; reflexivity).
  apply (X4_settled_result_is_stable demoStringify settledWorld 0
           (queryAt settledWorld 0) (CallCancel 0) Hr Hq Hl).
  intros o Ho. discriminate Ho.
Defined.

(** X5.  In every state a program can reach, the timer of a run whose
    promise is fulfilled is no longer pending ([clearTimeout] ran on both
    paths of the async body): its expiry changes nothing, and a pending
    timer always belongs to the unfulfilled current run of a loading
    operation. *)
Theorem X5_no_timer_after_settlement (stringify : JVal → string) (w : World)
    (x : nat) (ex : Execution) :
  reachable stringify w → executions w !! x = Some ex →
  (∀ r, outcome ex = Some r → ActiveQuery.timerFires x w = w)
  ∧ (timerPending ex = true →
     ∃ q, queries w !! owner ex = Some q ∧ isLoading (resultState q) = true
          ∧ promise q = Some x).
Proof.
  intros Hreach Hx. pose proof (Runs_reachable stringify w Hreach) as HR. split.
  - intros r Hout. unfold ActiveQuery.timerFires.
    by rewrite Hx, (Runs_settled_timer w x ex r HR Hx Hout).
  - intros Hp. apply Runs_unfulfilled; [done|done|].
    destruct (outcome ex) as [r|] eqn:Hout; [|done].
    rewrite (Runs_settled_timer w x ex r HR Hx Hout) in Hp. done.
Qed.

Lemma X5_no_timer_after_settlement_witness :
  reachable demoStringify answeredWorld
  ∧ timerPending (runAt waitingWorld 0) = true
  ∧ aborted 0 (ActiveQuery.timerFires 0 waitingWorld) = true
  ∧ timerPending (runAt answeredWorld 0) = false
  ∧ ActiveQuery.timerFires 0 answeredWorld = answeredWorld.
Proof.
  assert (Hr : reachable demoStringify answeredWorld) by (by eexists _, _).
  split; [exact Hr|].
  split; [vm_compute; reflexivity|].
  split; [vm_compute; reflexivity|].
  split; [vm_compute; reflexivity|].
  assert (Hx : executions answeredWorld !! 0%nat = Some (runAt answeredWorld 0))
    by (vm_compute; reflexivity).
  destruct (X5_no_timer_after_settlement demoStringify answeredWorld 0
              (runAt answeredWorld 0) Hr Hx) as (H & _).
  eapply H. vm_compute; reflexivity.
Defined.

(** ** The async body in closed form *)

Lemma resume_closed x out w ex q :
  executions w !! x = Some ex → outcome ex = None →
  queries w !! owner ex = Some q →
  let r := bodyResult ex (aborted (signal ex) w) out (resultState q) in
  let errEvs :=
    match bodyError ex (aborted (signal ex) w) out with
    | Some e => errorCallbacks q ≫= errorEvents (observers w) e
    | None => []
    end in
  ActiveQuery.resume x out w =
    {| queries := <[owner ex := withCallbacks [] [] (withResultState r q)]> (queries w);
       observers := observers w; controllers := controllers w;
       executions :=
         <[x := ActiveQuery.fulfilWith r (ActiveQuery.clearTimer ex)]> (executions w);
       clientConfig := clientConfig w;
       activeQueries := foldl evict (activeQueries w) (completeCallbacks q);
       microtasks := microtasks w ++ map (λ oc, React oc.1 oc.2 r) (reactions ex);
       trace := trace w ++ errEvs ++ (completeCallbacks q ≫= completeEvents (observers w) r);
       throwing := throwing w |}.
Proof.
  intros Hx Hout Hq. cbv zeta. unfold bodyResult, bodyError, caught.
  destruct out as [d|err].
  - destruct (aborted (signal ex) w) eqn:Hab.
    + rewrite (resume_aborted _ d _ _ Hx Hout Hab).
      rewrite (updExecution_lookup _ _ _ _ Hx).
      erewrite onCatch_closed; [ | by_lookup | by_lookup ].
      unfold aborted in *. wsimpl. rewrite Hab.
      apply world_ext; wsimpl; try reflexivity.
      by rewrite list_insert_insert_eq.
    + rewrite (resume_success_closed _ d _ _ _ Hx Hout Hq Hab). done.
  - rewrite (resume_raises _ err _ _ Hx Hout).
    by rewrite (onCatch_closed _ err _ _ _ Hx Hq).
Qed.

Lemma bodyResult_settled ex tok out r0 : isLoading (bodyResult ex tok out r0) = false.
Proof.
  unfold bodyResult. destruct (caught ex tok out) as [err|] eqn:Hc.
  - by destruct (classifyFailure _ _ _ _).
  - destruct out; [done|]. simpl in Hc. done.
Qed.

(** The token is triggered and no timer has fired: whatever the work
    does, the body leaves a canceled snapshot and calls no error callback. *)
Lemma bodyResult_aborted ex out r0 :
  ActiveQuery.timedOut ex = None →
  bodyResult ex true out r0 = withCanceled true (withLoading false r0)
  ∧ bodyError ex true out = None.
Proof.
  intros Hto. unfold bodyResult, bodyError, caught. rewrite Hto.
  destruct out as [d|err]; simpl; rewrite ?orb_true_r; by destruct r0.
Qed.

(** The work fulfils, the token is not triggered. *)
Lemma bodyResult_success ex d r0 :
  bodyResult ex false (Fulfils d) r0 = withLoading false (withData d r0)
  ∧ bodyError ex false (Fulfils d) = None.
Proof. done. Qed.

(** X6.  [then], [catch] and [finally] commute with the settlement of the
    operation: chaining on an observer just before the current run settles
    and just after it leave the same state, with the same reaction queued
    for the same result, and neither call is rejected. *)
Theorem X6_chaining_commutes_with_settlement (w : World) (o x : nat) (ob : QueryObserver)
    (ex : Execution) (q : ActiveQuery) (c : Continuation) (out : Outcome) :
  observers w !! o = Some ob →
  ActiveQuery.getPromise (activeQuery ob) w = Some x →
  executions w !! x = Some ex → outcome ex = None →
  queries w !! owner ex = Some q →
  (QueryObserver.chain o c (ActiveQuery.resume x out w)).1
  = ActiveQuery.resume x out (QueryObserver.chain o c w).1
  ∧ (QueryObserver.chain o c w).2 = None
  ∧ (QueryObserver.chain o c (ActiveQuery.resume x out w)).2 = None.
Proof.
  intros Ho Hp Hx Hout Hq.
  assert (Hbefore : QueryObserver.chain o c w
                    = (updExecution x (ActiveQuery.addReaction (o, c)) w, None)).
  { unfold QueryObserver.chain. by rewrite Ho, Hp, Hx, Hout. }
  rewrite Hbefore. cbn [fst snd].
  rewrite (updExecution_lookup _ _ _ _ Hx).
  erewrite (resume_closed x out (setExecutions _ w)); [ | by_lookup | done | by_lookup ].
  rewrite (resume_closed x out w ex q Hx Hout Hq).
  set (r := bodyResult ex (aborted (signal ex) w) out (resultState q)).
  set (W := Build_World _ _ _ _ _ _ _ _ _).
  assert (Hafter : QueryObserver.chain o c W = (defer (React o c r) W, None)).
  { assert (Hp' : <[owner ex := withCallbacks [] [] (withResultState r q)]> (queries w)
                    !! activeQuery ob ≫= promise = Some x).
    { unfold ActiveQuery.getPromise in Hp.
      destruct (decide (activeQuery ob = owner ex)) as [Heq|Hne].
      - rewrite Heq in *. rewrite list_lookup_insert_eq by by eapply lookup_lt_Some.
        rewrite Hq in Hp. done.
      - by rewrite list_lookup_insert_ne. }
    unfold QueryObserver.chain, ActiveQuery.getPromise. subst W. wsimpl. rewrite Ho.
    rewrite Hp'. wsimpl.
    rewrite list_lookup_insert_eq by by eapply lookup_lt_Some. done. }
  rewrite Hafter. cbn [fst snd]. split; [|done].
  subst W. unfold aborted. wsimpl. fold (aborted (signal ex) w). fold r.
  apply world_ext; wsimpl; try reflexivity.
  - by rewrite list_insert_insert_eq.
  - by rewrite map_app, app_assoc.
Qed.

Lemma X6_chaining_commutes_with_settlement_witness :
  (QueryObserver.chain 0 (OnThen 3)
     (ActiveQuery.resume 0 (Fulfils (JStr "data")) listeningWorld)).1
  = ActiveQuery.resume 0 (Fulfils (JStr "data"))
      (QueryObserver.chain 0 (OnThen 3) listeningWorld).1.
Proof.
  assert (Ho : observers listeningWorld !! 0%nat = Some (observerAt listeningWorld 0))
    by (vm_compute; reflexivity).
  assert (Hp : ActiveQuery.getPromise (activeQuery (observerAt listeningWorld 0))
                 listeningWorld = Some 0%nat) by (vm_compute; reflexivity).
  assert (Hx : executions listeningWorld !! 0%nat = Some (runAt listeningWorld 0))
    by (vm_compute; reflexivity).
  assert (Hout : outcome (runAt listeningWorld 0) = None) by (vm_compute; reflexivity).
  assert (Hq : queries listeningWorld !! owner (runAt listeningWorld 0)
               = Some (queryAt listeningWorld 0)) by (vm_compute; reflexivity).
  exact (proj1 (X6_chaining_commutes_with_settlement listeningWorld 0 0
                  (observerAt listeningWorld 0) (runAt listeningWorld 0)
                  (queryAt listeningWorld 0) (OnThen 3) (Fulfils (JStr "data"))
                  Ho Hp Hx Hout Hq)).
Defined.

(** ** The promise view, from the call to the continuation *)


Lemma react_closed o c res w ob :
  observers w !! o = Some ob →
  react o c res w
  = emit [surfaced c (if isObserverCanceled ob then canceledState else res)] w.
Proof. intros Ho. unfold react. rewrite Ho. by destruct c, (isObserverCanceled ob). Qed.





Lemma fresh_relay_error_events (obs : list QueryObserver) a o e :
  obs !! o = Some (freshObserver a) → [RelayError o] ≫= errorEvents obs e = [].
Proof. intros Ho. rewrite bind_singleton. simpl. by rewrite Ho. Qed.

Lemma fresh_relay_complete_events (obs : list QueryObserver) a o r :
  obs !! o = Some (freshObserver a) → completeEvents obs r (RelayComplete o) = [].
Proof. intros Ho. simpl. by rewrite Ho. Qed.

Lemma quiet_fanout (obs : list QueryObserver) a o k r (oe : option JVal) :
  obs !! o = Some (freshObserver a) →
  match oe with
  | Some e0 => [RelayError o] ≫= errorEvents obs e0
  | None => []
  end ++ ([EvictKey k; RelayComplete o] ≫= completeEvents obs r) = [].
Proof.
  intros Ho. rewrite bind_cons, bind_singleton.
  rewrite (fresh_relay_complete_events _ _ _ _ Ho).
  destruct oe; [|done]. by rewrite (fresh_relay_error_events _ _ _ _ Ho).
Qed.

(** X7.  The registry is not a cache.  A call registers the operation of a
    key, the call of the unit of work returns and the work is in flight;
    when the work settles, with any outcome, the key is free again at once,
    and the same call made afterwards creates a second operation and calls
    the unit of work a second time. *)
Theorem X7_refetch_after_settlement (stringify : JVal → string) (w : World)
    (e : EndpointArg) (c : QueryConfig) (k : string) (out : Outcome) :
  EqueryClient.keyOf stringify e c w = Some k → activeQueries w !! k = None →
  enabledNotFalse (mergedOf c w) = true →
  throwing w (finalOf e c w) = None →
  let a := length (queries w) in
  let r1 := EqueryClient.useFetch stringify e c w in
  let w2 := ActiveQuery.resume (length (executions w)) out r1.1 in
  let r3 := EqueryClient.useFetch stringify e c w2 in
  activeQueries r1.1 !! k = Some a
  ∧ activeQueries w2 = activeQueries w
  ∧ QueryObserver.getQueryId r1.2 r3.1 = Some a
  ∧ QueryObserver.getQueryId r3.2 r3.1 = Some (S a)
  ∧ activeQueries r3.1 !! k = Some (S a)
  ∧ trace r3.1 = trace w ++ [Invoked a; Invoked (S a)].
Proof.
  intros Hk Hfree He Hret. cbv zeta.
  rewrite (client_useFetch_enabled_closed stringify e c w k Hk Hfree He Hret). cbn [fst snd].
  set (q1 := withCallbacks _ _ _). set (w1 := Build_World _ _ _ _ _ _ _ _ _).
  assert (Hx : executions w1 !! length (executions w)
               = Some (freshRun (length (queries w)) (length (controllers w)) (mergedOf c w)))
    by (subst w1; wsimpl; apply lookup_snoc_length).
  assert (Hq1 : queries w1 !! length (queries w) = Some q1)
    by (subst w1; wsimpl; apply lookup_snoc_length).
  assert (Ho1 : observers w1 !! length (observers w) = Some (freshObserver (length (queries w))))
    by (subst w1; wsimpl; apply lookup_snoc_length).
  rewrite (resume_closed _ out w1 _ q1 Hx eq_refl Hq1).
  set (r := bodyResult _ _ _ _).
  assert (Hquiet : ∀ oe : option JVal,
    match oe with
    | Some e0 => errorCallbacks q1 ≫= errorEvents (observers w1) e0
    | None => []
    end ++ (completeCallbacks q1 ≫= completeEvents (observers w1) r) = []).
  { intros oe. exact (quiet_fanout _ _ _ _ _ oe Ho1). }
  rewrite Hquiet, app_nil_r.
  assert (Hreg : foldl evict (activeQueries w1) (completeCallbacks q1) = activeQueries w).
  { subst w1 q1. wsimpl. simpl. by apply delete_insert_id. }
  rewrite Hreg.
  set (w2 := Build_World _ _ _ _ _ _ _ _ _).
  assert (Hk2 : EqueryClient.keyOf stringify e c w2 = Some k)
    by by rewrite (keyOf_clientConfig stringify e c w w2).
  assert (He2 : enabledNotFalse (mergedOf c w2) = true) by done.
  assert (Hret2 : throwing w2 (finalOf e c w2) = None) by exact Hret.
  rewrite (client_useFetch_enabled_closed stringify e c w2 k Hk2 Hfree He2 Hret2).
  cbn [fst snd].
  subst w2 w1. unfold QueryObserver.getQueryId. wsimpl.
  rewrite !length_app, !length_insert, !length_app. simpl.
  replace (length (queries w) + 1)%nat with (S (length (queries w))) by lia.
  replace (length (observers w) + 1)%nat with (S (length (observers w))) by lia.
  split; [apply lookup_insert_eq|]. split; [done|].
  split; [by rewrite lookup_snoc_snoc|].
  split.
  { replace (S (length (observers w))) with (length (observers w ++ [freshObserver (length (queries w))]))
      by (rewrite length_app; simpl; lia).
    by rewrite lookup_snoc_length. }
  split; [apply lookup_insert_eq|].
  by rewrite app_nil_r, <- app_assoc.
Qed.

Lemma X7_refetch_after_settlement_witness :
  trace (EqueryClient.useFetch demoStringify (Plain (Url "/users")) emptyConfig
           (ActiveQuery.resume 0 (Fulfils (JStr "data"))
              (EqueryClient.useFetch demoStringify (Plain (Url "/users")) emptyConfig
                 (newWorld emptyConfig)).1)).1
  = [Invoked 0; Invoked 1].
Proof.
  assert (Hk : EqueryClient.keyOf demoStringify (Plain (Url "/users")) emptyConfig
                 (newWorld emptyConfig) = Some "GET:/users") by (vm_compute; reflexivity).
  assert (Hfree : activeQueries (newWorld emptyConfig) !! "GET:/users" = None)
    by (vm_compute; reflexivity).
  assert (He : enabledNotFalse (mergedOf emptyConfig (newWorld emptyConfig)) = true)
    by (vm_compute; reflexivity).
  destruct (X7_refetch_after_settlement demoStringify (newWorld emptyConfig)
              (Plain (Url "/users")) emptyConfig "GET:/users" (Fulfils (JStr "data"))
              Hk Hfree He eq_refl) as (_ & _ & _ & _ & _ & H).
  exact H.
Defined.

(** X8.  Cancellation is cooperative, and the registry keeps an operation
    until its work settles.  When the only observer of a keyed operation
    whose work is in flight (the call of the unit of work returned)
    cancels, the token is triggered but the key stays registered; a call
    for the same key made before the work settles joins that operation: the
    unit of work is not called again, and whatever the work then does, the
    newcomer, which never canceled, is handed the canceled result. *)
Theorem X8_joining_an_aborted_operation (stringify : JVal → string) (w : World)
    (e e2 : EndpointArg) (c c2 : QueryConfig) (k : string) (tag : nat) (out : Outcome) :
  EqueryClient.keyOf stringify e c w = Some k → activeQueries w !! k = None →
  enabledNotFalse (mergedOf c w) = true →
  throwing w (finalOf e c w) = None →
  EqueryClient.keyOf stringify e2 c2 w = Some k →
  let a := length (queries w) in
  let r1 := EqueryClient.useFetch stringify e c w in
  let w2 := QueryObserver.cancel r1.2 r1.1 in
  let r3 := EqueryClient.useFetch stringify e2 c2 w2 in
  let w4 := QueryObserver.onComplete r3.2 tag r3.1 in
  let w5 := ActiveQuery.resume (length (executions w)) out w4 in
  aborted (length (controllers w)) w2 = true
  ∧ activeQueries w2 !! k = Some a
  ∧ QueryObserver.getQueryId r3.2 r3.1 = Some a
  ∧ trace w4 = trace w ++ [Invoked a]
  ∧ resultState <$> queries w5 !! a = Some canceledState
  ∧ trace w5 = trace w ++ [Invoked a; CalledComplete tag canceledState].
Proof.
  intros Hk Hfree He Hret Hk2. cbv zeta.
  rewrite (client_useFetch_enabled_closed stringify e c w k Hk Hfree He Hret). cbn [fst snd].
  set (q1 := withCallbacks _ _ _). set (w1 := Build_World _ _ _ _ _ _ _ _ _).
  assert (Hq1 : queries w1 !! length (queries w) = Some q1)
    by (subst w1; wsimpl; apply lookup_snoc_length).
  assert (Ho1 : observers w1 !! length (observers w) = Some (freshObserver (length (queries w))))
    by (subst w1; wsimpl; apply lookup_snoc_length).
  rewrite (cancel_closed _ w1 _ q1 Ho1 eq_refl Hq1).
  set (q2 := withRefCount _ q1). set (ob1 := Build_QueryObserver _ _ _ _).
  set (w2 := Build_World _ _ _ _ _ _ _ _ _).
  assert (Hcs : controllers w2 = controllers w ++ [true]).
  { subst w2 w1 q1. unfold afterRemoveRef. wsimpl. simpl. apply insert_snoc_length. }
  assert (Hab : aborted (length (controllers w)) w2 = true).
  { unfold aborted. by rewrite Hcs, lookup_snoc_length. }
  assert (Hreg : activeQueries w2 !! k = Some (length (queries w)))
    by (subst w2 w1; wsimpl; apply lookup_insert_eq).
  assert (Hq2 : queries w2 !! length (queries w) = Some q2).
  { subst w2 w1. wsimpl. rewrite insert_snoc_length. apply lookup_snoc_length. }
  assert (Hobs2 : observers w2 = observers w ++ [ob1]).
  { subst w2 w1. wsimpl. apply insert_snoc_length. }
  assert (Hk2' : EqueryClient.keyOf stringify e2 c2 w2 = Some k)
    by by rewrite (keyOf_clientConfig stringify e2 c2 w w2).
  rewrite (client_useFetch_shared stringify e2 c2 w2 k _ Hk2' Hreg).
  rewrite (observer_new_closed _ w2 q2 Hq2). cbn [fst snd].
  set (q3 := withCallbacks _ _ _). set (w3 := Build_World _ _ _ _ _ _ _ _ _).
  assert (Ho2 : observers w3 !! length (observers w2)
                = Some (freshObserver (length (queries w))))
    by (subst w3; wsimpl; apply lookup_snoc_length).
  assert (Hq3 : queries w3 !! activeQuery (freshObserver (length (queries w))) = Some q3).
  { subst w3. wsimpl. apply list_lookup_insert_eq. by eapply lookup_lt_Some. }
  rewrite (observer_onComplete_closed _ tag w3 _ q3 Ho2 Hq3).
  assert (Hloading : isSettled (resultState q3) = false) by done.
  rewrite Hloading. cbn [andb]. rewrite app_nil_r.
  set (ob2 := QueryObserver.withWrapped _ _ _). set (w4 := setMicrotasks _ _).
  assert (Hx : executions w4 !! length (executions w)
               = Some (freshRun (length (queries w)) (length (controllers w)) (mergedOf c w)))
    by (subst w4 w3 w2 w1; wsimpl; apply lookup_snoc_length).
  assert (Hq4 : queries w4 !! length (queries w) = Some q3) by exact Hq3.
  assert (Hobs4 : observers w4 = observers w ++ [ob1; ob2]).
  { subst w4 w3. wsimpl. rewrite Hobs2, insert_snoc_length.
    by rewrite <- app_assoc. }
  assert (Htr4 : trace w4 = trace w ++ [Invoked (length (queries w))]) by done.
  split; [done|]. split; [done|].
  split.
  { unfold QueryObserver.getQueryId. subst w3. wsimpl. by rewrite lookup_snoc_length. }
  split; [done|].
  rewrite (resume_closed _ out w4 _ q3 Hx eq_refl Hq4).
  assert (Hab4 : aborted (signal (freshRun (length (queries w)) (length (controllers w))
                                    (mergedOf c w))) w4 = true) by exact Hab.
  rewrite Hab4.
  destruct (bodyResult_aborted
              (freshRun (length (queries w)) (length (controllers w)) (mergedOf c w)) out
              (resultState q3) eq_refl) as [-> ->].
  cbn [queries trace]. split.
  { rewrite list_lookup_insert_eq by by eapply lookup_lt_Some. done. }
  assert (Hcbs : completeCallbacks q3
                 = [EvictKey k; RelayComplete (length (observers w));
                    RelayComplete (S (length (observers w)))]).
  { subst q3 q2 q1. wsimpl. rewrite Hobs2, length_app. simpl.
    by replace (length (observers w) + 1)%nat with (S (length (observers w))) by lia. }
  assert (Hl1 : (observers w ++ [ob1; ob2]) !! length (observers w) = Some ob1)
    by by apply list_lookup_middle.
  assert (Hl2 : (observers w ++ [ob1; ob2]) !! S (length (observers w)) = Some ob2).
  { replace (observers w ++ [ob1; ob2]) with ((observers w ++ [ob1]) ++ [ob2])
      by by rewrite <- app_assoc.
    replace (S (length (observers w))) with (length (observers w ++ [ob1]))
      by (rewrite length_app; simpl; lia).
    apply lookup_snoc_length. }
  rewrite Htr4, Hobs4, Hcbs, <- app_assoc. f_equal.
  rewrite !bind_cons.
  unfold completeEvents. rewrite Hl1, Hl2. done.
Qed.

Lemma insert_middle {A} (l k : list A) (x y : A) :
  <[length l := y]> (l ++ x :: k) = l ++ y :: k.
Proof. by rewrite insert_app_r_alt, Nat.sub_diag by lia. Qed.

Lemma X8_joining_an_aborted_operation_witness :
  trace
    (ActiveQuery.resume 0 (Fulfils (JStr "data"))
       (QueryObserver.onComplete 1 7
          (EqueryClient.useFetch demoStringify (Plain (Url "/users")) emptyConfig
             (QueryObserver.cancel 0
                (EqueryClient.useFetch demoStringify (Plain (Url "/users")) emptyConfig
                   (newWorld emptyConfig)).1)).1))
  = [Invoked 0; CalledComplete 7 canceledState].
Proof.
  assert (Hk : EqueryClient.keyOf demoStringify (Plain (Url "/users")) emptyConfig
                 (newWorld emptyConfig) = Some "GET:/users") by (vm_compute; reflexivity).
  assert (Hfree : activeQueries (newWorld emptyConfig) !! "GET:/users" = None)
    by (vm_compute; reflexivity).
  assert (He : enabledNotFalse (mergedOf emptyConfig (newWorld emptyConfig)) = true)
    by (vm_compute; reflexivity).
  destruct (X8_joining_an_aborted_operation demoStringify (newWorld emptyConfig)
              (Plain (Url "/users")) (Plain (Url "/users")) emptyConfig emptyConfig
              "GET:/users" 7 (Fulfils (JStr "data")) Hk Hfree He eq_refl Hk)
    as (_ & _ & _ & _ & _ & H).
  exact H.
Defined.

(** X9.  Two observers share a keyed operation whose work is in flight
    (the call of the unit of work returned) and each registers a
    completion callback; the first cancels before the work settles.  The
    token is not triggered and the count drops to 1; when the work settles,
    with any outcome, the callback of the remaining observer is called with
    the result of the operation (the data, if the work fulfilled), and the
    callback of the canceled observer is called once, with the synthesized
    canceled result, never with the real one. *)
Theorem X9_canceling_one_of_two (stringify : JVal → string) (w : World)
    (e e2 : EndpointArg) (c c2 : QueryConfig) (k : string) (t1 t2 : nat) (out : Outcome) :
  EqueryClient.keyOf stringify e c w = Some k → activeQueries w !! k = None →
  enabledNotFalse (mergedOf c w) = true →
  throwing w (finalOf e c w) = None →
  EqueryClient.keyOf stringify e2 c2 w = Some k →
  microtasks w = [] →
  let a := length (queries w) in
  let r1 := EqueryClient.useFetch stringify e c w in
  let r2 := EqueryClient.useFetch stringify e2 c2 r1.1 in
  let w3 := QueryObserver.onComplete r1.2 t1 r2.1 in
  let w4 := QueryObserver.onComplete r2.2 t2 w3 in
  let w5 := QueryObserver.cancel r1.2 w4 in
  let w6 := drain (ActiveQuery.resume (length (executions w)) out w5) in
  QueryObserver.getQueryId r2.2 r2.1 = Some a
  ∧ aborted (length (controllers w)) w5 = false
  ∧ refCount <$> queries w5 !! a = Some 1
  ∧ ∃ r, resultState <$> queries w6 !! a = Some r
         ∧ isLoading r = false
         ∧ (∀ d, out = Fulfils d → data r = d ∧ isSuccess r = true ∧ isCanceled r = false)
         ∧ trace w6 = trace w ++ [Invoked a; CalledComplete t2 r;
                                  CalledComplete t1 canceledState].
Proof.
  intros Hk Hfree He Hret Hk2 Hmt. cbv zeta.
  rewrite (client_useFetch_enabled_closed stringify e c w k Hk Hfree He Hret). cbn [fst snd].
  set (q1 := withCallbacks _ _ _). set (w1 := Build_World _ _ _ _ _ _ _ _ _).
  set (a := length (queries w)). set (n := length (observers w)).
  set (run := freshRun a (length (controllers w)) (mergedOf c w)).
  assert (Hqs1 : queries w1 = queries w ++ [q1]) by done.
  assert (Hobs1 : observers w1 = observers w ++ [freshObserver a]) by done.
  assert (Hq1 : queries w1 !! a = Some q1) by (rewrite Hqs1; apply lookup_snoc_length).
  assert (Hreg1 : activeQueries w1 !! k = Some a) by (subst w1; wsimpl; apply lookup_insert_eq).
  assert (Hk2' : EqueryClient.keyOf stringify e2 c2 w1 = Some k)
    by by rewrite (keyOf_clientConfig stringify e2 c2 w w1).
  rewrite (client_useFetch_shared stringify e2 c2 w1 k _ Hk2' Hreg1).
  rewrite (observer_new_closed _ w1 q1 Hq1). cbn [fst snd].
  assert (Hlen1 : length (observers w1) = S n) by (rewrite Hobs1, length_app; simpl; lia).
  rewrite Hlen1.
  set (q2 := withCallbacks _ _ _). set (w2 := Build_World _ _ _ _ _ _ _ _ _).
  assert (Hqs2 : queries w2 = queries w ++ [q2]).
  { subst w2. wsimpl. rewrite Hqs1. apply insert_snoc_length. }
  assert (Hobs2 : observers w2 = observers w ++ [freshObserver a; freshObserver a]).
  { subst w2. wsimpl. by rewrite Hobs1, <- app_assoc. }
  assert (Hq2 : queries w2 !! a = Some q2) by (rewrite Hqs2; apply lookup_snoc_length).
  assert (Ho21 : observers w2 !! n = Some (freshObserver a))
    by (rewrite Hobs2; by apply list_lookup_middle).
  rewrite (observer_onComplete_closed n t1 w2 _ q2 Ho21 Hq2).
  assert (Hload2 : isSettled (resultState q2) = false) by done.
  rewrite Hload2. cbn [andb]. rewrite app_nil_r.
  set (ob1 := QueryObserver.withWrapped _ _ _). set (w3 := setMicrotasks _ _).
  assert (Hobs3 : observers w3 = observers w ++ [ob1; freshObserver a]).
  { subst w3. wsimpl. rewrite Hobs2. subst n.
    by rewrite insert_middle. }
  assert (Hq3 : queries w3 !! a = Some q2) by exact Hq2.
  assert (Ho32 : observers w3 !! S n = Some (freshObserver a)).
  { rewrite Hobs3. subst n.
    replace (observers w ++ [ob1; freshObserver a])
      with ((observers w ++ [ob1]) ++ [freshObserver a]) by by rewrite <- app_assoc.
    replace (S (length (observers w))) with (length (observers w ++ [ob1]))
      by (rewrite length_app; simpl; lia).
    apply lookup_snoc_length. }
  rewrite (observer_onComplete_closed (S n) t2 w3 _ q2 Ho32 Hq3).
  rewrite Hload2. cbn [andb]. rewrite app_nil_r.
  set (ob2 := QueryObserver.withWrapped _ _ (freshObserver a)). set (w4 := setMicrotasks _ _).
  assert (Hobs4 : observers w4 = observers w ++ [ob1; ob2]).
  { subst w4. wsimpl. rewrite Hobs3. subst n.
    replace (observers w ++ [ob1; freshObserver a])
      with ((observers w ++ [ob1]) ++ [freshObserver a]) by by rewrite <- app_assoc.
    replace (S (length (observers w))) with (length (observers w ++ [ob1]))
      by (rewrite length_app; simpl; lia).
    by rewrite insert_snoc_length, <- app_assoc. }
  assert (Hq4 : queries w4 !! activeQuery ob1 = Some q2) by exact Hq2.
  assert (Ho41 : observers w4 !! n = Some ob1)
    by (rewrite Hobs4; by apply list_lookup_middle).
  rewrite (cancel_closed n w4 ob1 q2 Ho41 eq_refl Hq4).
  set (q5 := withRefCount _ q2). set (ob1' := Build_QueryObserver _ _ _ _).
  set (w5 := Build_World _ _ _ _ _ _ _ _ _).
  assert (Hcs5 : controllers w5 = controllers w ++ [false]) by done.
  assert (Hqs5 : queries w5 = queries w ++ [q5]).
  { subst w5. wsimpl. change (queries w4) with (queries w2). rewrite Hqs2.
    apply insert_snoc_length. }
  assert (Hobs5 : observers w5 = observers w ++ [ob1'; ob2]).
  { subst w5. wsimpl. rewrite Hobs4. subst n.
    by rewrite insert_middle. }
  assert (Hmt5 : microtasks w5 = [DeliverCanceled [t1]]).
  { subst w5 w4 w3 w2 w1. wsimpl. by rewrite Hmt. }
  assert (Htr5 : trace w5 = trace w ++ [Invoked a]) by done.
  assert (Hx5 : executions w5 !! length (executions w) = Some run)
    by (subst w5 w4 w3 w2 w1; wsimpl; apply lookup_snoc_length).
  assert (Hq5 : queries w5 !! owner run = Some q5)
    by (rewrite Hqs5; apply lookup_snoc_length).
  assert (Hab5 : aborted (length (controllers w)) w5 = false).
  { unfold aborted. by rewrite Hcs5, lookup_snoc_length. }
  split.
  { unfold QueryObserver.getQueryId. subst w2. wsimpl. rewrite <- Hlen1.
    by rewrite (lookup_snoc_length (observers w1)). }
  split; [exact Hab5|].
  split; [by rewrite Hqs5; unfold a; rewrite lookup_snoc_length|].
  rewrite (resume_closed _ out w5 run q5 Hx5 eq_refl Hq5).
  change (aborted (signal run) w5) with (aborted (length (controllers w)) w5).
  rewrite Hab5.
  set (r := bodyResult run false out (resultState q5)).
  assert (Hcbs : completeCallbacks q5 = [EvictKey k; RelayComplete n; RelayComplete (S n)])
    by done.
  assert (Hecbs : errorCallbacks q5 = [RelayError n; RelayError (S n)]) by done.
  assert (Hl1 : (observers w ++ [ob1'; ob2]) !! n = Some ob1') by by apply list_lookup_middle.
  assert (Hl2 : (observers w ++ [ob1'; ob2]) !! S n = Some ob2).
  { replace (observers w ++ [ob1'; ob2]) with ((observers w ++ [ob1']) ++ [ob2])
      by by rewrite <- app_assoc.
    replace (S n) with (length (observers w ++ [ob1']))
      by (rewrite length_app; simpl; subst n; lia).
    apply lookup_snoc_length. }
  assert (Herr : match bodyError run false out with
                 | Some e0 => errorCallbacks q5 ≫= errorEvents (observers w5) e0
                 | None => []
                 end = []).
  { destruct (bodyError run false out); [|done].
    rewrite Hecbs, Hobs5, !bind_cons. unfold errorEvents. by rewrite Hl1, Hl2. }
  assert (Hcomp : completeCallbacks q5 ≫= completeEvents (observers w5) r
                  = [CalledComplete t2 r]).
  { rewrite Hcbs, Hobs5, !bind_cons. unfold completeEvents. by rewrite Hl1, Hl2. }
  rewrite Herr, Hcomp, Hmt5, Htr5. cbn [app map reactions run freshRun].
  erewrite drain_single by reflexivity.
  cbn [runTask map]. wsimpl.
  exists r. split.
  { rewrite Hqs5. unfold run, a. cbn [owner freshRun].
    rewrite insert_snoc_length, lookup_snoc_length. done. }
  split; [apply bodyResult_settled|].
  split; [by intros d ->|].
  by rewrite <- !app_assoc.
Qed.

Lemma X9_canceling_one_of_two_witness :
  aborted 0
    (QueryObserver.cancel 0
       (QueryObserver.onComplete 1 8
          (QueryObserver.onComplete 0 7
             (EqueryClient.useFetch demoStringify (Plain (Url "/users")) emptyConfig
                (EqueryClient.useFetch demoStringify (Plain (Url "/users")) emptyConfig
                   (newWorld emptyConfig)).1).1))) = false.
Proof.
  assert (Hk : EqueryClient.keyOf demoStringify (Plain (Url "/users")) emptyConfig
                 (newWorld emptyConfig) = Some "GET:/users") by (vm_compute; reflexivity).
  assert (Hfree : activeQueries (newWorld emptyConfig) !! "GET:/users" = None)
    by (vm_compute; reflexivity).
  assert (He : enabledNotFalse (mergedOf emptyConfig (newWorld emptyConfig)) = true)
    by (vm_compute; reflexivity).
  destruct (X9_canceling_one_of_two demoStringify (newWorld emptyConfig)
              (Plain (Url "/users")) (Plain (Url "/users")) emptyConfig emptyConfig
              "GET:/users" 7 8 (Fulfils (JStr "data")) Hk Hfree He eq_refl Hk eq_refl)
    as (_ & H & _).
  exact H.
Defined.

(** X10.  A response whose [ok] flag is false settles the operation as a
    failure: unless the timer has fired or the token is triggered, the
    snapshot gets isError with an error whose message is "request failed
    with status N", the data and the other flags stay as they were, the
    error callbacks are called before the completion callbacks, and the
    body of the response is never read: whatever [response.json()] would
    have given, the state is the same. *)
Theorem X10_error_status_is_a_failure (stringify : JVal → string) (w : World) (x : nat)
    (ex : Execution) (q : ActiveQuery) (status : Z) (json json' : Outcome) :
  executions w !! x = Some ex → outcome ex = None →
  queries w !! owner ex = Some q →
  ActiveQuery.timedOut ex = None → aborted (signal ex) w = false →
  let err := mkError ("request failed with status " +:+ pretty status) in
  let r := withError err (withLoading false (resultState q)) in
  let w' := step stringify w (Responds x false status json) in
  resultState <$> queries w' !! owner ex = Some r
  ∧ isError r = true ∧ messageOf (error r) = "request failed with status " +:+ pretty status
  ∧ data r = data (resultState q)
  ∧ trace w' = trace w ++ (errorCallbacks q ≫= errorEvents (observers w) err)
                       ++ (completeCallbacks q ≫= completeEvents (observers w) r)
  ∧ step stringify w (Responds x false status json') = w'.
Proof.
  intros Hx Hout Hq Hto Hab. cbv zeta. cbn [step responseOutcome].
  rewrite (resume_closed x _ w ex q Hx Hout Hq).
  unfold bodyResult, bodyError, caught. rewrite Hto, Hab.
  cbn [isAbortError mkError getProp String.eqb Ascii.eqb Bool.eqb classifyFailure orb
       failureResult failureError]. wsimpl.
  split.
  { rewrite list_lookup_insert_eq by by eapply lookup_lt_Some. done. }
  done.
Qed.

Lemma X10_error_status_is_a_failure_witness :
  trace (step demoStringify listeningWorld (Responds 0 false 500 (Fulfils JNull)))
  = trace listeningWorld
    ++ [CalledError 8 (mkError "request failed with status 500");
        CalledComplete 7
          (withError (mkError "request failed with status 500")
             (withLoading false (resultState (queryAt listeningWorld 0))))].
Proof.
  assert (Hx : executions listeningWorld !! 0%nat = Some (runAt listeningWorld 0))
    by (vm_compute; reflexivity).
  assert (Hout : outcome (runAt listeningWorld 0) = None) by (vm_compute; reflexivity).
  assert (Hq : queries listeningWorld !! owner (runAt listeningWorld 0)
               = Some (queryAt listeningWorld 0)) by (vm_compute; reflexivity).
  assert (Hto : ActiveQuery.timedOut (runAt listeningWorld 0) = None)
    by (vm_compute; reflexivity).
  assert (Hab : aborted (signal (runAt listeningWorld 0)) listeningWorld = false)
    by (vm_compute; reflexivity).
  destruct (X10_error_status_is_a_failure demoStringify listeningWorld 0
              (runAt listeningWorld 0) (queryAt listeningWorld 0) 500
              (Fulfils JNull) (Fulfils JNull) Hx Hout Hq Hto Hab)
    as (_ & _ & _ & _ & H2 & _).
  rewrite H2. vm_compute. reflexivity.
Defined.

(** X11.  A timeout that is missing, [undefined], zero or negative arms no
    timer: the run [execute] starts has no timeout error and nothing
    pending, so no expiry can trigger its token.  A positive timeout gives
    the run its timeout error and arms a timer; if the call of the unit of
    work returned, so that the run is in flight, the expiry of the timer
    triggers the token of the run. *)
Theorem X11_only_a_positive_timeout_arms_a_timer (w : World) (e : EndpointArg)
    (c : QueryConfig) :
  enabledNotFalse c = true →
  let w1 := (useFetch e c w).1 in
  let x := length (executions w) in
  (hasTimeout c = None ↔ ∀ ms, timeout c = Given ms → ms ≤ 0)
  ∧ (hasTimeout c = None →
     ActiveQuery.timerFires x w1 = w1 ∧ aborted (length (controllers w)) w1 = false)
  ∧ (∀ ms, timeout c = Given ms → 0 < ms →
     aborted (length (controllers w)) w1 = false
     ∧ (throwing w (actualEndpoint e) = None →
        aborted (length (controllers w)) (ActiveQuery.timerFires x w1) = true)
     ∧ (timeoutError <$> executions w1 !! x) = Some (Some (mkTimeoutError ms))).
Proof.
  intros He. cbv zeta.
  split.
  { unfold hasTimeout. destruct (timeout c) as [| |ms]; try by split; [intros; simplify_eq|].
    destruct (0 <? ms) eqn:Hms.
    + apply Z.ltb_lt in Hms. split; [done|]. intros H. specialize (H ms eq_refl). lia.
    + apply Z.ltb_ge in Hms. split; [|done]. intros _ ms' [= <-]. done. }
  assert (Hto : ∀ ms, timeout c = Given ms → 0 < ms → hasTimeout c = Some ms).
  { intros ms Hms Hpos. unfold hasTimeout. rewrite Hms.
    by replace (0 <? ms) with true by (symmetry; by apply Z.ltb_lt). }
  destruct (throwing w (actualEndpoint e)) as [err|] eqn:Hthr.
  - rewrite (useFetch_thrown_closed e c w err He Hthr). cbn [fst].
    split.
    + intros Hno. split.
      * unfold ActiveQuery.timerFires. wsimpl. by rewrite lookup_snoc_length.
      * unfold aborted. wsimpl. by rewrite lookup_snoc_length.
    + intros ms Hms Hpos.
      split; [unfold aborted; wsimpl; by rewrite lookup_snoc_length|].
      split; [done|].
      wsimpl. rewrite lookup_snoc_length. unfold thrownRun. cbn [timeoutError fmap].
      by rewrite (Hto ms Hms Hpos).
  - rewrite (useFetch_enabled_closed e c w He Hthr). cbn [fst].
    split.
    + intros Hno. split.
      * unfold ActiveQuery.timerFires. wsimpl. rewrite lookup_snoc_length.
        unfold freshRun. cbn [timerPending]. by rewrite Hno.
      * unfold aborted. wsimpl. by rewrite lookup_snoc_length.
    + intros ms Hms Hpos.
      split; [unfold aborted; wsimpl; by rewrite lookup_snoc_length|].
      split.
      * intros _. erewrite timerFires_closed.
        -- unfold aborted. wsimpl. by rewrite insert_snoc_length, lookup_snoc_length.
        -- wsimpl. apply lookup_snoc_length.
        -- unfold freshRun. cbn [timerPending]. by rewrite (Hto ms Hms Hpos).
        -- wsimpl. apply lookup_snoc_length.
        -- done.
      * wsimpl. rewrite lookup_snoc_length. unfold freshRun. cbn [timeoutError fmap].
        by rewrite (Hto ms Hms Hpos).
Qed.

Lemma X11_only_a_positive_timeout_arms_a_timer_witness :
  ActiveQuery.timerFires 0 (useFetch (Plain (Fn 0)) (withTimeout 0) (newWorld emptyConfig)).1
  = (useFetch (Plain (Fn 0)) (withTimeout 0) (newWorld emptyConfig)).1
  ∧ aborted 0
      (ActiveQuery.timerFires 0
         (useFetch (Plain (Fn 0)) (withTimeout 10) (newWorld emptyConfig)).1) = true.
Proof.
  destruct (X11_only_a_positive_timeout_arms_a_timer (newWorld emptyConfig) (Plain (Fn 0))
              (withTimeout 0) eq_refl) as (_ & H0 & _).
  destruct (X11_only_a_positive_timeout_arms_a_timer (newWorld emptyConfig) (Plain (Fn 0))
              (withTimeout 10) eq_refl) as (_ & _ & H10).
  split; [exact (proj1 (H0 eq_refl))|].
  destruct (H10 10 eq_refl) as (_ & H & _); [lia|exact (H eq_refl)].
Defined.

Lemma bodyResult_terminal ex tok out r0 :
  anyTerminalFlag (bodyResult ex tok out r0) = true.
Proof.
  unfold bodyResult, caught, anyTerminalFlag.
  destruct out as [d|err].
  - destruct tok; [|by rewrite ?orb_true_r].
    destruct (classifyFailure _ _ _ _); simpl; by rewrite ?orb_true_r.
  - destruct (classifyFailure _ _ _ _); simpl; by rewrite ?orb_true_r.
Qed.

(** X12.  A manual operation is executed, its work settles, and it is
    executed again, the calls of the unit of work returning both times.
    The wrapper [EqueryClient.useFetch] installs on a manual operation
    registers the key again at the second [execute()], but the eviction
    callback it adds through
    [onComplete] finds the operation settled and is also scheduled at once:
    at the next microtask the key is evicted while the second run is in
    flight, and a call for the same key made after that is not shared: it
    creates a second operation and calls the unit of work once more. *)
Theorem X12_reexecuted_manual_operation_loses_its_key (stringify : JVal → string)
    (w : World) (e e2 : EndpointArg) (c c2 : QueryConfig) (k : string) (out : Outcome) :
  EqueryClient.keyOf stringify e c w = Some k → activeQueries w !! k = None →
  enabledNotFalse (mergedOf c w) = false →
  throwing w (finalOf e c w) = None →
  EqueryClient.keyOf stringify e2 c2 w = Some k →
  enabledNotFalse (mergedOf c2 w) = true →
  microtasks w = [] →
  let a := length (queries w) in
  let o := length (observers w) in
  let w2 := QueryObserver.execute o (EqueryClient.useFetch stringify e c w).1 in
  let w3 := ActiveQuery.resume (length (executions w)) out w2 in
  let w4 := QueryObserver.execute o w3 in
  let w5 := drain w4 in
  let r6 := EqueryClient.useFetch stringify e2 c2 w5 in
  activeQueries w3 !! k = None
  ∧ activeQueries w4 !! k = Some a
  ∧ activeQueries w5 !! k = None
  ∧ (isLoading ∘ resultState) <$> queries w5 !! a = Some true
  ∧ QueryObserver.getQueryId r6.2 r6.1 = Some (S a)
  ∧ trace r6.1 = trace w ++ [Invoked a; Invoked a; Invoked (S a)].
Proof.
  intros Hk Hfree Hman Hret Hk2 He2 Hmt. cbv zeta.
  rewrite (manual_start_closed stringify e c w k Hk Hfree Hman Hret).
  set (q2 := withRun _ _ _). set (w2 := Build_World _ _ _ _ _ _ _ _ _).
  set (a := length (queries w)). set (o := length (observers w)).
  set (run := freshRun a (length (controllers w)) (mergedOf c w)).
  assert (Hx2 : executions w2 !! length (executions w) = Some run)
    by (subst w2; wsimpl; apply lookup_snoc_length).
  assert (Hq2 : queries w2 !! owner run = Some q2)
    by (subst w2; wsimpl; apply lookup_snoc_length).
  assert (Ho2 : observers w2 !! o = Some (freshObserver a))
    by (subst w2; wsimpl; apply lookup_snoc_length).
  rewrite (resume_closed _ out w2 run q2 Hx2 eq_refl Hq2).
  set (r := bodyResult run _ out (resultState q2)).
  assert (Hquiet : ∀ oe : option JVal,
    match oe with
    | Some e0 => errorCallbacks q2 ≫= errorEvents (observers w2) e0
    | None => []
    end ++ (completeCallbacks q2 ≫= completeEvents (observers w2) r) = []).
  { intros oe.
    change (completeCallbacks q2) with [RelayComplete o; EvictKey k].
    change (errorCallbacks q2) with [RelayError o].
    rewrite bind_cons, bind_singleton.
    rewrite (fresh_relay_complete_events _ _ _ _ Ho2).
    destruct oe; [|done]. by rewrite (fresh_relay_error_events _ _ _ _ Ho2). }
  rewrite Hquiet, app_nil_r.
  assert (Hreg3 : foldl evict (activeQueries w2) (completeCallbacks q2) = activeQueries w).
  { subst w2 q2. wsimpl. simpl. by apply delete_insert_id. }
  rewrite Hreg3.
  set (q3 := withCallbacks [] [] _). set (w3 := Build_World _ _ _ _ _ _ _ _ _).
  assert (Hqs3 : queries w3 = queries w ++ [q3]).
  { subst w3 w2. wsimpl. unfold run, a. cbn [owner freshRun]. apply insert_snoc_length. }
  assert (Hq3 : queries w3 !! a = Some q3) by (rewrite Hqs3; apply lookup_snoc_length).
  assert (Ho3 : observers w3 !! o = Some (freshObserver a)) by exact Ho2.
  assert (Hset3 : isSettled (resultState q3) = true).
  { unfold isSettled. subst q3. wsimpl. subst r.
    by rewrite bodyResult_settled, bodyResult_terminal. }
  assert (Hload3 : isLoading (resultState q3) = false) by apply bodyResult_settled.
  assert (Hexec4 : QueryObserver.execute o w3
    = ActiveQuery.execute a
        (ActiveQuery.onComplete a (EvictKey k)
           (setActiveQueries (<[k := a]> (activeQueries w3)) w3))).
  { unfold QueryObserver.execute. rewrite Ho3. unfold ActiveQuery.callExecute.
    change (activeQuery (freshObserver a)) with a. rewrite Hq3.
    change (lazyKey q3) with (Some k). cbv beta iota.
    change (activeQueries w3 !! k) with (activeQueries w !! k). by rewrite Hfree. }
  rewrite Hexec4.
  erewrite onComplete_closed by exact Hq3. rewrite Hset3.
  set (q3' := withCallbacks (completeCallbacks q3 ++ [EvictKey k]) _ q3).
  set (w3' := setMicrotasks _ _).
  assert (Hq3' : queries w3' !! a = Some q3').
  { subst w3'. wsimpl. rewrite Hqs3. unfold a.
    by rewrite insert_snoc_length, lookup_snoc_length. }
  assert (Hidle3 : isLoading (resultState q3') && isSomeb (promise q3') = false)
    by (change (resultState q3') with (resultState q3); by rewrite Hload3).
  assert (Hret3 : throwing w3' (endpoint q3') = None) by exact Hret.
  rewrite (execute_closed a w3' q3' Hq3' Hidle3 Hret3).
  set (q4 := withRun _ _ _). set (w4 := Build_World _ _ _ _ _ _ _ _ _).
  assert (Hqs4 : queries w4 = queries w ++ [q4]).
  { subst w4 w3'. wsimpl. rewrite Hqs3. unfold a. by rewrite !insert_snoc_length. }
  assert (Hmt4 : microtasks w4 = [DeliverCurrent (EvictKey k) a]).
  { subst w4 w3' w3 w2. wsimpl. by rewrite Hmt. }
  assert (Hreg4 : activeQueries w4 = <[k := a]> (activeQueries w)) by done.
  assert (Htr4 : trace w4 = trace w ++ [Invoked a; Invoked a]).
  { subst w4 w3' w3 w2. wsimpl. by rewrite ?app_nil_r, <- ?app_assoc. }
  split; [exact Hfree|]. split; [rewrite Hreg4; apply lookup_insert_eq|].
  rewrite (drain_single _ w4 Hmt4). cbn [runTask].
  assert (Hq4 : queries (setMicrotasks [] w4) !! a = Some q4)
    by (wsimpl; rewrite Hqs4; apply lookup_snoc_length).
  rewrite Hq4, callComplete_emit. cbn [completeEvents evict]. rewrite emit_nil.
  set (w5 := setActiveQueries _ _).
  assert (Hreg5 : activeQueries w5 = activeQueries w).
  { subst w5. wsimpl. rewrite Hreg4. by apply delete_insert_id. }
  assert (Hfree5 : activeQueries w5 !! k = None) by by rewrite Hreg5.
  assert (Hk5 : EqueryClient.keyOf stringify e2 c2 w5 = Some k)
    by by rewrite (keyOf_clientConfig stringify e2 c2 w w5).
  assert (He5 : enabledNotFalse (mergedOf c2 w5) = true) by exact He2.
  split; [exact Hfree5|].
  split.
  { change (queries w5) with (queries w4). rewrite Hqs4. unfold a.
    by rewrite lookup_snoc_length. }
  destruct (client_useFetch_enabled_facts stringify e2 c2 w5 k Hk5 Hfree5 He5)
    as (q6 & x6 & ts6 & _ & _ & ->).
  cbn [fst snd]. unfold QueryObserver.getQueryId. wsimpl.
  change (queries w5) with (queries w4). change (trace w5) with (trace w4).
  rewrite Hqs4, Htr4, length_app, lookup_snoc_length. cbn [length fmap option_fmap option_map freshObserver activeQuery].
  replace (length (queries w) + 1)%nat with (S a) by (unfold a; lia).
  split; [done|]. by rewrite <- app_assoc.
Qed.

Lemma X12_reexecuted_manual_operation_loses_its_key_witness :
  trace
    (EqueryClient.useFetch demoStringify (Plain (Url manualUrl)) emptyConfig
       (drain
          (QueryObserver.execute 0
             (ActiveQuery.resume 0 (Fulfils (JStr "data"))
                (QueryObserver.execute 0
                   (EqueryClient.useFetch demoStringify (Plain (Url manualUrl)) manual
                      (newWorld emptyConfig)).1))))).1
  = [Invoked 0; Invoked 0; Invoked 1].
Proof.
  assert (Hk : EqueryClient.keyOf demoStringify (Plain (Url manualUrl)) manual
                 (newWorld emptyConfig) = Some ("GET:" +:+ manualUrl))
    by (vm_compute; reflexivity).
  assert (Hfree : activeQueries (newWorld emptyConfig) !! ("GET:" +:+ manualUrl) = None)
    by (vm_compute; reflexivity).
  assert (Hman : enabledNotFalse (mergedOf manual (newWorld emptyConfig)) = false)
    by (vm_compute; reflexivity).
  assert (Hk2 : EqueryClient.keyOf demoStringify (Plain (Url manualUrl)) emptyConfig
                  (newWorld emptyConfig) = Some ("GET:" +:+ manualUrl))
    by (vm_compute; reflexivity).
  assert (He2 : enabledNotFalse (mergedOf emptyConfig (newWorld emptyConfig)) = true)
    by (vm_compute; reflexivity).
  destruct (X12_reexecuted_manual_operation_loses_its_key demoStringify
              (newWorld emptyConfig) (Plain (Url manualUrl)) (Plain (Url manualUrl))
              manual emptyConfig ("GET:" +:+ manualUrl) (Fulfils (JStr "data"))
              Hk Hfree Hman eq_refl Hk2 He2 eq_refl) as (_ & _ & _ & _ & _ & H).
  exact H.
Defined.

(** ** Joining the base URL *)

Lemma append_assoc (s1 s2 s3 : string) : (s1 +:+ s2) +:+ s3 = s1 +:+ s2 +:+ s3.
Proof.
  induction s1 as [|ch s1 IH]; [done|].
  rewrite !append_cons. by rewrite IH.
Qed.

Lemma dropTrailingSlash_snoc (b : string) : dropTrailingSlash (b +:+ "/") = b.
Proof.
  induction b as [|ch b IH]; [done|].
  rewrite append_cons. destruct b as [|ch' b].
  - change (dropTrailingSlash (String ch "/") = String ch "").
    cbn [dropTrailingSlash].
    done.
  - rewrite append_cons in *.
    change (String ch (dropTrailingSlash (String ch' (b +:+ "/"))) = String ch (String ch' b)).
    by rewrite IH.
Qed.

Lemma dropTrailingSlash_id (b : string) : endsWithSlash b = false → dropTrailingSlash b = b.
Proof.
  induction b as [|ch b IH]; [done|].
  destruct b as [|ch' b].
  - cbn [endsWithSlash dropTrailingSlash]. by intros ->.
  - intros H.
    change (String ch (dropTrailingSlash (String ch' b)) = String ch (String ch' b)).
    by rewrite IH.
Qed.

Lemma dropLeadingSlash_id (p : string) : startsWithSlash p = false → dropLeadingSlash p = p.
Proof. destruct p as [|ch p]; simpl; [done|]. by intros ->. Qed.

Lemma append_nonempty (s : string) (ch : ascii) : s +:+ String ch "" ≠ "".
Proof. by destruct s. Qed.

Lemma finalEndpoint_Given (m : QueryConfig) (b p : string) :
  baseUrl m = Given b → b ≠ "" →
  finalEndpoint m (Url p) = Url (dropTrailingSlash b +:+ "/" +:+ dropLeadingSlash p).
Proof.
  intros Hb Hne. unfold finalEndpoint. rewrite Hb.
  by rewrite (strTruthy_Given b Hne), (strOr_Given b "" Hne).
Qed.

(** ** Configuration *)



Lemma keyOf_agree stringify (w : World) (e : EndpointArg) (c1 c2 : QueryConfig) :
  queryKey c2 = queryKey c1 → baseUrl c2 = baseUrl c1 →
  method c2 = method c1 → body c2 = body c1 →
  EqueryClient.keyOf stringify e c2 w = EqueryClient.keyOf stringify e c1 w.
Proof.
  intros Hq Hb Hm Hbo.
  unfold EqueryClient.keyOf, EqueryClient.cacheKey, EqueryClient.requestKey,
    EqueryClient.bodyStr, finalEndpoint, mergeConfig. cbn [queryKey baseUrl method body].
  by rewrite Hq, Hb, Hm, Hbo.
Qed.

(** X13.  [finalEndpoint] joins a truthy base URL and a string endpoint
    with exactly one slash, whether or not the base ends with one and the
    path starts with one; only one trailing slash of the base is dropped, an
    empty base is ignored.  So under a base URL the calls for ["/p"] and
    ["p"] derive the same key, and the second shares the operation of the
    first: one request. *)
Theorem X13_base_url_join (stringify : JVal → string) (w : World) (c : QueryConfig)
    (b p : string) :
  b ≠ "" → endsWithSlash b = false → startsWithSlash p = false →
  (∀ m, baseUrl m = Given b ∨ baseUrl m = Given (b +:+ "/") →
        finalEndpoint m (Url p) = Url (b +:+ "/" +:+ p)
        ∧ finalEndpoint m (Url ("/" +:+ p)) = Url (b +:+ "/" +:+ p))
  ∧ (∀ m, baseUrl m = Given (b +:+ "//") →
          finalEndpoint m (Url p) = Url (b +:+ "//" +:+ p))
  ∧ (∀ m, strTruthy (baseUrl m) = false → finalEndpoint m (Url p) = Url p)
  ∧ (baseUrl (mergedOf c w) = Given b →
     ∀ k, EqueryClient.keyOf stringify (Plain (Url p)) c w = Some k →
          activeQueries w !! k = None → enabledNotFalse (mergedOf c w) = true →
          let r1 := EqueryClient.useFetch stringify (Plain (Url p)) c w in
          let r2 := EqueryClient.useFetch stringify (Plain (Url ("/" +:+ p))) c r1.1 in
          EqueryClient.keyOf stringify (Plain (Url ("/" +:+ p))) c w = Some k
          ∧ QueryObserver.getQueryId r1.2 r2.1 = Some (length (queries w))
          ∧ QueryObserver.getQueryId r2.2 r2.1 = Some (length (queries w))
          ∧ trace r2.1 = trace w ++ [Invoked (length (queries w))]).
Proof.
  intros Hne Hend Hstart.
  assert (Hjoin : ∀ m, baseUrl m = Given b ∨ baseUrl m = Given (b +:+ "/") →
        finalEndpoint m (Url p) = Url (b +:+ "/" +:+ p)
        ∧ finalEndpoint m (Url ("/" +:+ p)) = Url (b +:+ "/" +:+ p)).
  { intros m [Hb|Hb].
    - rewrite !(finalEndpoint_Given m b _ Hb Hne).
      rewrite (dropTrailingSlash_id b Hend), (dropLeadingSlash_id p Hstart). done.
    - rewrite !(finalEndpoint_Given m (b +:+ "/") _ Hb (append_nonempty b "/"%char)).
      rewrite dropTrailingSlash_snoc, (dropLeadingSlash_id p Hstart). done. }
  split; [exact Hjoin|]. split; [|split].
  - intros m Hb.
    assert (Hb' : baseUrl m = Given ((b +:+ "/") +:+ "/")) by by rewrite append_assoc.
    rewrite (finalEndpoint_Given m _ _ Hb' (append_nonempty _ "/"%char)).
    rewrite dropTrailingSlash_snoc, (dropLeadingSlash_id p Hstart).
    by rewrite append_assoc.
  - intros m Hb. unfold finalEndpoint. by rewrite Hb.
  - intros Hb k Hk Hfree He. cbv zeta.
    assert (Hk2 : EqueryClient.keyOf stringify (Plain (Url ("/" +:+ p))) c w = Some k).
    { rewrite <- Hk. unfold EqueryClient.keyOf. cbn [actualEndpoint definitionKey].
      destruct (Hjoin (mergeConfig (clientConfig w) c) (or_introl Hb)) as [-> ->]. done. }
    split; [exact Hk2|].
    exact (same_key_shares stringify (Plain (Url p)) c (Plain (Url ("/" +:+ p))) c w k
             Hk Hk2 Hfree He).
Qed.

Lemma X13_base_url_join_witness :
  finalEndpoint (mergeConfig emptyConfig
                   {| enabled := Absent; baseUrl := Given "https://api.example.com/";
                      queryKey := Absent; method := Absent; headers := Absent;
                      body := Absent; timeout := Absent |}) (Url "/path")
  = Url "https://api.example.com/path".
Proof.
  assert (Hne : "https://api.example.com" ≠ "") by done.
  destruct (X13_base_url_join demoStringify (newWorld emptyConfig) emptyConfig
              "https://api.example.com" "path" Hne eq_refl eq_refl) as (H & _).
  exact (proj2 (H (mergeConfig emptyConfig
                      {| enabled := Absent; baseUrl := Given "https://api.example.com/";
                         queryKey := Absent; method := Absent; headers := Absent;
                         body := Absent; timeout := Absent |}) (or_intror eq_refl))).
Defined.


(** X15.  The request of a string endpoint.  Every header of the
    configuration other than ["Content-Type"] is sent unchanged; a non-empty
    ["Content-Type"] is never overwritten; ["application/json"] is added
    exactly when the body is truthy and no non-empty ["Content-Type"] was
    given.  A falsy body (absent, [null], [0], [false], [""]) is not sent
    and adds no header.  The method defaults to GET.  The dedup key of
    [EqueryClient] is made of exactly the method and the body the request
    is sent with. *)
Theorem X15_request_init (stringify : JVal → string) (c : QueryConfig) (url : string) :
  let init := fetchInit stringify c in
  let hs := headersOf (headers c) in
  (∀ h, h ≠ "Content-Type" → initHeaders init !! h = hs !! h)
  ∧ (∀ v, hs !! "Content-Type" = Some v → v ≠ "" →
          initHeaders init !! "Content-Type" = Some v)
  ∧ (bodyTruthy (body c) = true → headerTruthy (hs !! "Content-Type") = false →
     initHeaders init !! "Content-Type" = Some "application/json")
  ∧ (bodyTruthy (body c) = false → initHeaders init = hs ∧ initBody init = None)
  ∧ (∀ v, body c = Given v → truthy v = true → initBody init = Some (stringify v))
  ∧ (strTruthy (method c) = false → initMethod init = "GET")
  ∧ EqueryClient.requestKey stringify c url
    = initMethod init +:+ ":" +:+ url +:+ bodySuffix (default "" (initBody init)).
Proof.
  cbv zeta. unfold fetchInit. cbn [initHeaders initBody initMethod].
  split; [|split; [|split; [|split; [|split; [|split]]]]].
  - intros h Hh. destruct (_ && _); [|done]. by rewrite lookup_insert_ne.
  - intros v Hv Hne. rewrite Hv. cbn [headerTruthy].
    apply String.eqb_neq in Hne as ->. cbn [negb]. by rewrite andb_false_r.
  - intros Hb Hh. rewrite Hb, Hh. cbn [andb negb]. apply lookup_insert_eq.
  - intros Hb. rewrite Hb. cbn [andb]. split; [done|].
    unfold bodyTruthy in Hb. destruct (body c) as [| |v]; try done. by rewrite Hb.
  - intros v Hv Ht. by rewrite Hv, Ht.
  - intros Hm. destruct (method c) as [| |s]; try done. simpl in *.
    by destruct (String.eqb s "").
  - unfold EqueryClient.requestKey, EqueryClient.bodyStr, bodySuffix.
    destruct (body c) as [| |v]; try done. by destruct (truthy v).
Qed.

(** X16.  Headers, timeout and the enabled flag are not part of the dedup
    key.  A call that agrees with a registered call on query key, base URL,
    method and body shares its operation whatever else it asks for: the
    unit of work is not called again, the request is the one of the first
    call, with the first call's headers, and no timer is armed for the
    timeout of the second call: the only run is the one the first call
    started (in flight if the call of the unit of work returned, settled
    already if it threw). *)
Theorem X16_only_the_first_call_configures_the_request (stringify : JVal → string)
    (w : World) (e : EndpointArg) (c1 c2 : QueryConfig) (k : string) :
  EqueryClient.keyOf stringify e c1 w = Some k → activeQueries w !! k = None →
  enabledNotFalse (mergedOf c1 w) = true →
  queryKey c2 = queryKey c1 → baseUrl c2 = baseUrl c1 →
  method c2 = method c1 → body c2 = body c1 →
  let a := length (queries w) in
  let r1 := EqueryClient.useFetch stringify e c1 w in
  let r2 := EqueryClient.useFetch stringify e c2 r1.1 in
  QueryObserver.getQueryId r2.2 r2.1 = Some a
  ∧ trace r2.1 = trace w ++ [Invoked a]
  ∧ executions r2.1
    = executions w
      ++ [match throwing w (finalOf e c1 w) with
          | None => freshRun a (length (controllers w)) (mergedOf c1 w)
          | Some err =>
              thrownRun a (length (controllers w)) (mergedOf c1 w)
                (thrownResult err initialResult)
          end]
  ∧ ∃ q, queries r2.1 !! a = Some q ∧ config q = mergedOf c1 w
         ∧ requestOf stringify q
           = match finalOf e c1 w with
             | Url u => Some (u, fetchInit stringify (mergedOf c1 w))
             | Fn _ => None
             end.
Proof.
  intros Hk Hfree He Hq Hb Hm Hbo. cbv zeta.
  assert (Hk2 : EqueryClient.keyOf stringify e c2 w = Some k)
    by by rewrite (keyOf_agree stringify w e c1 c2 Hq Hb Hm Hbo).
  destruct (same_key_shares stringify e c1 e c2 w k Hk Hk2 Hfree He) as (_ & Hid & Htr).
  split; [exact Hid|]. split; [exact Htr|].
  destruct (throwing w (finalOf e c1 w)) as [err|] eqn:Hthr;
    [ rewrite (client_useFetch_thrown_closed stringify e c1 w k err Hk Hfree He Hthr)
    | rewrite (client_useFetch_enabled_closed stringify e c1 w k Hk Hfree He Hthr) ];
    cbn [fst snd];
    set (q1 := withCallbacks _ _ _); set (w1 := Build_World _ _ _ _ _ _ _ _ _);
    (assert (Hq1 : queries w1 !! length (queries w) = Some q1)
      by (subst w1; wsimpl; apply lookup_snoc_length));
    (assert (Hreg : activeQueries w1 !! k = Some (length (queries w)))
      by (subst w1; wsimpl; apply lookup_insert_eq));
    (assert (Hk2' : EqueryClient.keyOf stringify e c2 w1 = Some k)
      by by rewrite (keyOf_clientConfig stringify e c2 w w1));
    rewrite (client_useFetch_shared stringify e c2 w1 k _ Hk2' Hreg);
    rewrite (observer_new_closed _ w1 q1 Hq1); cbn [fst snd]; wsimpl;
    (split; [done|]);
    (eexists; split; [apply list_lookup_insert_eq; by eapply lookup_lt_Some|]);
    (split; [done|]); unfold requestOf; wsimpl; done.
Qed.

Lemma X16_only_the_first_call_configures_the_request_witness :
  executions
    (EqueryClient.useFetch demoStringify (Plain (Url "/users")) (withTimeout 10)
       (EqueryClient.useFetch demoStringify (Plain (Url "/users")) emptyConfig
          (newWorld emptyConfig)).1).1
  = [freshRun 0 0 (mergedOf emptyConfig (newWorld emptyConfig))].
Proof.
  assert (Hk : EqueryClient.keyOf demoStringify (Plain (Url "/users")) emptyConfig
                 (newWorld emptyConfig) = Some "GET:/users") by (vm_compute; reflexivity).
  assert (Hfree : activeQueries (newWorld emptyConfig) !! "GET:/users" = None)
    by (vm_compute; reflexivity).
  assert (He : enabledNotFalse (mergedOf emptyConfig (newWorld emptyConfig)) = true)
    by (vm_compute; reflexivity).
  destruct (X16_only_the_first_call_configures_the_request demoStringify
              (newWorld emptyConfig) (Plain (Url "/users")) emptyConfig (withTimeout 10)
              "GET:/users" Hk Hfree He eq_refl eq_refl eq_refl eq_refl)
    as (_ & _ & H & _).
  exact H.
Defined.

(** ** The order of [sort()] *)

Lemma string_compare_trans (a : string) : ∀ b c,
  String.compare a b ≠ Gt → String.compare b c ≠ Gt → String.compare a c ≠ Gt.
Proof.
  induction a as [|x a IH]; intros [|y b] [|z c]; simpl; try done.
  unfold Ascii.compare.
  destruct (N.compare_spec (N_of_ascii x) (N_of_ascii y)) as [Hxy|Hxy|Hxy],
           (N.compare_spec (N_of_ascii y) (N_of_ascii z)) as [Hyz|Hyz|Hyz],
           (N.compare_spec (N_of_ascii x) (N_of_ascii z)) as [Hxz|Hxz|Hxz];
    try done; try lia.
  apply IH.
Qed.

Lemma strLe_iff (a b : string) : strLe a b ↔ String.compare a b ≠ Gt.
Proof. unfold strLe, String.leb. by destruct (String.compare a b). Qed.

#[local] Instance strLe_trans : Transitive strLe.
Proof. intros a b c. rewrite !strLe_iff. apply string_compare_trans. Qed.

#[local] Instance strLe_antisym : AntiSymm (=) strLe.
Proof. intros a b. apply String.leb_antisym. Qed.

#[local] Instance strLe_total : Total strLe.
Proof. intros a b. apply String.leb_total. Qed.

Lemma sortStrings_Permutation (l1 l2 : list string) :
  l1 ≡ₚ l2 → sortStrings l1 = sortStrings l2.
Proof.
  intros Hp. unfold sortStrings. apply (Sorted_unique strLe).
  - apply Sorted_merge_sort; apply _.
  - apply Sorted_merge_sort; apply _.
  - by rewrite !merge_sort_Permutation.
Qed.

(** ** Objects as property lists *)

Lemma rendered_map (f : Input → string) (k : string) (props : list (string * Input)) :
  rendered k (map (λ kv, match kv with (k', x) => (k', f x) end) props)
  = default "" (f <$> field k props).
Proof.
  induction props as [|[k' x] props IH]; [done|]. simpl.
  by destruct (String.eqb k k').
Qed.

Lemma field_is_Some (k : string) (props : list (string * Input)) :
  is_Some (field k props) ↔ k ∈ map fst props.
Proof.
  induction props as [|[k' x] props IH]; simpl.
  - split; [by intros [? ?]|by intros ?%elem_of_nil].
  - rewrite elem_of_cons. destruct (String.eqb_spec k k') as [->|Hne].
    + split; [by left|by eexists].
    + rewrite IH. split; [by right|by intros [?|?]].
Qed.

Lemma field_Some_iff (k : string) (v : Input) (props : list (string * Input)) :
  NoDup (map fst props) → field k props = Some v ↔ (k, v) ∈ props.
Proof.
  induction props as [|[k' x] props IH]; simpl; intros Hnd.
  - split; [done|by intros ?%elem_of_nil].
  - apply NoDup_cons in Hnd as [Hnot Hnd]. rewrite elem_of_cons.
    destruct (String.eqb_spec k k') as [->|Hne].
    + split.
      * intros [= ->]. by left.
      * intros [[= ->]|Hin]; [done|]. destruct Hnot.
        apply list_elem_of_fmap. by exists (k', v).
    + rewrite (IH Hnd). split; [by right|]. intros [[= -> ->]|Hin]; done.
Qed.

Lemma field_Permutation (k : string) (ps qs : list (string * Input)) :
  NoDup (map fst ps) → ps ≡ₚ qs → field k ps = field k qs.
Proof.
  intros Hnd Hp.
  assert (Hnd' : NoDup (map fst qs)) by by rewrite <- Hp.
  destruct (field k ps) as [v|] eqn:H1.
  - apply (field_Some_iff k v ps Hnd) in H1. rewrite Hp in H1.
    by apply (field_Some_iff k v qs Hnd') in H1.
  - destruct (field k qs) as [v|] eqn:H2; [|done].
    apply (field_Some_iff k v qs Hnd') in H2. rewrite <- Hp in H2.
    apply (field_Some_iff k v ps Hnd) in H2. congruence.
Qed.

Lemma join_snoc (sep : string) (l : list string) (x : string) :
  l ≠ [] → join sep (l ++ [x]) = join sep l +:+ sep +:+ x.
Proof.
  induction l as [|y l IH]; [done|]. intros _.
  destruct l as [|z l]; [done|].
  change (y +:+ sep +:+ join sep ((z :: l) ++ [x])
          = (y +:+ sep +:+ join sep (z :: l)) +:+ sep +:+ x).
  rewrite IH by done. by rewrite !append_assoc.
Qed.

Lemma serializeInput_stable quote num (input : Input) :
  serializeInput quote num input = stableStringify quote num input.
Proof. by destruct input. Qed.

Lemma keyOf_Keyed stringify (w : World) (c : QueryConfig) (key : string) (fn : nat) :
  strTruthy (queryKey (mergedOf c w)) = false → key ≠ "" →
  EqueryClient.keyOf stringify (Keyed key fn) c w = Some key.
Proof.
  intros Hq Hne. unfold EqueryClient.keyOf, EqueryClient.cacheKey, mergedOf in *.
  rewrite Hq. cbn [definitionKey].
  by rewrite (strTruthy_Given key Hne), (strOr_Given key "" Hne).
Qed.

(** X17.  [stableStringify] is stable: the serialization of a plain object
    depends only on which keys it has and on the serialization of the value
    under each key, not on the order its properties were inserted in, and
    the serialization of a [Set] does not depend on the order of its
    members; the serialization of an array keeps the order of its items. *)
Theorem X17_stable_serialization (quote : string → string) (num : Z → string) :
  let ss := stableStringify quote num in
  (∀ ps qs, NoDup (map fst ps) → NoDup (map fst qs) →
            (∀ k, ss <$> field k ps = ss <$> field k qs) →
            ss (IObj ps) = ss (IObj qs))
  ∧ (∀ ps qs, NoDup (map fst ps) → ps ≡ₚ qs → ss (IObj ps) = ss (IObj qs))
  ∧ (∀ vs ws, map ss vs ≡ₚ map ss ws → ss (ISet vs) = ss (ISet ws))
  ∧ (∀ vs ws, vs ≡ₚ ws → ss (ISet vs) = ss (ISet ws))
  ∧ (∀ vs ws, ss (IArr (vs ++ ws))
              = "[" +:+ join "," (map ss vs ++ map ss ws) +:+ "]").
Proof.
  cbv zeta.
  assert (Hobj : ∀ ps qs, NoDup (map fst ps) → NoDup (map fst qs) →
            (∀ k, stableStringify quote num <$> field k ps
                  = stableStringify quote num <$> field k qs) →
            stableStringify quote num (IObj ps) = stableStringify quote num (IObj qs)).
  { intros ps qs Hp Hq Hsame. cbn [stableStringify].
    assert (Hkeys : map fst ps ≡ₚ map fst qs).
    { apply NoDup_Permutation; [done|done|]. intros k.
      rewrite <- !field_is_Some. specialize (Hsame k).
      destruct (field k ps), (field k qs); simpl in Hsame; try done. }
    rewrite (sortStrings_Permutation _ _ Hkeys). do 3 f_equal.
    apply map_ext. intros k. by rewrite !rendered_map, Hsame. }
  split; [exact Hobj|]. split; [|split; [|split]].
  - intros ps qs Hnd Hp. apply Hobj; [done|by rewrite <- Hp|].
    intros k. by rewrite (field_Permutation k ps qs Hnd Hp).
  - intros vs ws Hp. cbn [stableStringify].
    by rewrite (sortStrings_Permutation _ _ Hp).
  - intros vs ws Hp. cbn [stableStringify].
    rewrite (sortStrings_Permutation (map (stableStringify quote num) vs)
               (map (stableStringify quote num) ws)); [done|].
    by apply Permutation_map.
  - intros vs ws. cbn [stableStringify]. by rewrite map_app.
Qed.

(** X18.  The key of an adapter call is the path of the procedure and the
    serialized input, joined by dots, empty pieces left out: a call without
    input (or with an input that serializes to the empty string) has the
    dotted path as its key.  The key does not tell a path segment from an
    input: the procedure [path.s] called without input has the key of the
    procedure [path] called with an input that serializes to [s]. *)
Theorem X18_adapter_key (quote : string → string) (num : Z → string)
    (path : list string) (input : Input) :
  let ss := stableStringify quote num in
  let key := adapterKey quote num in
  key path IUndefined = join "." (filter (λ s, s ≠ "") path)
  ∧ (ss input = "" → key path input = key path IUndefined)
  ∧ (ss input ≠ "" → key path input = join "." (filter (λ s, s ≠ "") path ++ [ss input]))
  ∧ (Forall (λ s, s ≠ "") path → path ≠ [] → ss input ≠ "" →
     key path input = join "." path +:+ "." +:+ ss input)
  ∧ key (path ++ [ss input]) IUndefined = key path input.
Proof.
  cbv zeta. unfold adapterKey. rewrite !serializeInput_stable.
  cbn [stableStringify]. rewrite !filter_app.
  assert (Hempty : filter (λ s : string, s ≠ "") [""] = []) by done.
  rewrite Hempty, !app_nil_r.
  split; [done|]. split; [|split; [|split]].
  - intros ->. by rewrite Hempty, app_nil_r.
  - intros Hne. by rewrite filter_cons_True by done.
  - intros Hall Hnil Hne. rewrite filter_cons_True by done.
    assert (Hid : filter (λ s : string, s ≠ "") path = path).
    { clear Hnil. induction Hall as [|s l Hs _ IH]; [done|].
      by rewrite filter_cons_True, IH. }
    rewrite Hid. by apply join_snoc.
  - done.
Qed.

(** X19.  Adapter calls are deduplicated by the client on the serialized
    input.  Two calls of one procedure whose inputs serialize alike (the
    same object with its properties in another order, by X17) derive the
    same key, provided no query key is configured: the second observer wraps
    the operation of the first, and only the procedure call of the first is
    made. *)
Theorem X19_adapter_calls_are_deduplicated (stringify : JVal → string)
    (quote : string → string) (num : Z → string) (w : World) (c c2 : QueryConfig)
    (path : list string) (i1 i2 : Input) (f1 f2 : nat) :
  strTruthy (queryKey (mergedOf c w)) = false →
  strTruthy (queryKey (mergedOf c2 w)) = false →
  adapterKey quote num path i1 ≠ "" →
  stableStringify quote num i1 = stableStringify quote num i2 →
  activeQueries w !! adapterKey quote num path i1 = None →
  enabledNotFalse (mergedOf c w) = true →
  let a := length (queries w) in
  let r1 := EqueryClient.useFetch stringify (adapterCall quote num path i1 f1) c w in
  let r2 := EqueryClient.useFetch stringify (adapterCall quote num path i2 f2) c2 r1.1 in
  adapterKey quote num path i2 = adapterKey quote num path i1
  ∧ QueryObserver.getQueryId r1.2 r2.1 = Some a
  ∧ QueryObserver.getQueryId r2.2 r2.1 = Some a
  ∧ trace r2.1 = trace w ++ [Invoked a]
  ∧ endpoint <$> queries r2.1 !! a = Some (Fn f1).
Proof.
  intros Hq1 Hq2 Hne Hsame Hfree He. cbv zeta.
  assert (Hkey : adapterKey quote num path i2 = adapterKey quote num path i1).
  { unfold adapterKey. by rewrite !serializeInput_stable, Hsame. }
  split; [exact Hkey|].
  unfold adapterCall. rewrite Hkey.
  set (k := adapterKey quote num path i1) in *.
  pose proof (keyOf_Keyed stringify w c k f1 Hq1 Hne) as Hk1.
  pose proof (keyOf_Keyed stringify w c2 k f2 Hq2 Hne) as Hk2.
  destruct (same_key_shares stringify (Keyed k f1) c (Keyed k f2) c2 w k Hk1 Hk2 Hfree He)
    as (Hid1 & Hid2 & Htr).
  split; [exact Hid1|]. split; [exact Hid2|]. split; [exact Htr|].
  destruct (client_useFetch_enabled_facts stringify (Keyed k f1) c w k Hk1 Hfree He)
    as (q1 & x1 & ts1 & Hend & _ & ->).
  cbn [fst snd].
  set (w1 := Build_World _ _ _ _ _ _ _ _ _).
  assert (Hq1' : queries w1 !! length (queries w) = Some q1)
    by (subst w1; wsimpl; apply lookup_snoc_length).
  assert (Hreg : activeQueries w1 !! k = Some (length (queries w)))
    by (subst w1; wsimpl; apply lookup_insert_eq).
  assert (Hk2' : EqueryClient.keyOf stringify (Keyed k f2) c2 w1 = Some k)
    by by rewrite (keyOf_clientConfig stringify (Keyed k f2) c2 w w1).
  rewrite (client_useFetch_shared stringify (Keyed k f2) c2 w1 k _ Hk2' Hreg).
  rewrite (observer_new_closed _ w1 q1 Hq1'). cbn [fst snd]. wsimpl.
  rewrite list_lookup_insert_eq by by eapply lookup_lt_Some.
  cbn [fmap option_fmap option_map]. wsimpl. by rewrite Hend.
Qed.

Lemma X19_adapter_calls_are_deduplicated_witness :
  trace
    (EqueryClient.useFetch demoStringify
       (adapterCall demoQuote pretty ["user"; "byId"]
          (IObj [("full", IBool true); ("id", INum 1)]) 1) emptyConfig
       (EqueryClient.useFetch demoStringify
          (adapterCall demoQuote pretty ["user"; "byId"]
             (IObj [("id", INum 1); ("full", IBool true)]) 0) emptyConfig
          (newWorld emptyConfig)).1).1
  = [Invoked 0].
Proof.
  assert (Hne : adapterKey demoQuote pretty ["user"; "byId"]
                  (IObj [("id", INum 1); ("full", IBool true)]) ≠ "")
    by (vm_compute; discriminate).
  assert (Hsame : stableStringify demoQuote pretty
                    (IObj [("id", INum 1); ("full", IBool true)])
                  = stableStringify demoQuote pretty
                      (IObj [("full", IBool true); ("id", INum 1)]))
    by (vm_compute; reflexivity).
  assert (Hfree : activeQueries (newWorld emptyConfig)
                    !! adapterKey demoQuote pretty ["user"; "byId"]
                         (IObj [("id", INum 1); ("full", IBool true)]) = None)
    by (vm_compute; reflexivity).
  destruct (X19_adapter_calls_are_deduplicated demoStringify demoQuote pretty
              (newWorld emptyConfig) emptyConfig emptyConfig ["user"; "byId"]
              (IObj [("id", INum 1); ("full", IBool true)])
              (IObj [("full", IBool true); ("id", INum 1)]) 0 1
              eq_refl eq_refl Hne Hsame Hfree eq_refl) as (_ & _ & _ & H & _).
  exact H.
Defined.

(** X20.  The settlement of a run that was in flight is the last one the
    observers of the operation hear.  Its fan-out empties the listener
    lists of the operation, and with them the relays the constructors of
    the observers had put there; [execute()] does not put them back.  So
    when the operation (one without the wrapper of a manual client
    operation) is executed again through one of these observers and the
    call of the unit of work returns, a callback registered on the observer
    during the second run is never called: the second settlement, whatever
    its outcome, calls no callback and queues nothing.  (Relays registered
    after a settlement are still listed at the next one: X23.) *)
Theorem X20_observer_hears_only_the_first_settlement (w : World) (o x1 : nat)
    (ob : QueryObserver) (ex1 : Execution) (q : ActiveQuery)
    (out1 out2 : Outcome) (tag tag' : nat) :
  observers w !! o = Some ob → activeQuery ob = owner ex1 →
  executions w !! x1 = Some ex1 → outcome ex1 = None →
  queries w !! owner ex1 = Some q → lazyKey q = None →
  throwing w (endpoint q) = None →
  let w1 := ActiveQuery.resume x1 out1 w in
  let w2 := QueryObserver.execute o w1 in
  let w3 := QueryObserver.onError o tag' (QueryObserver.onComplete o tag w2) in
  let w4 := ActiveQuery.resume (length (executions w)) out2 w3 in
  trace w2 = trace w1 ++ [Invoked (owner ex1)]
  ∧ QueryObserver.getObserverCallbackCount o w3
    = S (S (QueryObserver.getObserverCallbackCount o w))
  ∧ trace w4 = trace w2
  ∧ microtasks w4 = microtasks w1
  ∧ ∃ r, resultState <$> queries w4 !! owner ex1 = Some r ∧ isLoading r = false.
Proof.
  intros Ho Hob Hx1 Hout1 Hq Hlazy Hret. cbv zeta.
  rewrite (resume_closed x1 out1 w ex1 q Hx1 Hout1 Hq).
  set (r1 := bodyResult ex1 _ out1 (resultState q)).
  set (q1 := withCallbacks [] [] _). set (w1 := Build_World _ _ _ _ _ _ _ _ _).
  assert (Hlt : (owner ex1 < length (queries w))%nat) by by eapply lookup_lt_Some.
  assert (Hltx : (x1 < length (executions w))%nat) by by eapply lookup_lt_Some.
  assert (Hq1 : queries w1 !! owner ex1 = Some q1)
    by (subst w1; wsimpl; by apply list_lookup_insert_eq).
  assert (Ho1 : observers w1 !! o = Some ob) by exact Ho.
  assert (Hidle : isLoading (resultState q1) && isSomeb (promise q1) = false).
  { subst q1. wsimpl. subst r1. by rewrite bodyResult_settled. }
  assert (Hex2 : QueryObserver.execute o w1 = ActiveQuery.execute (owner ex1) w1).
  { unfold QueryObserver.execute. rewrite Ho1, Hob. unfold ActiveQuery.callExecute.
    rewrite Hq1. change (lazyKey q1) with (lazyKey q). by rewrite Hlazy. }
  assert (Hret1 : throwing w1 (endpoint q1) = None) by exact Hret.
  rewrite Hex2, (execute_closed _ w1 q1 Hq1 Hidle Hret1).
  set (q2 := withRun _ _ _). set (w2 := Build_World _ _ _ _ _ _ _ _ _).
  assert (Hq2 : queries w2 !! activeQuery ob = Some q2).
  { rewrite Hob. subst w2. wsimpl. apply list_lookup_insert_eq.
    subst w1. wsimpl. by rewrite length_insert. }
  assert (Ho2 : observers w2 !! o = Some ob) by exact Ho.
  rewrite (observer_onComplete_closed o tag w2 ob q2 Ho2 Hq2).
  assert (Hload2 : isSettled (resultState q2) = false) by done.
  assert (Herr2 : hasDeliverableError (resultState q2) = false) by done.
  rewrite Hload2. cbn [andb]. rewrite app_nil_r.
  set (ob3 := QueryObserver.withWrapped _ _ ob). set (w3 := setMicrotasks _ _).
  assert (Ho3 : observers w3 !! o = Some ob3).
  { subst w3. wsimpl. apply list_lookup_insert_eq. by eapply lookup_lt_Some. }
  assert (Hq3 : queries w3 !! activeQuery ob3 = Some q2) by exact Hq2.
  rewrite (observer_onError_closed o tag' w3 ob3 q2 Ho3 Hq3).
  rewrite Herr2. cbn [andb]. rewrite app_nil_r.
  set (ob4 := QueryObserver.withWrapped _ _ ob3). set (w4 := setMicrotasks _ _).
  assert (Hlen1 : length (executions w1) = length (executions w))
    by (subst w1; wsimpl; by rewrite length_insert).
  assert (Hx4 : executions w4 !! length (executions w)
                = Some {| owner := owner ex1; signal := length (controllers w);
                          timeoutError := mkTimeoutError <$> hasTimeout (config q1);
                          didTimeout := false;
                          timerPending := isSomeb (hasTimeout (config q1));
                          outcome := None; reactions := [] |}).
  { subst w4 w3 w2. wsimpl. rewrite <- Hlen1. apply lookup_snoc_length. }
  assert (Hq4 : queries w4 !! owner ex1 = Some q2) by (rewrite <- Hob; exact Hq2).
  split; [done|].
  split.
  { unfold QueryObserver.getObserverCallbackCount. subst w4. wsimpl.
    rewrite list_lookup_insert_eq by (subst w3; wsimpl; rewrite length_insert;
                                      by eapply lookup_lt_Some).
    rewrite Ho. subst ob4 ob3. wsimpl. rewrite !length_app. simpl. lia. }
  rewrite (resume_closed _ out2 w4 _ q2 Hx4 eq_refl Hq4).
  wsimpl. cbn [owner reactions map].
  change (completeCallbacks q2) with (@nil CompleteCb).
  change (errorCallbacks q2) with (@nil ErrorCb).
  split.
  { change (trace w4) with (trace w2).
    cbn [mbind list_bind app].
    match goal with
    | |- context [match ?b with Some _ => _ | None => _ end] => destruct b
    end; by rewrite ?app_nil_r. }
  split.
  { subst w4 w3 w2. wsimpl. by rewrite !app_nil_r. }
  eexists. split.
  { rewrite list_lookup_insert_eq; [reflexivity|].
    subst w4 w3 w2 w1. wsimpl. by rewrite !length_insert. }
  apply bodyResult_settled.
Qed.

Lemma X20_observer_hears_only_the_first_settlement_witness :
  trace
    (ActiveQuery.resume 1 (Fulfils (JStr "second"))
       (QueryObserver.onError 0 6
          (QueryObserver.onComplete 0 5
             (QueryObserver.execute 0
                (ActiveQuery.resume 0 (Fulfils (JStr "first")) listeningWorld)))))
  = trace (QueryObserver.execute 0
             (ActiveQuery.resume 0 (Fulfils (JStr "first")) listeningWorld)).
Proof.
  assert (Ho : observers listeningWorld !! 0%nat = Some (observerAt listeningWorld 0))
    by (vm_compute; reflexivity).
  assert (Hx : executions listeningWorld !! 0%nat = Some (runAt listeningWorld 0))
    by (vm_compute; reflexivity).
  assert (Hout : outcome (runAt listeningWorld 0) = None) by (vm_compute; reflexivity).
  assert (Hq : queries listeningWorld !! owner (runAt listeningWorld 0)
               = Some (queryAt listeningWorld 0)) by (vm_compute; reflexivity).
  assert (Hob : activeQuery (observerAt listeningWorld 0) = owner (runAt listeningWorld 0))
    by (vm_compute; reflexivity).
  assert (Hlazy : lazyKey (queryAt listeningWorld 0) = None) by (vm_compute; reflexivity).
  assert (Hret : throwing listeningWorld (endpoint (queryAt listeningWorld 0)) = None)
    by (vm_compute; reflexivity).
  destruct (X20_observer_hears_only_the_first_settlement listeningWorld 0 0
              (observerAt listeningWorld 0) (runAt listeningWorld 0)
              (queryAt listeningWorld 0) (Fulfils (JStr "first")) (Fulfils (JStr "second"))
              5 6 Ho Hob Hx Hout Hq Hlazy Hret) as (_ & _ & H & _).
  exact H.
Defined.

(** ** A unit of work that throws when it is called *)

Lemma observers_tick w : observers (tick w) = observers w.
Proof.
  unfold tick. destruct (microtasks w) as [|t ts]; [done|].
  destruct t; simpl; try done.
  - destruct (queries w !! aq); [|done]. by rewrite callComplete_emit.
  - by rewrite callError_emit.
  - unfold react. destruct (observers _ !! obs); [|done].
    destruct (QueryObserver.intercept _ _); [|done]. by destruct c.
Qed.

Lemma trace_tick w t ts :
  microtasks w = t :: ts →
  trace (tick w) = trace w ++ taskEvents (queries w) (observers w) t.
Proof.
  intros Hmt. unfold tick. rewrite Hmt.
  destruct t; cbn [runTask taskEvents].
  - change (queries (setMicrotasks ts w)) with (queries w).
    destruct (queries w !! aq); [|by rewrite app_nil_r]. by rewrite callComplete_emit.
  - by rewrite callError_emit.
  - done.
  - done.
  - done.
  - change (observers (setMicrotasks ts w)) with (observers w).
    destruct (observers w !! obs) as [ob|] eqn:Ho.
    + erewrite react_closed by exact Ho. done.
    + unfold react. wsimpl. by rewrite Ho, app_nil_r.
Qed.

(** What running the queue shows: the events of its tasks, oldest first. *)
Lemma trace_drain : ∀ ts w,
  microtasks w = ts →
  trace (drain w) = trace w ++ (ts ≫= taskEvents (queries w) (observers w)).
Proof.
  induction ts as [|t ts IH]; intros w Hmt.
  - rewrite (drain_nil w Hmt). by rewrite app_nil_r.
  - rewrite (drain_step w t ts Hmt).
    rewrite (IH (tick w) (microtasks_tick w t ts Hmt)).
    rewrite (trace_tick w t ts Hmt), queries_tick, observers_tick.
    by rewrite <- app_assoc.
Qed.

Lemma thrownResult_loading err r0 : isLoading (thrownResult err r0) = false.
Proof. unfold thrownResult. by destruct (classifyFailure _ _ _ _). Qed.

Lemma thrownResult_deliverable err r0 :
  isAbortError err = false → truthy err = true →
  hasDeliverableError (thrownResult err r0) = true ∧ error (thrownResult err r0) = err.
Proof.
  intros Ha Ht. unfold thrownResult, classifyFailure, hasDeliverableError.
  rewrite Ha. simpl. by rewrite Ht.
Qed.

(** X21.  When the call of the unit of work itself throws (a fetcher that
    is not async and rejects its input, a [fetch] that is not a function),
    the [catch] block of [execute] runs inside the constructor of the
    operation: standalone [useFetch] returns an observer of an operation
    that has already settled with the thrown value, classified as in C3
    with no timeout and the token untriggered, and nothing but the call of
    the unit of work has been observed.  The two relays the constructor of
    the observer registers afterwards stay on the listener lists and are
    queued as deliveries.  If nothing is registered on the observer the run
    of the queue calls nothing; a completion callback registered on the
    observer before the queue runs is called twice with the settled
    snapshot, once through the queued relay and once through its own
    deferred delivery; and so is an error callback, twice with the thrown
    value, when that value is truthy and not an abort-kind error. *)
Theorem X21_callbacks_after_a_synchronous_throw
    (w : World) (e : EndpointArg) (c : QueryConfig) (err : JVal) (tag : nat) :
  enabledNotFalse c = true → throwing w (actualEndpoint e) = Some err →
  microtasks w = [] →
  let w1 := (useFetch e c w).1 in
  let o := (useFetch e c w).2 in
  let a := length (queries w) in
  let r := thrownResult err initialResult in
  resultState <$> queries w1 !! a = Some r
  ∧ isLoading r = false
  ∧ trace w1 = trace w ++ [Invoked a]
  ∧ ActiveQuery.getCallbackCount a w1 = 2%nat
  ∧ trace (drain w1) = trace w1
  ∧ trace (drain (QueryObserver.onComplete o tag w1))
    = trace w1 ++ [CalledComplete tag r; CalledComplete tag r]
  ∧ (isAbortError err = false → truthy err = true →
     trace (drain (QueryObserver.onError o tag w1))
     = trace w1 ++ [CalledError tag err; CalledError tag err]).
Proof.
  intros He Hthr Hmt. cbv zeta.
  rewrite (useFetch_thrown_closed e c w err He Hthr). cbn [fst snd].
  set (r := thrownResult err initialResult).
  set (q1 := withCallbacks _ _ _). set (w1 := Build_World _ _ _ _ _ _ _ _ _).
  assert (Hq1 : queries w1 !! length (queries w) = Some q1)
    by (subst w1; wsimpl; apply lookup_snoc_length).
  assert (Ho1 : observers w1 !! length (observers w) = Some (freshObserver (length (queries w))))
    by (subst w1; wsimpl; apply lookup_snoc_length).
  assert (Hlo : (length (observers w) < length (observers w1))%nat)
    by (by eapply lookup_lt_Some).
  split; [by rewrite Hq1|].
  split; [apply thrownResult_loading|].
  split; [done|].
  split; [unfold ActiveQuery.getCallbackCount; by rewrite Hq1|].
  split; [|split].
  - rewrite (trace_drain _ w1 eq_refl).
    change (microtasks w1) with (microtasks w ++ [DeliverCurrent (RelayComplete (length (observers w))) (length (queries w))] ++ (if hasDeliverableError r then [DeliverError (RelayError (length (observers w))) (error r)] else [])).
    rewrite Hmt. cbn [app].
    destruct (hasDeliverableError r); cbn [mbind list_bind app taskEvents];
      rewrite Hq1; cbn [completeEvents errorEvents]; rewrite Ho1; simpl;
      by rewrite app_nil_r.
  - rewrite (observer_onComplete_closed _ tag w1 _ q1 Ho1 Hq1).
    change (resultState q1) with r. subst r. rewrite thrownResult_settled.
    set (r := thrownResult err initialResult).
    cbn [freshObserver isObserverCanceled negb andb wrappedCompleteCallbacks
         wrappedErrorCallbacks app].
    rewrite (trace_drain _ _ eq_refl). wsimpl.
    change (microtasks w1) with (microtasks w ++ [DeliverCurrent (RelayComplete (length (observers w))) (length (queries w))] ++ (if hasDeliverableError r then [DeliverError (RelayError (length (observers w))) (error r)] else [])).
    rewrite Hmt. cbn [app].
    destruct (hasDeliverableError r); cbn [mbind list_bind app taskEvents];
      rewrite Hq1; cbn [completeEvents errorEvents];
      rewrite !list_lookup_insert_eq by exact Hlo; simpl; done.
  - intros Ha Ht.
    destruct (thrownResult_deliverable err initialResult Ha Ht) as (Hd & Herr).
    fold r in Hd, Herr.
    rewrite (observer_onError_closed _ tag w1 _ q1 Ho1 Hq1).
    change (resultState q1) with r. rewrite Hd, Herr.
    cbn [freshObserver isObserverCanceled negb andb wrappedCompleteCallbacks
         wrappedErrorCallbacks app].
    rewrite (trace_drain _ _ eq_refl). wsimpl.
    change (microtasks w1) with (microtasks w ++ [DeliverCurrent (RelayComplete (length (observers w))) (length (queries w))] ++ (if hasDeliverableError r then [DeliverError (RelayError (length (observers w))) (error r)] else [])).
    rewrite Hmt, Hd, Herr. cbn [app].
    cbn [mbind list_bind app taskEvents].
    rewrite Hq1; cbn [completeEvents errorEvents];
      rewrite !list_lookup_insert_eq by exact Hlo; simpl; done.
Qed.

Lemma X21_callbacks_after_a_synchronous_throw_witness :
  let r := thrownResult (mkError "bad input") initialResult in
  isError r = true
  ∧ trace (drain (QueryObserver.onComplete (useFetch (Plain (Fn 0)) emptyConfig rejectingWorld).2
                    5 (useFetch (Plain (Fn 0)) emptyConfig rejectingWorld).1))
    = [Invoked 0; CalledComplete 5 r; CalledComplete 5 r]
  ∧ trace (drain (QueryObserver.onError (useFetch (Plain (Fn 0)) emptyConfig rejectingWorld).2
                    6 (useFetch (Plain (Fn 0)) emptyConfig rejectingWorld).1))
    = [Invoked 0; CalledError 6 (mkError "bad input"); CalledError 6 (mkError "bad input")].
Proof.
  assert (Hthr : throwing rejectingWorld (actualEndpoint (Plain (Fn 0)))
                 = Some (mkError "bad input")) by (vm_compute; reflexivity).
  assert (Hmt : microtasks rejectingWorld = []) by (vm_compute; reflexivity).
  destruct (X21_callbacks_after_a_synchronous_throw rejectingWorld (Plain (Fn 0)) emptyConfig
              (mkError "bad input") 5 eq_refl Hthr Hmt) as (_ & _ & _ & _ & _ & Hc & _).
  destruct (X21_callbacks_after_a_synchronous_throw rejectingWorld (Plain (Fn 0)) emptyConfig
              (mkError "bad input") 6 eq_refl Hthr Hmt) as (_ & _ & _ & _ & _ & _ & He).
  cbv zeta. split; [reflexivity|]. split.
  - rewrite Hc. vm_compute. reflexivity.
  - rewrite (He eq_refl eq_refl). vm_compute. reflexivity.
Defined.

(** X22.  When the call of the unit of work throws in a client call with a
    free key, the key is registered although the operation under it has
    settled, and the eviction is queued: the key is free once the queue has
    run.  Until then a second call that derives the same key gets an
    observer of the settled operation: no unit of work is called, the
    snapshot is the failure of the first call, and a completion callback
    registered on the second observer before the queue runs is called twice
    with it. *)
Theorem X22_settled_operation_under_a_registered_key (stringify : JVal → string)
    (w : World) (e e2 : EndpointArg) (c c2 : QueryConfig) (k : string) (err : JVal)
    (tag : nat) :
  EqueryClient.keyOf stringify e c w = Some k →
  EqueryClient.keyOf stringify e2 c2 w = Some k →
  activeQueries w !! k = None →
  enabledNotFalse (mergedOf c w) = true →
  throwing w (finalOf e c w) = Some err →
  microtasks w = [] →
  let r1 := EqueryClient.useFetch stringify e c w in
  let r2 := EqueryClient.useFetch stringify e2 c2 r1.1 in
  let a := length (queries w) in
  let r := thrownResult err initialResult in
  activeQueries r1.1 !! k = Some a
  ∧ resultState <$> queries r1.1 !! a = Some r
  ∧ isLoading r = false
  ∧ activeQueries (drain r1.1) !! k = None
  ∧ QueryObserver.getQueryId r2.2 r2.1 = Some a
  ∧ trace r2.1 = trace w ++ [Invoked a]
  ∧ resultState <$> queries r2.1 !! a = Some r
  ∧ activeQueries (drain r2.1) !! k = None
  ∧ trace (drain (QueryObserver.onComplete r2.2 tag r2.1))
    = trace r2.1 ++ [CalledComplete tag r; CalledComplete tag r].
Proof.
  intros Hk Hk2 Hfree He Hthr Hmt. cbv zeta.
  rewrite (client_useFetch_thrown_closed stringify e c w k err Hk Hfree He Hthr).
  cbn [fst snd].
  set (r := thrownResult err initialResult).
  set (q1 := withCallbacks _ _ _). set (w1 := Build_World _ _ _ _ _ _ _ _ _).
  assert (Hq1 : queries w1 !! length (queries w) = Some q1)
    by (subst w1; wsimpl; apply lookup_snoc_length).
  assert (Hreg : activeQueries w1 !! k = Some (length (queries w)))
    by (subst w1; wsimpl; apply lookup_insert_eq).
  assert (Hla : (length (queries w) < length (queries w1))%nat)
    by (by eapply lookup_lt_Some).
  split; [done|].
  split; [by rewrite Hq1|].
  split; [apply thrownResult_loading|].
  split.
  { eapply (drain_evicts k (length (queries w)) _ w1 eq_refl); [|done].
    subst w1. wsimpl. apply elem_of_app. right. apply elem_of_app. left.
    apply elem_of_cons. by left. }
  assert (Hk2' : EqueryClient.keyOf stringify e2 c2 w1 = Some k).
  { rewrite <- Hk2. by apply keyOf_clientConfig. }
  rewrite (client_useFetch_shared stringify e2 c2 w1 k (length (queries w)) Hk2' Hreg).
  rewrite (observer_new_closed _ w1 q1 Hq1). cbn [fst snd].
  change (resultState q1) with r. subst r. rewrite thrownResult_settled.
  set (r := thrownResult err initialResult).
  set (q2 := withCallbacks _ _ (withRefCount _ q1)).
  set (w2 := Build_World _ _ _ _ _ _ _ _ _).
  assert (Hq2 : queries w2 !! length (queries w) = Some q2)
    by (subst w2; wsimpl; by apply list_lookup_insert_eq).
  assert (Ho2 : observers w2 !! length (observers w1)
                = Some (freshObserver (length (queries w))))
    by (subst w2; wsimpl; apply lookup_snoc_length).
  assert (Ho1 : observers w2 !! length (observers w)
                = Some (freshObserver (length (queries w)))).
  { subst w2 w1. wsimpl. apply lookup_snoc_snoc. }
  assert (Hlo : (length (observers w1) < length (observers w2))%nat)
    by (by eapply lookup_lt_Some).
  assert (Hne : length (observers w1) ≠ length (observers w)).
  { subst w1. wsimpl. rewrite length_app. simpl. lia. }
  assert (Hmt2 : microtasks w2
    = [DeliverCurrent (EvictKey k) (length (queries w));
       DeliverCurrent (RelayComplete (length (observers w))) (length (queries w))]
      ++ (if hasDeliverableError r
          then [DeliverError (RelayError (length (observers w))) (error r)] else [])
      ++ [DeliverCurrent (RelayComplete (length (observers w1))) (length (queries w))]
      ++ (if hasDeliverableError r
          then [DeliverError (RelayError (length (observers w1))) (error r)] else [])).
  { subst w2 w1. wsimpl. rewrite Hmt. cbn [app]. reflexivity. }
  split; [unfold QueryObserver.getQueryId; by rewrite Ho2|].
  split; [done|].
  split; [by rewrite Hq2|].
  split.
  { eapply (drain_evicts k (length (queries w)) _ w2 eq_refl).
    - rewrite Hmt2. apply elem_of_cons. by left.
    - by eapply lookup_lt_Some. }
  rewrite (observer_onComplete_closed _ tag w2 _ q2 Ho2 Hq2).
  change (resultState q2) with r. subst r. rewrite thrownResult_settled.
  set (r := thrownResult err initialResult).
  cbn [freshObserver isObserverCanceled negb andb wrappedCompleteCallbacks
       wrappedErrorCallbacks app].
  rewrite (trace_drain _ _ eq_refl). wsimpl. rewrite Hmt2.
  f_equal. subst r.
  destruct (hasDeliverableError (thrownResult err initialResult));
    repeat first
      [ rewrite list_lookup_insert_ne by exact Hne
      | rewrite list_lookup_insert_eq by exact Hlo
      | rewrite Ho1
      | rewrite Hq2
      | progress cbn [mbind list_bind app taskEvents completeEvents errorEvents
                      freshObserver isObserverCanceled wrappedCompleteCallbacks
                      wrappedErrorCallbacks QueryObserver.withWrapped map] ];
    done.
Qed.

Lemma X22_settled_operation_under_a_registered_key_witness :
  let r1 := EqueryClient.useFetch demoStringify (Keyed "users" 0) emptyConfig rejectingWorld in
  let r2 := EqueryClient.useFetch demoStringify (Keyed "users" 1) emptyConfig r1.1 in
  QueryObserver.getQueryId r2.2 r2.1 = Some 0%nat
  ∧ trace r2.1 = [Invoked 0]
  ∧ activeQueries (drain r2.1) !! "users" = None.
Proof.
  assert (Hthr : throwing rejectingWorld (finalOf (Keyed "users" 0) emptyConfig rejectingWorld)
                 = Some (mkError "bad input")) by (vm_compute; reflexivity).
  assert (Hmt : microtasks rejectingWorld = []) by (vm_compute; reflexivity).
  assert (Hk : EqueryClient.keyOf demoStringify (Keyed "users" 0) emptyConfig rejectingWorld
               = Some "users") by (vm_compute; reflexivity).
  assert (Hk2 : EqueryClient.keyOf demoStringify (Keyed "users" 1) emptyConfig rejectingWorld
                = Some "users") by (vm_compute; reflexivity).
  assert (Hfree : activeQueries rejectingWorld !! "users" = None) by (vm_compute; reflexivity).
  destruct (X22_settled_operation_under_a_registered_key demoStringify rejectingWorld
              (Keyed "users" 0) (Keyed "users" 1) emptyConfig emptyConfig "users"
              (mkError "bad input") 5 Hk Hk2 Hfree eq_refl Hthr Hmt)
    as (_ & _ & _ & _ & Hid & Htr & _ & Hgone & _).
  exact (conj Hid (conj Htr Hgone)).
Defined.

Lemma throwing_tick w : throwing (tick w) = throwing w.
Proof.
  unfold tick. destruct (microtasks w) as [|t ts]; [done|].
  destruct t; simpl; try done.
  - destruct (queries w !! aq); [|done]. by rewrite callComplete_emit.
  - by rewrite callError_emit.
  - unfold react. destruct (observers _ !! obs); [|done].
    destruct (QueryObserver.intercept _ _); [|done]. by destruct c.
Qed.

(** What no microtask changes, the run of the queue leaves as it was. *)
Lemma drain_preserves {A} (f : World → A) :
  (∀ w, f (tick w) = f w) → ∀ w, f (drain w) = f w.
Proof.
  intros Htick w. unfold drain. generalize (length (microtasks w)) as n.
  induction n as [|n IH]; [done|]. simpl. by rewrite Htick.
Qed.

Lemma microtasks_drain : ∀ ts w, microtasks w = ts → microtasks (drain w) = [].
Proof.
  induction ts as [|t ts IH]; intros w Hmt.
  - by rewrite (drain_nil w Hmt).
  - rewrite (drain_step w t ts Hmt). apply IH. by eapply microtasks_tick.
Qed.

(** X23.  The relays of an observer that was attached to an operation
    already settled (here: the call of its unit of work threw) are still on
    the listener lists after the queue has run.  When the operation is
    executed again through the observer and the call of the unit of work
    returns this time, the settlement of the second run calls the
    completion callback registered on the observer, with the snapshot of
    the second run, and only then are the lists empty. *)
Theorem X23_observer_of_a_settled_operation_keeps_its_relays
    (w : World) (e : EndpointArg) (c : QueryConfig) (err : JVal) (tag : nat)
    (t : Endpoint → option JVal) (out : Outcome) :
  enabledNotFalse c = true → throwing w (actualEndpoint e) = Some err →
  microtasks w = [] → t (actualEndpoint e) = None →
  let w1 := (useFetch e c w).1 in
  let o := (useFetch e c w).2 in
  let a := length (queries w) in
  let w2 := drain (QueryObserver.onComplete o tag w1) in
  let w3 := QueryObserver.execute o (setThrowing t w2) in
  let w4 := ActiveQuery.resume (S (length (executions w))) out w3 in
  let r2 :=
    bodyResult (freshRun a (S (length (controllers w))) c) false out
      (withCanceled false (withLoading true (thrownResult err initialResult))) in
  ActiveQuery.getCallbackCount a w2 = 2%nat
  ∧ microtasks w2 = []
  ∧ trace w3 = trace w2 ++ [Invoked a]
  ∧ resultState <$> queries w4 !! a = Some r2
  ∧ trace w4 = trace w3 ++ [CalledComplete tag r2]
  ∧ ActiveQuery.getCallbackCount a w4 = 0%nat.
Proof.
  intros He Hthr Hmt Hret. cbv zeta.
  rewrite (useFetch_thrown_closed e c w err He Hthr). cbn [fst snd].
  set (r := thrownResult err initialResult).
  set (q1 := withCallbacks _ _ _). set (w1 := Build_World _ _ _ _ _ _ _ _ _).
  assert (Hq1 : queries w1 !! length (queries w) = Some q1)
    by (subst w1; wsimpl; apply lookup_snoc_length).
  assert (Ho1 : observers w1 !! length (observers w) = Some (freshObserver (length (queries w))))
    by (subst w1; wsimpl; apply lookup_snoc_length).
  assert (Hlo : (length (observers w) < length (observers w1))%nat)
    by (by eapply lookup_lt_Some).
  rewrite (observer_onComplete_closed _ tag w1 _ q1 Ho1 Hq1).
  cbn [freshObserver isObserverCanceled negb andb wrappedCompleteCallbacks
       wrappedErrorCallbacks app].
  set (ob2 := QueryObserver.withWrapped _ _ _).
  set (w1' := setMicrotasks _ _).
  set (w2 := setThrowing t (drain w1')).
  assert (Hq2 : queries w2 !! length (queries w) = Some q1).
  { subst w2. wsimpl. by rewrite (drain_preserves queries queries_tick). }
  assert (Ho2 : observers w2 !! length (observers w) = Some ob2).
  { subst w2. wsimpl. rewrite (drain_preserves observers observers_tick).
    subst w1'. wsimpl. by apply list_lookup_insert_eq. }
  assert (Hx2 : executions w2 = executions w1).
  { subst w2. wsimpl. by rewrite (drain_preserves executions executions_tick). }
  assert (Hc2 : controllers w2 = controllers w1).
  { subst w2. wsimpl. by rewrite (drain_preserves controllers controllers_tick). }
  assert (Hmt2 : microtasks w2 = []).
  { subst w2. wsimpl. by eapply microtasks_drain. }
  split.
  { unfold ActiveQuery.getCallbackCount.
    rewrite (drain_preserves queries queries_tick).
    change (queries w1') with (queries w1). by rewrite Hq1. }
  split; [by eapply microtasks_drain|].
  assert (Hex : QueryObserver.execute (length (observers w)) w2
                = ActiveQuery.execute (length (queries w)) w2).
  { unfold QueryObserver.execute. rewrite Ho2. cbn [ob2 activeQuery QueryObserver.withWrapped freshObserver].
    unfold ActiveQuery.callExecute. by rewrite Hq2. }
  rewrite Hex.
  assert (Hidle : isLoading (resultState q1) && isSomeb (promise q1) = false).
  { change (resultState q1) with r. subst r. by rewrite thrownResult_loading. }
  rewrite (execute_closed _ w2 q1 Hq2 Hidle Hret).
  rewrite Hx2, Hc2.
  set (q3 := withRun _ _ _). set (w3 := Build_World _ _ _ _ _ _ _ _ _).
  split; [done|].
  assert (Hlx : length (executions w1) = S (length (executions w)))
    by (subst w1; wsimpl; rewrite length_app; simpl; lia).
  assert (Hlc : length (controllers w1) = S (length (controllers w)))
    by (subst w1; wsimpl; rewrite length_app; simpl; lia).
  assert (Hx3 : executions w3 !! S (length (executions w))
                = Some (freshRun (length (queries w)) (S (length (controllers w))) c)).
  { subst w3. wsimpl. rewrite <- Hlx, Hlc. apply lookup_snoc_length. }
  assert (Hla : (length (queries w) < length (queries w2))%nat)
    by (by eapply lookup_lt_Some).
  assert (Hq3 : queries w3 !! length (queries w) = Some q3)
    by (subst w3; wsimpl; by apply list_lookup_insert_eq).
  assert (Hab : aborted (S (length (controllers w))) w3 = false).
  { unfold aborted. subst w3. wsimpl. rewrite <- Hlc. by rewrite lookup_snoc_length. }
  rewrite (resume_closed _ out w3 _ q3 Hx3 eq_refl Hq3).
  cbn [freshRun owner signal]. rewrite Hab.
  set (r2 := bodyResult _ false out _).
  wsimpl.
  split.
  { rewrite list_lookup_insert_eq; [done|].
    subst w3. wsimpl. by rewrite length_insert. }
  split.
  { f_equal.
    change (errorCallbacks q3) with [RelayError (length (observers w))].
    change (completeCallbacks q3) with [RelayComplete (length (observers w))].
    change (observers w3) with (observers w2).
    cbn [mbind list_bind app completeEvents errorEvents]. rewrite Ho2.
    cbn [ob2 isObserverCanceled QueryObserver.withWrapped freshObserver
         wrappedErrorCallbacks wrappedCompleteCallbacks map app].
    by destruct (bodyError _ _ _). }
  unfold ActiveQuery.getCallbackCount. wsimpl.
  rewrite list_lookup_insert_eq; [done|].
  subst w3. wsimpl. by rewrite length_insert.
Qed.

Lemma X23_observer_of_a_settled_operation_keeps_its_relays_witness :
  let w1 := (useFetch (Plain (Fn 0)) emptyConfig rejectingWorld).1 in
  let o := (useFetch (Plain (Fn 0)) emptyConfig rejectingWorld).2 in
  let w2 := drain (QueryObserver.onComplete o 5 w1) in
  let w3 := QueryObserver.execute o (setThrowing (λ _, None) w2) in
  let w4 := ActiveQuery.resume 1 (Fulfils (JStr "second try")) w3 in
  let r := thrownResult (mkError "bad input") initialResult in
  trace w4
  = [Invoked 0; CalledComplete 5 r; CalledComplete 5 r; Invoked 0;
     CalledComplete 5 (withLoading false (withData (JStr "second try") r))].
Proof.
  assert (Hthr : throwing rejectingWorld (actualEndpoint (Plain (Fn 0)))
                 = Some (mkError "bad input")) by (vm_compute; reflexivity).
  assert (Hmt : microtasks rejectingWorld = []) by (vm_compute; reflexivity).
  destruct (X23_observer_of_a_settled_operation_keeps_its_relays rejectingWorld
              (Plain (Fn 0)) emptyConfig (mkError "bad input") 5 (λ _, None)
              (Fulfils (JStr "second try")) eq_refl Hthr Hmt eq_refl)
    as (_ & _ & H3 & _ & H5 & _).
  cbv zeta. refine (eq_trans H5 _). rewrite H3. vm_compute. reflexivity.
Defined.
